(** * Event management backend: services, repositories and handlers

    A shallow embedding of the backend of the event management
    application (Fastify handlers, service classes, Drizzle repositories
    over two PostgreSQL tables) together with the properties of its event
    lifecycle, notification read state and list/filter/paginate contract.

    Layout, following the source tree:
    - [db/schema.ts]                          : [Event], [Notification], ...
    - [repositories/base.repository.ts]       : section [BaseRepository]
    - [repositories/events.repo.ts]           : module [EventRepository]
    - [repositories/notifications.repo.ts]    : module [NotificationRepository]
    - [services/event.service.ts]             : module [EventService]
    - [services/notification.service.ts]      : module [NotificationService]
    - [handlers/open-api-service-handlers.ts] : module [OpenAPIServiceHandlers]
    - [frontend: store] ([useEventsStore])    : module [EventsStore]
    - [frontend: components/EventFilters.tsx] : module [EventFilters]
    - [openapi/generated-types] ([paths])     : module [Paths]
    - [frontend: apis, hooks, EventsListPage] : modules [Api], [Hooks],
                                                [EventsListPage]

    Conventions of the embedding.
    - A [Date] is its epoch value in milliseconds, an integer; an
      invalid [Date] cannot be stored and is left out.  One clock value
      per request stands for [new Date()] and for SQL [now()]; the
      process and the database session run in UTC.
    - A JavaScript [number] is an integer, [NaN] or a signed infinity
      (what [parseInt], integer arithmetic and one division produce).
    - A [uuid] is an opaque text; texts that PostgreSQL would not read
      as a uuid are left out.  The values [gen_random_uuid()] yields are
      read from an explicit environment [Env], and an insert whose key
      is already in the table fails on the primary key.
    - A string is a list of 8-bit characters: [varchar(255)] counts
      them, and [ILIKE] folds the case of the ASCII letters.
    - The database is a pair of row lists kept in insertion order (the
      queries of [findAll] have no [ORDER BY]); an [UPDATE] rewrites
      rows in place.  The constraints of the migration are enforced:
      primary keys, the foreign key of [notifications.event_id] with
      its cascade on delete, and the [varchar(255)] columns.
    - A thrown JavaScript exception leaves every earlier write in place:
      there is no transaction around a service method. *)

From Stdlib Require Import List String Ascii ZArith Lia Bool Arith.
From Stdlib Require Import Sorted Permutation.
From Stdlib Require Import DecimalString DecimalPos.
Import ListNotations.

Local Open Scope string_scope.
Local Open Scope Z_scope.

(* ================================================================== *)
(** * JavaScript values *)
(* ================================================================== *)

(** [number]: integers, [NaN], [Infinity] and [-Infinity]. *)
Inductive number : Type :=
| Int (z : Z)
| NaN
| Inf (negative : bool).

Definition num_sub (a b : number) : number :=
  match a, b with
  | NaN, _ | _, NaN => NaN
  | Int x, Int y => Int (x - y)
  | Int _, Inf n => Inf (negb n)
  | Inf n, Int _ => Inf n
  | Inf n, Inf m => if Bool.eqb n m then NaN else Inf n
  end.

Definition num_mul (a b : number) : number :=
  match a, b with
  | NaN, _ | _, NaN => NaN
  | Int x, Int y => Int (x * y)
  | Int x, Inf n | Inf n, Int x =>
      if x =? 0 then NaN else Inf (xorb (x <? 0) n)
  | Inf n, Inf m => Inf (xorb n m)
  end.

(** [Math.ceil(a / b)]. *)
Definition ceil_div (a b : number) : number :=
  match a, b with
  | NaN, _ | _, NaN => NaN
  | Int x, Int y =>
      if y =? 0
      then (if x =? 0 then NaN else Inf (x <? 0))
      else Int (- ((- x) / y))
  | Int _, Inf _ => Int 0
  | Inf n, Int y => Inf (xorb n (y <? 0))
  | Inf _, Inf _ => NaN
  end.

(** Truthiness of a string: only the empty string is falsy. *)
Definition truthy (s : string) : bool := negb (String.eqb s EmptyString).

(** [o || d] for an optional string. *)
Definition or_default (o : option string) (d : string) : string :=
  match o with
  | Some s => if truthy s then s else d
  | None => d
  end.

(** The truthy content of an optional string parameter, as tested by
    [if (param)]. *)
Definition given (o : option string) : option string :=
  match o with
  | Some s => if truthy s then Some s else None
  | None => None
  end.

(** ** [parseInt(s, 10)] *)

Definition is_white_space (c : ascii) : bool :=
  let n := nat_of_ascii c in
  ((n =? 32) || ((9 <=? n) && (n <=? 13)))%nat.

Definition digit_value (c : ascii) : option Z :=
  let n := nat_of_ascii c in
  if ((48 <=? n) && (n <=? 57))%nat then Some (Z.of_nat n - 48) else None.

Fixpoint skip_white_space (s : list ascii) : list ascii :=
  match s with
  | c :: s' => if is_white_space c then skip_white_space s' else s
  | [] => []
  end.

(** Reads the longest digit prefix; [None] when there is no digit. *)
Fixpoint digits (acc : option Z) (s : list ascii) : option Z :=
  match s with
  | c :: s' =>
      match digit_value c with
      | Some d =>
          digits (Some (10 * match acc with Some a => a | None => 0 end + d)) s'
      | None => acc
      end
  | [] => acc
  end.

Definition parseInt (s : string) : number :=
  let body := skip_white_space (list_ascii_of_string s) in
  let '(negative, rest) :=
    match body with
    | "-"%char :: r => (true, r)
    | "+"%char :: r => (false, r)
    | _ => (false, body)
    end in
  match digits None rest with
  | Some v => Int (if negative then - v else v)
  | None => NaN
  end.

(* ================================================================== *)
(** * PostgreSQL column types and operators *)
(* ================================================================== *)

(** SQLSTATE classes raised by the statements of this application. *)
Inductive SqlState : Type :=
| unique_violation
| foreign_key_violation
| string_data_right_truncation
| invalid_text_representation
| invalid_escape_sequence
| invalid_row_count_in_result_offset_clause.

(** A thrown value: [new Error(message)] of the application, or an error
    of the database driver. *)
Inductive Exn : Type :=
| Error (message : string)
| DatabaseError (code : SqlState).

Fixpoint all_spaces (s : string) : bool :=
  match s with
  | EmptyString => true
  | String c s' => Ascii.eqb c " "%char && all_spaces s'
  end.

(** Storing [s] into a [varchar(n)] column: an over-long value is an
    error unless the excess is blank, in which case it is cut. *)
Definition varchar (n : nat) (s : string) : option string :=
  if (String.length s <=? n)%nat then Some s
  else if all_spaces (substring n (String.length s - n) s)
       then Some (substring 0 n s)
       else None.

Definition varchar_null (n : nat) (o : option string) : option (option string) :=
  match o with
  | None => Some None
  | Some s => option_map Some (varchar n s)
  end.

(** ** [ILIKE] *)

Definition lower (c : ascii) : ascii :=
  let n := nat_of_ascii c in
  if ((65 <=? n) && (n <=? 90))%nat then ascii_of_nat (n + 32) else c.

Inductive LikeToken : Type :=
| AnyString            (* % *)
| AnyChar              (* _ *)
| Literal (c : ascii).

(** Reading of a [LIKE] pattern with the default escape character; a
    pattern ending in a lone backslash is rejected. *)
Fixpoint like_tokens (p : list ascii) : option (list LikeToken) :=
  match p with
  | [] => Some []
  | "\"%char :: rest =>
      match rest with
      | [] => None
      | c :: rest' => option_map (cons (Literal c)) (like_tokens rest')
      end
  | "%"%char :: rest => option_map (cons AnyString) (like_tokens rest)
  | "_"%char :: rest => option_map (cons AnyChar) (like_tokens rest)
  | c :: rest => option_map (cons (Literal c)) (like_tokens rest)
  end.

(** [s ILIKE p], for the tokens of [p]. *)
Fixpoint like_match (p : list LikeToken) (s : list ascii) {struct p} : bool :=
  match p with
  | [] => match s with [] => true | _ => false end
  | AnyString :: p' =>
      (fix any (s : list ascii) : bool :=
         like_match p' s
         || match s with
            | [] => false
            | _ :: s' => any s'
            end) s
  | AnyChar :: p' =>
      match s with
      | [] => false
      | _ :: s' => like_match p' s'
      end
  | Literal c :: p' =>
      match s with
      | [] => false
      | d :: s' => Ascii.eqb (lower c) (lower d) && like_match p' s'
      end
  end.


(* ================================================================== *)
(** * Schema ([db/schema.ts]) *)
(* ================================================================== *)

Definition uuid : Type := string.
Definition Date : Type := Z.

(** [pgEnum('event_status', ['draft', 'published', 'archived'])] *)
Inductive EventStatus : Type := draft | published | archived.

Definition status_label (s : EventStatus) : string :=
  match s with
  | draft => "draft"
  | published => "published"
  | archived => "archived"
  end.

(** Input conversion of a text parameter compared with the enum column. *)
Definition status_of_label (l : string) : option EventStatus :=
  if String.eqb l "draft" then Some draft
  else if String.eqb l "published" then Some published
  else if String.eqb l "archived" then Some archived
  else None.

Definition status_eqb (a b : EventStatus) : bool :=
  match a, b with
  | draft, draft | published, published | archived, archived => true
  | _, _ => false
  end.

(** [schema.Event]: a row of [events]. *)
Module Event.
Record t : Type := mk {
  id : uuid;
  name : string;
  description : option string;
  status : EventStatus;
  startDate : Date;
  endDate : option Date;
  location : option string;
  tags : option (list string);
  notificationCount : Z;
  createdAt : Date;
  updatedAt : Date
}.
End Event.

(** [schema.NewEvent]: the insert shape.  Columns with a default may be
    left out; for a nullable column without default, leaving it out and
    passing [null] both store [NULL]. *)
Module NewEvent.
Record t : Type := mk {
  id : option uuid;
  name : string;
  description : option string;
  status : option EventStatus;
  startDate : Date;
  endDate : option Date;
  location : option string;
  tags : option (list string);
  notificationCount : option Z;
  createdAt : option Date;
  updatedAt : option Date
}.
End NewEvent.

(** [Partial<schema.Event>]: every key optional.  For a nullable column
    [None] is a missing key, [Some None] is [null]. *)
Module Changes.
Record t : Type := mk {
  id : option uuid;
  name : option string;
  description : option (option string);
  status : option EventStatus;
  startDate : option Date;
  endDate : option (option Date);
  location : option (option string);
  tags : option (option (list string));
  notificationCount : option Z;
  createdAt : option Date;
  updatedAt : option Date
}.

Definition empty : t :=
  mk None None None None None None None None None None None.
End Changes.

(** [schema.Notification]: a row of [notifications]. *)
Module Notification.
Record t : Type := mk {
  id : uuid;
  eventId : uuid;
  title : string;
  message : option string;
  isRead : Z;
  createdAt : Date
}.
End Notification.

(** [schema.NewNotification] *)
Module NewNotification.
Record t : Type := mk {
  id : option uuid;
  eventId : uuid;
  title : string;
  message : option string;
  isRead : option Z;
  createdAt : option Date
}.
End NewNotification.

(* ================================================================== *)
(** * Database state and the monad of service code *)
(* ================================================================== *)

(** The two tables, and the number of [INSERT], [UPDATE] and [DELETE]
    statements that ran to completion. *)
Record Db : Type := mkDb {
  events : list Event.t;
  notifications : list Notification.t;
  writes : nat
}.

(** What one request reads from its surroundings: the clock, and the
    values [gen_random_uuid()] yields for an event row and for a
    notification row. *)
Record Env : Type := mkEnv {
  now : Date;
  uuid_event : uuid;
  uuid_notification : uuid
}.

Inductive Outcome (A : Type) : Type :=
| Ok (a : A)
| Throw (e : Exn).
Arguments Ok {A} a.
Arguments Throw {A} e.

(** An [async] method: reads and writes the database, returns or throws.
    The database reached is kept in both cases. *)
Definition M (A : Type) : Type := Db -> Db * Outcome A.

Definition ret {A} (a : A) : M A := fun db => (db, Ok a).

Definition throw {A} (e : Exn) : M A := fun db => (db, Throw e).

Definition bind {A B} (m : M A) (k : A -> M B) : M B :=
  fun db =>
    match m db with
    | (db', Ok a) => k a db'
    | (db', Throw e) => (db', Throw e)
    end.

Notation "x <- m ;; k" := (bind m (fun x => k))
  (at level 61, m at next level, right associativity).
Notation "m ;;; k" := (bind m (fun _ => k))
  (at level 61, right associativity).

(** The quotation mark of the message templates. *)
Definition dquote : string := String (ascii_of_nat 34) EmptyString.

(* ================================================================== *)
(** * [BaseRepository] *)
(* ================================================================== *)

Section BaseRepository.

Context {Row : Type}.
Variable row_id : Row -> uuid.

Definition has_id (id : uuid) (r : Row) : bool := String.eqb (row_id r) id.

(** [select().from(table).where(eq(idColumn, id)).limit(1)], then
    [results[0]]. *)
Definition select_by_id (rows : list Row) (id : uuid) : option Row :=
  find (has_id id) rows.

(** [update(table).set(...).where(eq(column, id)).returning()], with
    [row_id] the column compared: the rewritten table and the rows
    returned. *)
Definition update_where_id (set : Row -> Row) (rows : list Row) (id : uuid)
  : list Row * list Row :=
  (map (fun r => if has_id id r then set r else r) rows,
   map set (filter (has_id id) rows)).

End BaseRepository.

(* ================================================================== *)
(** * [EventRepository] ([repositories/events.repo.ts]) *)
(* ================================================================== *)

Module EventRepository.

Definition findById (id : uuid) : M (option Event.t) :=
  fun db => (db, Ok (select_by_id Event.id (events db) id)).

(** [insert(events).values(data).returning()]: column defaults, the
    [varchar(255)] columns, then the primary key. *)
Definition insert (env : Env) (data : NewEvent.t) : M (list Event.t) :=
  fun db =>
    match varchar 255 (NewEvent.name data),
          varchar_null 255 (NewEvent.location data) with
    | Some name, Some location =>
        let id := match NewEvent.id data with
                  | Some i => i
                  | None => uuid_event env
                  end in
        if existsb (has_id Event.id id) (events db)
        then (db, Throw (DatabaseError unique_violation))
        else
          let row :=
            Event.mk id name (NewEvent.description data)
              (match NewEvent.status data with Some s => s | None => draft end)
              (NewEvent.startDate data) (NewEvent.endDate data)
              location (NewEvent.tags data)
              (match NewEvent.notificationCount data with
               | Some c => c
               | None => 0
               end)
              (match NewEvent.createdAt data with
               | Some d => d
               | None => now env
               end)
              (match NewEvent.updatedAt data with
               | Some d => d
               | None => now env
               end) in
          (mkDb (events db ++ [row]) (notifications db) (S (writes db)),
           Ok [row])
    | _, _ => (db, Throw (DatabaseError string_data_right_truncation))
    end.

Definition create (env : Env) (data : NewEvent.t) : M Event.t :=
  results <- insert env data ;;
  match results with
  | row :: _ => ret row
  | [] => throw (Error "Failed to create record")
  end.

(** [.set(data)]: keys that are present overwrite the column. *)
Definition set_columns (data : Changes.t) (e : Event.t) : Event.t :=
  let pick {A} (o : option A) (old : A) : A :=
    match o with Some v => v | None => old end in
  Event.mk
    (pick (Changes.id data) (Event.id e))
    (pick (Changes.name data) (Event.name e))
    (pick (Changes.description data) (Event.description e))
    (pick (Changes.status data) (Event.status e))
    (pick (Changes.startDate data) (Event.startDate e))
    (pick (Changes.endDate data) (Event.endDate e))
    (pick (Changes.location data) (Event.location e))
    (pick (Changes.tags data) (Event.tags e))
    (pick (Changes.notificationCount data) (Event.notificationCount e))
    (pick (Changes.createdAt data) (Event.createdAt e))
    (pick (Changes.updatedAt data) (Event.updatedAt e)).

(** The values of [data] as stored by the [varchar(255)] columns. *)
Definition coerce (data : Changes.t) : option Changes.t :=
  match match Changes.name data with
        | Some n => option_map Some (varchar 255 n)
        | None => Some None
        end,
        match Changes.location data with
        | Some l => option_map Some (varchar_null 255 l)
        | None => Some None
        end with
  | Some name, Some location =>
      Some (Changes.mk (Changes.id data) name (Changes.description data)
              (Changes.status data) (Changes.startDate data)
              (Changes.endDate data) location (Changes.tags data)
              (Changes.notificationCount data) (Changes.createdAt data)
              (Changes.updatedAt data))
  | _, _ => None
  end.

(** Whether the statement gives a matched row another primary key. *)
Definition rekeys (id : uuid) (data : Changes.t) (db : Db) : option uuid :=
  match Changes.id data with
  | Some id' =>
      if negb (String.eqb id' id) && existsb (has_id Event.id id) (events db)
      then Some id'
      else None
  | None => None
  end.

(** [update(events).set(data).where(eq(id, ...)).returning()], then
    [results[0]].  Changing the key of a row is checked against the
    primary key and against the foreign key of [notifications]
    ([ON UPDATE no action]). *)
Definition update (id : uuid) (data : Changes.t) : M (option Event.t) :=
  fun db =>
    match coerce data with
    | None => (db, Throw (DatabaseError string_data_right_truncation))
    | Some data' =>
        let violation :=
          match rekeys id data' db with
          | Some id' =>
              if existsb (has_id Event.id id') (events db)
              then Some unique_violation
              else if existsb (fun n => String.eqb (Notification.eventId n) id)
                              (notifications db)
              then Some foreign_key_violation
              else None
          | None => None
          end in
        match violation with
        | Some code => (db, Throw (DatabaseError code))
        | None =>
            let '(rows, results) :=
              update_where_id Event.id (set_columns data') (events db) id in
            (mkDb rows (notifications db) (S (writes db)), Ok (hd_error results))
        end
    end.

(** [delete(events).where(eq(id, ...)).returning()], with the cascade
    of the foreign key of [notifications]. *)
Definition delete (id : uuid) : M bool :=
  fun db =>
    let result := filter (has_id Event.id id) (events db) in
    (mkDb (filter (fun e => negb (has_id Event.id id e)) (events db))
          (if existsb (has_id Event.id id) (events db)
           then filter (fun n => negb (String.eqb (Notification.eventId n) id))
                       (notifications db)
           else notifications db)
          (S (writes db)),
     Ok (0 <? List.length result)%nat).

(** ** Filters of [findAll] and [countWithFilters] *)

Inductive Condition : Type :=
| NameOrTagILike (searchPattern : string)
| StatusEq (status : string).

(** The [conditions] array both methods build. *)
Definition conditions (searchQuery status : option string) : list Condition :=
  (match given searchQuery with
   | Some q => [NameOrTagILike ("%" ++ q ++ "%")]
   | None => []
   end)
  ++
  (match given status with
   | Some s => [StatusEq s]
   | None => []
   end).

(** One condition as a row predicate.  A malformed pattern and a text
    that is no label of [event_status] make the statement fail. *)
Definition condition_holds (c : Condition) : Outcome (Event.t -> bool) :=
  match c with
  | NameOrTagILike searchPattern =>
      match like_tokens (list_ascii_of_string searchPattern) with
      | Some p =>
          Ok (fun e =>
                like_match p (list_ascii_of_string (Event.name e))
                || match Event.tags e with
                   | Some tags =>
                       existsb (fun tag => like_match p (list_ascii_of_string tag))
                               tags
                   | None => false
                   end)
      | None => Throw (DatabaseError invalid_escape_sequence)
      end
  | StatusEq status =>
      match status_of_label status with
      | Some s => Ok (fun e => status_eqb (Event.status e) s)
      | None => Throw (DatabaseError invalid_text_representation)
      end
  end.

Definition sql_and (a : Outcome (Event.t -> bool)) (c : Condition)
  : Outcome (Event.t -> bool) :=
  match a, condition_holds c with
  | Ok p, Ok q => Ok (fun e => p e && q e)
  | Throw e, _ => Throw e
  | _, Throw e => Throw e
  end.

(** [conditions.reduce((acc, condition) => sql`${acc} AND ${condition}`)],
    applied when the array is not empty. *)
Definition where_ (conds : list Condition) : Outcome (Event.t -> bool) :=
  match conds with
  | [] => Ok (fun _ => true)
  | c :: rest => fold_left sql_and rest (condition_holds c)
  end.

(** [count(notifications.id)] of the left join grouped by event. *)
Definition with_notification_count (db : Db) (e : Event.t) : Event.t :=
  Event.mk (Event.id e) (Event.name e) (Event.description e) (Event.status e)
    (Event.startDate e) (Event.endDate e) (Event.location e) (Event.tags e)
    (Z.of_nat
       (List.length
          (filter (fun n => String.eqb (Notification.eventId n) (Event.id e))
                  (notifications db))))
    (Event.createdAt e) (Event.updatedAt e).

(** [.limit(n)]: the query builder writes the clause for a number that
    is [>= 0] only. *)
Definition limit {A} (n : number) (rows : list A) : Outcome (list A) :=
  match n with
  | Int z => if 0 <=? z then Ok (firstn (Z.to_nat z) rows) else Ok rows
  | NaN => Ok rows
  | Inf true => Ok rows
  | Inf false => Throw (DatabaseError invalid_text_representation)
  end.

(** [.offset(n)]: the query builder writes the clause for a truthy
    number only; the database refuses a negative row count. *)
Definition offset {A} (n : number) (rows : list A) : Outcome (list A) :=
  match n with
  | Int z =>
      if z =? 0 then Ok rows
      else if z <? 0
           then Throw (DatabaseError invalid_row_count_in_result_offset_clause)
           else Ok (skipn (Z.to_nat z) rows)
  | NaN => Ok rows
  | Inf _ => Throw (DatabaseError invalid_text_representation)
  end.

Definition findAll (page pageSize : number) (searchQuery status : option string)
  : M (list Event.t) :=
  fun db =>
    match where_ (conditions searchQuery status) with
    | Throw e => (db, Throw e)
    | Ok matches =>
        let rows := map (with_notification_count db) (filter matches (events db)) in
        let offset_ := num_mul (num_sub page (Int 1)) pageSize in
        match offset offset_ rows with
        | Throw e => (db, Throw e)
        | Ok rest => (db, limit pageSize rest)
        end
    end.

Definition countWithFilters (searchQuery status : option string) : M number :=
  fun db =>
    match where_ (conditions searchQuery status) with
    | Throw e => (db, Throw e)
    | Ok matches => (db, Ok (Int (Z.of_nat (List.length (filter matches (events db))))))
    end.

(** ** Queries without pagination *)

(** [select().from(events).where(eq(events.status, status))]: the text
    is read as a label of [event_status], whatever it is. *)
Definition findByStatus (status : string) : M (list Event.t) :=
  fun db =>
    match condition_holds (StatusEq status) with
    | Throw e => (db, Throw e)
    | Ok matches => (db, Ok (filter matches (events db)))
    end.

(** [start_date >= startDate AND start_date <= endDate].  The process
    runs in UTC, so that the driver writes a [Date] parameter as the
    reading the [timestamp] column stores. *)
Definition findByDateRange (startDate endDate : Date) : M (list Event.t) :=
  fun db =>
    (db,
     Ok (filter (fun e => (startDate <=? Event.startDate e)
                          && (Event.startDate e <=? endDate))
                (events db))).


(** ** [findWithUnreadNotifications] *)






End EventRepository.

(* ================================================================== *)
(** * [NotificationRepository] ([repositories/notifications.repo.ts]) *)
(* ================================================================== *)

Module NotificationRepository.

Definition findById (id : uuid) : M (option Notification.t) :=
  fun db => (db, Ok (select_by_id Notification.id (notifications db) id)).

(** [insert(notifications).values(data).returning()]: column defaults,
    [varchar(255)] title, primary key, and the foreign key to [events]. *)
Definition insert (env : Env) (data : NewNotification.t)
  : M (list Notification.t) :=
  fun db =>
    match varchar 255 (NewNotification.title data) with
    | Some title =>
        let id := match NewNotification.id data with
                  | Some i => i
                  | None => uuid_notification env
                  end in
        if existsb (has_id Notification.id id) (notifications db)
        then (db, Throw (DatabaseError unique_violation))
        else if negb (existsb (has_id Event.id (NewNotification.eventId data))
                              (events db))
        then (db, Throw (DatabaseError foreign_key_violation))
        else
          let row :=
            Notification.mk id (NewNotification.eventId data) title
              (NewNotification.message data)
              (match NewNotification.isRead data with
               | Some r => r
               | None => 0
               end)
              (match NewNotification.createdAt data with
               | Some d => d
               | None => now env
               end) in
          (mkDb (events db) (notifications db ++ [row]) (S (writes db)),
           Ok [row])
    | None => (db, Throw (DatabaseError string_data_right_truncation))
    end.

Definition create (env : Env) (data : NewNotification.t) : M Notification.t :=
  results <- insert env data ;;
  match results with
  | row :: _ => ret row
  | [] => throw (Error "Failed to create record")
  end.

(** [.set({ isRead: 1 })] *)
Definition set_read (n : Notification.t) : Notification.t :=
  Notification.mk (Notification.id n) (Notification.eventId n)
    (Notification.title n) (Notification.message n) 1
    (Notification.createdAt n).

Definition markAsRead (id : uuid) : M (list Notification.t) :=
  fun db =>
    let '(rows, results) :=
      update_where_id Notification.id set_read (notifications db) id in
    (mkDb (events db) rows (S (writes db)), Ok results).

Definition countUnreadByEventId (eventId : uuid) : M number :=
  fun db =>
    (db,
     Ok (Int (Z.of_nat
                (List.length
                   (filter (fun n => String.eqb (Notification.eventId n) eventId
                                     && (Notification.isRead n =? 0))
                           (notifications db)))))).

Definition markAllAsReadForEvent (eventId : uuid) : M (list Notification.t) :=
  fun db =>
    let '(rows, results) :=
      update_where_id Notification.eventId set_read (notifications db) eventId in
    (mkDb (events db) rows (S (writes db)), Ok results).

(** [BaseRepository.findAll] *)
Definition findAll : M (list Notification.t) :=
  fun db => (db, Ok (notifications db)).

(** [BaseRepository.delete]: [result.length > 0]. *)
Definition delete (id : uuid) : M bool :=
  fun db =>
    let result := filter (has_id Notification.id id) (notifications db) in
    (mkDb (events db)
          (filter (fun n => negb (has_id Notification.id id n)) (notifications db))
          (S (writes db)),
     Ok (0 <? List.length result)%nat).

(** [ORDER BY created_at]: ascending; rows of equal key are left in the
    order of the table. *)
Fixpoint place_by_createdAt (n : Notification.t) (sorted : list Notification.t)
  : list Notification.t :=
  match sorted with
  | [] => [n]
  | m :: rest =>
      if Notification.createdAt n <=? Notification.createdAt m
      then n :: sorted
      else m :: place_by_createdAt n rest
  end.

Definition orderBy_createdAt (rows : list Notification.t) : list Notification.t :=
  fold_right place_by_createdAt [] rows.

Definition findByEventId (eventId : uuid) : M (list Notification.t) :=
  fun db =>
    (db,
     Ok (orderBy_createdAt
           (filter (fun n => String.eqb (Notification.eventId n) eventId)
                   (notifications db)))).

Definition findUnreadByEventId (eventId : uuid) : M (list Notification.t) :=
  fun db =>
    (db,
     Ok (orderBy_createdAt
           (filter (fun n => String.eqb (Notification.eventId n) eventId
                             && (Notification.isRead n =? 0))
                   (notifications db)))).

End NotificationRepository.

(* ================================================================== *)
(** * [BaseService] ([services/base.service.ts]) *)
(* ================================================================== *)

(** [assertExists]: throws [`${entityName} not found`] on a missing row. *)
Definition assertExists {A} (entityName : string) (entity : option A) : M A :=
  match entity with
  | Some e => ret e
  | None => throw (Error (entityName ++ " not found"))
  end.

(** [validateCreate], [validateUpdate], [validateDelete]: empty hooks. *)
Definition validate : M unit := ret tt.

(** [formatForResponse]: the identity in the base class and in both
    overrides. *)
Definition formatForResponse {A} (entity : A) : A := entity.

(* ================================================================== *)
(** * [EventService] ([services/event.service.ts]) *)
(* ================================================================== *)

Module EventService.

Definition entityName : string := "Event".

(** [validateEventDates]: [endDate && endDate <= startDate] throws. *)
Definition validateEventDates (startDate : Date) (endDate : option Date)
  : M unit :=
  match endDate with
  | Some e =>
      if e <=? startDate
      then throw (Error "End date must be after start date")
      else ret tt
  | None => ret tt
  end.

Record Page : Type := mkPage {
  data : list Event.t;
  total : number;
  page : number;
  pageSize : number
}.

Definition findWithFilters (page pageSize : number)
    (searchQuery status : option string) : M Page :=
  events <- EventRepository.findAll page pageSize searchQuery status ;;
  total <- EventRepository.countWithFilters searchQuery status ;;
  ret (mkPage (map formatForResponse events) total page pageSize).

Definition get (id : uuid) : M Event.t :=
  found <- EventRepository.findById id ;;
  found <- assertExists entityName found ;;
  ret (formatForResponse found).

Definition create (env : Env) (data : NewEvent.t) : M Event.t :=
  validate ;;;
  validateEventDates (NewEvent.startDate data) (NewEvent.endDate data) ;;;
  let eventData :=
    NewEvent.mk (NewEvent.id data) (NewEvent.name data)
      (NewEvent.description data)
      (Some (match NewEvent.status data with Some s => s | None => draft end))
      (NewEvent.startDate data) (NewEvent.endDate data)
      (NewEvent.location data) (NewEvent.tags data)
      (NewEvent.notificationCount data) (NewEvent.createdAt data)
      (Some (now env)) in
  created <- EventRepository.create env eventData ;;
  NotificationRepository.create env
    (NewNotification.mk None (Event.id created) "Event Created"
       (Some ("Event " ++ dquote ++ Event.name created ++ dquote
              ++ " has been created"))
       None None) ;;;
  ret (formatForResponse created).

(** [changes.startDate || changes.endDate]: a [Date] is truthy, [null]
    and a missing key are not. *)
Definition carries_date (changes : Changes.t) : bool :=
  match Changes.startDate changes, Changes.endDate changes with
  | Some _, _ => true
  | None, Some (Some _) => true
  | None, _ => false
  end.

(** [changes.status || changes.name || changes.startDate] *)
Definition significant (changes : Changes.t) : bool :=
  match Changes.status changes, Changes.name changes,
        Changes.startDate changes with
  | Some _, _, _ => true
  | None, Some n, d => truthy n || match d with Some _ => true | None => false end
  | None, None, Some _ => true
  | None, None, None => false
  end.

Definition update (env : Env) (id : uuid) (changes : Changes.t) : M Event.t :=
  validate ;;;
  (if carries_date changes
   then
     existing <- EventRepository.findById id ;;
     existing <- assertExists entityName existing ;;
     let startDate := match Changes.startDate changes with
                      | Some d => d
                      | None => Event.startDate existing
                      end in
     let endDate := match Changes.endDate changes with
                    | Some (Some d) => Some d
                    | _ => Event.endDate existing
                    end in
     validateEventDates startDate endDate
   else ret tt) ;;;
  let updateData :=
    Changes.mk (Changes.id changes) (Changes.name changes)
      (Changes.description changes) (Changes.status changes)
      (Changes.startDate changes) (Changes.endDate changes)
      (Changes.location changes) (Changes.tags changes)
      (Changes.notificationCount changes) (Changes.createdAt changes)
      (Some (now env)) in
  updated <- EventRepository.update id updateData ;;
  updated <- assertExists entityName updated ;;
  (if significant changes
   then
     NotificationRepository.create env
       (NewNotification.mk None id "Event Updated"
          (Some "Event has been updated") None None) ;;;
     ret tt
   else ret tt) ;;;
  ret (formatForResponse updated).

Definition remove (id : uuid) : M bool :=
  validate ;;;
  EventRepository.delete id.

(** The [updated!] of [publish] and [archive]: the row is passed on as
    it is; a missing one would be [undefined]. *)
Definition publish (env : Env) (id : uuid) : M (option Event.t) :=
  event <- EventRepository.findById id ;;
  event <- assertExists entityName event ;;
  (if negb (status_eqb (Event.status event) draft)
   then throw (Error "Only draft events can be published")
   else ret tt) ;;;
  updated <- EventRepository.update id
               (Changes.mk None None None (Some published) None None None None
                  None None (Some (now env))) ;;
  NotificationRepository.create env
    (NewNotification.mk None id "Event Published"
       (Some ("Event " ++ dquote ++ Event.name event ++ dquote
              ++ " has been published"))
       None None) ;;;
  ret (option_map formatForResponse updated).

Definition archive (env : Env) (id : uuid) : M (option Event.t) :=
  event <- EventRepository.findById id ;;
  event <- assertExists entityName event ;;
  (if status_eqb (Event.status event) archived
   then throw (Error "Event is already archived")
   else ret tt) ;;;
  updated <- EventRepository.update id
               (Changes.mk None None None (Some archived) None None None None
                  None None (Some (now env))) ;;
  NotificationRepository.create env
    (NewNotification.mk None id "Event Archived"
       (Some ("Event " ++ dquote ++ Event.name event ++ dquote
              ++ " has been archived"))
       None None) ;;;
  ret (option_map formatForResponse updated).

Definition duplicate (env : Env) (id : uuid) : M Event.t :=
  event <- EventRepository.findById id ;;
  event <- assertExists entityName event ;;
  let duplicateData :=
    NewEvent.mk None (Event.name event ++ " (Copy)") (Event.description event)
      (Some draft) (Event.startDate event) (Event.endDate event)
      (Event.location event) (Event.tags event) None None None in
  duplicated <- EventRepository.create env duplicateData ;;
  NotificationRepository.create env
    (NewNotification.mk None (Event.id duplicated) "Event Duplicated"
       (Some ("Event " ++ dquote ++ Event.name duplicated ++ dquote
              ++ " has been created as a copy"))
       None None) ;;;
  ret (formatForResponse duplicated).

(** [getUpcomingEvents]: from [new Date()] to [new Date('2099-12-31')],
    midnight UTC of that day. *)
Definition getUpcomingEvents (env : Env) : M (list Event.t) :=
  EventRepository.findByDateRange (now env) 4102358400000.

Definition getEventsByStatus (status : string) : M (list Event.t) :=
  events <- EventRepository.findByStatus status ;;
  ret (map formatForResponse events).

(** [list]: [findAll()] of the event repository, which takes its own
    defaults, [page = 1] and [pageSize = 10]. *)
Definition list : M (Datatypes.list Event.t) :=
  EventRepository.findAll (Int 1) (Int 10) None None.

End EventService.

(* ================================================================== *)
(** * [NotificationService] ([services/notification.service.ts]) *)
(* ================================================================== *)

Module NotificationService.

Definition entityName : string := "Notification".

Definition VALID_NOTIFICATION_TYPES : list string :=
  ["info"; "warning"; "error"; "success"].

Definition createEventNotification (env : Env) (eventId : uuid)
    (title message type : string) : M Notification.t :=
  (if negb (existsb (String.eqb type) VALID_NOTIFICATION_TYPES)
   then throw (Error ("Invalid notification type. Must be one of: "
                      ++ String.concat ", " VALID_NOTIFICATION_TYPES))
   else ret tt) ;;;
  created <- NotificationRepository.create env
               (NewNotification.mk None eventId title (Some message)
                  (Some 0) None) ;;
  ret (formatForResponse created).

(** [notification.isRead === 1] returns early; otherwise the row is
    written and [updated[0]] is returned. *)
Definition markAsRead (id : uuid) : M (option Notification.t) :=
  notification <- NotificationRepository.findById id ;;
  notification <- assertExists entityName notification ;;
  if Notification.isRead notification =? 1
  then ret (Some (formatForResponse notification))
  else
    updated <- NotificationRepository.markAsRead id ;;
    ret (option_map formatForResponse (hd_error updated)).

Definition getUnreadCountForEvent (eventId : uuid) : M number :=
  NotificationRepository.countUnreadByEventId eventId.

Definition markAllReadForEvent (eventId : uuid) : M (list Notification.t) :=
  updated <- NotificationRepository.markAllAsReadForEvent eventId ;;
  ret (map formatForResponse updated).

Definition get (id : uuid) : M Notification.t :=
  found <- NotificationRepository.findById id ;;
  found <- assertExists entityName found ;;
  ret (formatForResponse found).

Definition create (env : Env) (data : NewNotification.t) : M Notification.t :=
  validate ;;;
  created <- NotificationRepository.create env data ;;
  ret (formatForResponse created).

Definition remove (id : uuid) : M bool :=
  validate ;;;
  NotificationRepository.delete id.

Definition findByEventId (eventId : uuid) : M (list Notification.t) :=
  notifications <- NotificationRepository.findByEventId eventId ;;
  ret (map formatForResponse notifications).

Definition findUnreadByEventId (eventId : uuid) : M (list Notification.t) :=
  notifications <- NotificationRepository.findUnreadByEventId eventId ;;
  ret (map formatForResponse notifications).

(** The [action] of [createLifecycleNotification]. *)
Inductive LifecycleAction : Type :=
| Created
| Updated
| Published
| Archived.

Definition titles (action : LifecycleAction) : string :=
  match action with
  | Created => "Event Created"
  | Updated => "Event Updated"
  | Published => "Event Published"
  | Archived => "Event Archived"
  end.

Definition messages (eventName : string) (action : LifecycleAction) : string :=
  "Event " ++ dquote ++ eventName ++ dquote
  ++ match action with
     | Created => " has been created"
     | Updated => " has been updated"
     | Published => " has been published"
     | Archived => " has been archived"
     end.

Definition notificationTypes (action : LifecycleAction) : string :=
  match action with
  | Created => "info"
  | Updated => "info"
  | Published => "success"
  | Archived => "warning"
  end.

Definition createLifecycleNotification (env : Env) (eventId : uuid)
    (eventName : string) (action : LifecycleAction) : M Notification.t :=
  createEventNotification env eventId (titles action)
    (messages eventName action) (notificationTypes action).

(** [list]: every row of the table. *)
Definition list : M (Datatypes.list Notification.t) :=
  NotificationRepository.findAll.

End NotificationService.

(* ================================================================== *)
(** * [OpenAPIServiceHandlers] ([handlers/open-api-service-handlers.ts]) *)
(* ================================================================== *)

Module OpenAPIServiceHandlers.

(** A query-string value as the handler finds it: the text of the URL,
    or the boolean the request validation made of it where the API
    document declares one. *)
Inductive QueryValue : Type :=
| QString (s : string)
| QBoolean (b : bool).

(** [v === 'true'] *)
Definition is_string_true (v : option QueryValue) : bool :=
  match v with
  | Some (QString s) => String.eqb s "true"
  | _ => false
  end.

Record ListQuery : Type := mkListQuery {
  page : option string;
  pageSize : option string;
  q : option string;
  status : option string;
  tag : option string
}.

Record Meta : Type := mkMeta {
  meta_page : number;
  meta_pageSize : number;
  totalPages : number;
  totalItems : number
}.

Record EventListResponse : Type := mkEventListResponse {
  data : list Event.t;
  meta : Meta
}.

Definition listEvents (query : ListQuery) : M EventListResponse :=
  let page := parseInt (or_default (page query) "1") in
  let pageSize := parseInt (or_default (pageSize query) "25") in
  let searchQuery := q query in
  let status := status query in
  result <- EventService.findWithFilters page pageSize searchQuery status ;;
  ret (mkEventListResponse
         (EventService.data result)
         (mkMeta (EventService.page result) (EventService.pageSize result)
            (ceil_div (EventService.total result) (EventService.pageSize result))
            (EventService.total result))).

(** [deleteEvent]: the reply code on return. *)
Definition deleteEvent (eventId : uuid) (permanent : option QueryValue)
    (env : Env) : M Z :=
  (if is_string_true permanent
   then EventService.remove eventId ;;; ret tt
   else EventService.archive env eventId ;;; ret tt) ;;;
  ret 204.

Definition getEvent (eventId : uuid) : M Event.t :=
  EventService.get eventId.

Definition updateEvent (env : Env) (eventId : uuid) (body : Changes.t)
  : M Event.t :=
  EventService.update env eventId body.

(** The body of [duplicateEvent]. *)
Record DuplicateBody : Type := mkDuplicateBody {
  name : option string;
  tags : option (list string)
}.

(** [body?.name || body?.tags]: a text that is not empty, or an array. *)
Definition has_overrides (body : option DuplicateBody) : bool :=
  match body with
  | Some b =>
      match given (name b), tags b with
      | Some _, _ => true
      | None, Some _ => true
      | None, None => false
      end
  | None => false
  end.

(** The body as the change set [update] is given. *)
Definition overrides (b : DuplicateBody) : Changes.t :=
  Changes.mk None (name b) None None None None None
    (option_map Some (tags b)) None None None.

(** [duplicateEvent]: the reply code and the event returned.  The
    service calls of one request that insert rows each read their own
    environment. *)
Definition duplicateEvent (env env' : Env) (eventId : uuid)
    (body : option DuplicateBody) : M (Z * Event.t) :=
  duplicated <- EventService.duplicate env eventId ;;
  duplicated <-
    (match body with
     | Some b =>
         if has_overrides body
         then EventService.update env' (Event.id duplicated) (overrides b)
         else ret duplicated
     | None => ret duplicated
     end) ;;
  ret (201, duplicated).

(** The body of [cancelEvent]. *)
Record CancelBody : Type := mkCancelBody {
  occurrence : option string;
  reason : option string
}.

Definition cancelEvent (env env' : Env) (eventId : uuid)
    (body : option CancelBody) : M (option Event.t) :=
  cancelled <- EventService.archive env eventId ;;
  (match given (match body with Some b => reason b | None => None end) with
   | Some r =>
       NotificationService.createEventNotification env' eventId
         "Event Cancelled" ("Event was cancelled. Reason: " ++ r) "warning" ;;;
       ret tt
   | None => ret tt
   end) ;;;
  ret cancelled.

(** The body of [eventQuickAction]; a [payload] that is missing, [null]
    or otherwise falsy is [None], one that is given is a change set. *)
Record QuickActionBody : Type := mkQuickActionBody {
  action : string;
  payload : option Changes.t
}.

(** The event returned, or the [undefined] that [archive] may pass on. *)
Definition eventQuickAction (env : Env) (eventId : uuid)
    (body : QuickActionBody) : M (option Event.t) :=
  if String.eqb (action body) "view"
  then event <- EventService.get eventId ;; ret (Some event)
  else if String.eqb (action body) "edit"
  then
    match payload body with
    | Some changes =>
        event <- EventService.update env eventId changes ;; ret (Some event)
    | None => event <- EventService.get eventId ;; ret (Some event)
    end
  else if String.eqb (action body) "duplicate"
  then event <- EventService.duplicate env eventId ;; ret (Some event)
  else if String.eqb (action body) "cancel"
  then EventService.archive env eventId
  else throw (Error ("Invalid action: " ++ action body)).

(** [{ data: notifications }] *)
Record NotificationListResponse : Type := mkNotificationListResponse {
  notification_data : list Notification.t
}.

Definition getEventNotifications (eventId : uuid) : M NotificationListResponse :=
  notifications <- NotificationService.findByEventId eventId ;;
  ret (mkNotificationListResponse notifications).

Definition markNotificationRead (notificationId : uuid)
  : M (option Notification.t) :=
  NotificationService.markAsRead notificationId.

Definition markAllNotificationsRead (eventId : uuid)
  : M NotificationListResponse :=
  notifications <- NotificationService.markAllReadForEvent eventId ;;
  ret (mkNotificationListResponse notifications).

End OpenAPIServiceHandlers.

(* ================================================================== *)
(** * [useEventsStore] and [EventFilters] (frontend) *)
(* ================================================================== *)

Module EventsStore.

Inductive SortOrder : Type := asc | desc.

(** The data of [EventsState]; the actions are the functions below. *)
Record EventsState : Type := mkEventsState {
  searchQuery : string;
  selectedStatus : option string;
  selectedTags : list string;
  currentPage : number;
  pageSize : number;
  sortField : string;
  sortOrder : SortOrder;
  selectedEventIds : list string
}.

Definition initial : EventsState :=
  mkEventsState EmptyString None [] (Int 1) (Int 20) "name" asc [].

(** [array.includes(x)] on strings. *)
Definition includes (l : list string) (x : string) : bool :=
  existsb (String.eqb x) l.

(** [array.filter(id => id !== x)] *)
Definition without (x : string) (l : list string) : list string :=
  filter (fun id => negb (String.eqb id x)) l.

Definition setSearchQuery (query : string) (s : EventsState) : EventsState :=
  mkEventsState query (selectedStatus s) (selectedTags s) (Int 1) (pageSize s)
    (sortField s) (sortOrder s) (selectedEventIds s).

Definition setSelectedStatus (status : option string) (s : EventsState)
  : EventsState :=
  mkEventsState (searchQuery s) status (selectedTags s) (Int 1) (pageSize s)
    (sortField s) (sortOrder s) (selectedEventIds s).

Definition setSelectedTags (tags : list string) (s : EventsState)
  : EventsState :=
  mkEventsState (searchQuery s) (selectedStatus s) tags (Int 1) (pageSize s)
    (sortField s) (sortOrder s) (selectedEventIds s).

Definition setCurrentPage (page : number) (s : EventsState) : EventsState :=
  mkEventsState (searchQuery s) (selectedStatus s) (selectedTags s) page
    (pageSize s) (sortField s) (sortOrder s) (selectedEventIds s).

Definition setPageSize (size : number) (s : EventsState) : EventsState :=
  mkEventsState (searchQuery s) (selectedStatus s) (selectedTags s) (Int 1)
    size (sortField s) (sortOrder s) (selectedEventIds s).

Definition setSorting (field : string) (order : SortOrder) (s : EventsState)
  : EventsState :=
  mkEventsState (searchQuery s) (selectedStatus s) (selectedTags s) (Int 1)
    (pageSize s) field order (selectedEventIds s).

Definition selectAllEvents (eventIds : list string) (s : EventsState)
  : EventsState :=
  mkEventsState (searchQuery s) (selectedStatus s) (selectedTags s)
    (currentPage s) (pageSize s) (sortField s) (sortOrder s) eventIds.

Definition selectEvent (eventId : string) (s : EventsState) : EventsState :=
  let isSelected := includes (selectedEventIds s) eventId in
  if isSelected
  then selectAllEvents (without eventId (selectedEventIds s)) s
  else selectAllEvents (selectedEventIds s ++ [eventId]) s.

Definition clearSelection (s : EventsState) : EventsState :=
  selectAllEvents [] s.

Definition resetFilters (s : EventsState) : EventsState :=
  mkEventsState EmptyString None [] (Int 1) (pageSize s) "name" asc
    (selectedEventIds s).

(** [useHasFilters] *)
Definition useHasFilters (s : EventsState) : bool :=
  truthy (searchQuery s)
  || match selectedStatus s with Some status => truthy status | None => false end
  || (0 <? List.length (selectedTags s))%nat.

(** [useSelectedCount] *)
Definition useSelectedCount (s : EventsState) : nat :=
  List.length (selectedEventIds s).

End EventsStore.

(** The handlers of the [EventFilters] component, on the store. *)
Module EventFilters.

Import EventsStore.

Definition hasActiveFilters (s : EventsState) : bool :=
  truthy (searchQuery s)
  || match selectedStatus s with
     | Some status => truthy status && negb (String.eqb status "all")
     | None => false
     end
  || (0 <? List.length (selectedTags s))%nat.

Definition handleStatusChange (value : string) (s : EventsState) : EventsState :=
  setSelectedStatus (if String.eqb value "all" then None else Some value) s.

Definition handleTagSelect (tag : string) (s : EventsState) : EventsState :=
  if negb (includes (selectedTags s) tag)
  then setSelectedTags (selectedTags s ++ [tag]) s
  else s.

Definition handleTagRemove (tagToRemove : string) (s : EventsState)
  : EventsState :=
  setSelectedTags (without tagToRemove (selectedTags s)) s.

(** [handleClearFilters], as far as the store goes. *)
Definition handleClearFilters (s : EventsState) : EventsState :=
  resetFilters s.

End EventFilters.

(* ================================================================== *)
(** * [paths] (generated types of the API document) *)
(* ================================================================== *)

Module Paths.

Inductive Method : Type := GET | PUT | POST | DELETE.

(** The [operationId]s; the routes call the handler of the same name. *)
Inductive Operation : Type :=
| listEvents
| getEvent
| updateEvent
| deleteEvent
| duplicateEvent
| cancelEvent
| eventQuickAction.

(** The operation of a path and method, where there is one. *)
Definition operations (path : string) (method : Method) : option Operation :=
  if String.eqb path "/events"
  then match method with
       | GET => Some listEvents
       | _ => None
       end
  else if String.eqb path "/events/{eventId}"
  then match method with
       | GET => Some getEvent
       | PUT => Some updateEvent
       | DELETE => Some deleteEvent
       | POST => None
       end
  else if String.eqb path "/events/{eventId}/duplicate"
  then match method with
       | POST => Some duplicateEvent
       | _ => None
       end
  else if String.eqb path "/events/{eventId}/cancel"
  then match method with
       | POST => Some cancelEvent
       | _ => None
       end
  else if String.eqb path "/events/{eventId}/quick-actions"
  then match method with
       | POST => Some eventQuickAction
       | _ => None
       end
  else None.

End Paths.

(* ================================================================== *)
(** * The API client, its hook and the events page (frontend) *)
(* ================================================================== *)

(** The functions of the client are embedded by the call each one
    makes: method, path, path parameter, query and body. *)
Module Api.

Record Call : Type := mkCall {
  method : Paths.Method;
  path : string;
  eventId : option string;
  query : list (string * string);
  body : option Changes.t
}.

(** A number as the query string writes it. *)
Definition number_text (n : number) : string :=
  match n with
  | Int z => NilZero.string_of_int (Z.to_int z)
  | NaN => "NaN"
  | Inf false => "Infinity"
  | Inf true => "-Infinity"
  end.

(** One key of a query object; a key whose value is [undefined] is not
    sent. *)
Definition param (key : string) (value : option string)
  : list (string * string) :=
  match value with
  | Some v => [(key, v)]
  | None => []
  end.

Module GetEventsParams.
Record t : Type := mk {
  page : option number;
  pageSize : option number;
  q : option string;
  status : option string;
  tags : option (list string)
}.
End GetEventsParams.

Definition getEvents (params : GetEventsParams.t) : Call :=
  mkCall Paths.GET "/events" None
    (param "page" (option_map number_text (GetEventsParams.page params))
     ++ param "pageSize"
          (option_map number_text (GetEventsParams.pageSize params))
     ++ param "q" (GetEventsParams.q params)
     ++ param "status" (GetEventsParams.status params)
     ++ param "tags"
          (option_map (String.concat ",") (GetEventsParams.tags params)))
    None.

Definition getEvent (id : string) : Call :=
  mkCall Paths.GET "/events/{eventId}" (Some id) [] None.

(** The keys of [eventData] that [createEvent] reads; whatever else
    the object holds is not looked at. *)
Module EventData.
Record t : Type := mk {
  page : option number;
  pageSize : option number;
  q : option string;
  status : option string;
  tag : option string
}.
End EventData.

(** [x && { key: x }] for a number: [0] and [NaN] are falsy. *)
Definition truthy_number (o : option number) : option number :=
  match o with
  | Some (Int z) => if z =? 0 then None else Some (Int z)
  | Some NaN => None
  | Some (Inf negative) => Some (Inf negative)
  | None => None
  end.

Definition createEvent (eventData : EventData.t) : Call :=
  mkCall Paths.GET "/events" None
    (param "page"
       (option_map number_text (truthy_number (EventData.page eventData)))
     ++ param "pageSize"
          (option_map number_text
             (truthy_number (EventData.pageSize eventData)))
     ++ param "q" (given (EventData.q eventData))
     ++ param "status" (given (EventData.status eventData))
     ++ param "tag" (given (EventData.tag eventData)))
    None.

Definition updateEvent (id : string) (eventData : Changes.t) : Call :=
  mkCall Paths.PUT "/events/{eventId}" (Some id) [] (Some eventData).

Definition deleteEvent (id : string) : Call :=
  mkCall Paths.DELETE "/events/{eventId}" (Some id) [] None.

Definition duplicateEvent (id : string) : Call :=
  mkCall Paths.POST "/events/{eventId}/duplicate" (Some id) [] None.

End Api.

(** [useEvents]: the call of its query function. *)
Module Hooks.

Module UseEventsParams.
Record t : Type := mk {
  page : option number;
  pageSize : option number;
  searchQuery : option string;
  status : option string;
  tags : option (list string)
}.
End UseEventsParams.


End Hooks.

(** [EventsListPage]: the listing it fetches for a state of the store. *)
Module EventsListPage.


End EventsListPage.

(* ================================================================== *)
(** * Vocabulary of the specification *)
(* ================================================================== *)

(** The error taxonomy of the specification, read off the messages the
    services throw. *)
Inductive ErrorKind : Type :=
| NotFound
| InvalidArgument
| InvalidTransition
| ValidationFailed
| Unclassified.

Definition error_kind (e : Exn) : ErrorKind :=
  match e with
  | Error m =>
      if String.eqb m "Event not found" || String.eqb m "Notification not found"
      then NotFound
      else if String.eqb m "Only draft events can be published"
              || String.eqb m "Event is already archived"
      then InvalidTransition
      else if String.eqb m "End date must be after start date"
      then ValidationFailed
      else if String.prefix "Invalid " m
      then InvalidArgument
      else Unclassified
  | DatabaseError _ => Unclassified
  end.

(** The date invariant of an event row. *)
Definition dates_ok (e : Event.t) : Prop :=
  match Event.endDate e with
  | Some d => Event.startDate e < d
  | None => True
  end.

(** The database has not handed out the identifiers of [env] yet. *)
Definition fresh_event_id (env : Env) (db : Db) : Prop :=
  existsb (has_id Event.id (uuid_event env)) (events db) = false.

Definition fresh_notification_id (env : Env) (db : Db) : Prop :=
  existsb (has_id Notification.id (uuid_notification env)) (notifications db)
  = false.

(** Referential integrity of [notifications.event_id]. *)
Definition references_ok (db : Db) : Prop :=
  forall n, In n (notifications db) ->
    existsb (has_id Event.id (Notification.eventId n)) (events db) = true.

(** The stored texts fit their [varchar(255)] columns. *)
Definition row_fits (e : Event.t) : Prop :=
  (String.length (Event.name e) <= 255)%nat
  /\ match Event.location e with
     | Some l => (String.length l <= 255)%nat
     | None => True
     end.

Definition find_event (db : Db) (id : uuid) : option Event.t :=
  select_by_id Event.id (events db) id.

Definition find_notification (db : Db) (id : uuid) : option Notification.t :=
  select_by_id Notification.id (notifications db) id.

(** The notifications attached to an event. *)
Definition notifications_of (db : Db) (eventId : uuid) : list Notification.t :=
  filter (fun n => String.eqb (Notification.eventId n) eventId)
         (notifications db).

(** The row a lifecycle method writes over [e]. *)
Definition with_status (s : EventStatus) (at_ : Date) (e : Event.t) : Event.t :=
  Event.mk (Event.id e) (Event.name e) (Event.description e) s
    (Event.startDate e) (Event.endDate e) (Event.location e) (Event.tags e)
    (Event.notificationCount e) (Event.createdAt e) at_.

(** The notification a lifecycle method records. *)
Definition lifecycle_notification (env : Env) (eventId : uuid)
    (title message : string) : Notification.t :=
  Notification.mk (uuid_notification env) eventId title (Some message) 0
    (now env).

(** [events] with the rows of key [id] rewritten by [f]. *)
Definition rewrite_events (f : Event.t -> Event.t) (id : uuid) (db : Db)
  : list Event.t :=
  map (fun r => if has_id Event.id id r then f r else r) (events db).

(** A change set that leaves the key and the sized columns alone. *)
Definition plain (data : Changes.t) : Prop :=
  Changes.id data = None
  /\ Changes.name data = None
  /\ Changes.location data = None.

(** The change set of [update(id, { status })]. *)
Definition status_only (s : EventStatus) : Changes.t :=
  Changes.mk None None None (Some s) None None None None None None None.

(** ** Sample data

    Rows in the style of the seed migration, used to run the model. *)

Definition sample_env : Env := mkEnv 1736500000000 "e-new" "n-new".

Definition tech_conference : Event.t :=
  Event.mk "e1" "Tech Conference" (Some "Yearly conference") published
    1734253200000 (Some 1734458400000) (Some "San Francisco")
    (Some ["technology"; "networking"]) 3 1730000000000 1730000000000.

Definition sales_kickoff : Event.t :=
  Event.mk "e2" "Sales Kickoff" None draft
    1736330400000 (Some 1736348400000) (Some "Headquarters")
    (Some ["sales"; "quarterly"]) 0 1730000000000 1730000000000.

Definition internship : Event.t :=
  Event.mk "e3" "Summer Internship" None archived
    1685610000000 None None None 0 1680000000000 1680000000000.

Definition speaker_confirmed : Notification.t :=
  Notification.mk "n1" "e1" "Speaker Confirmed" (Some "Keynote confirmed") 0
    1729900000000.

Definition registration_milestone : Notification.t :=
  Notification.mk "n2" "e1" "Registration Milestone" None 1 1729800000000.

Definition agenda_draft : Notification.t :=
  Notification.mk "n3" "e2" "Agenda Draft" None 0 1729950000000.

Definition sample_db : Db :=
  mkDb [tech_conference; sales_kickoff; internship]
       [speaker_confirmed; registration_milestone; agenda_draft] 0.

(** The primary key of [events]. *)
Definition keys_ok (db : Db) : Prop := NoDup (map Event.id (events db)).

(** [{ ...changes, updatedAt: new Date() }] *)
Definition stamped (env : Env) (changes : Changes.t) : Changes.t :=
  Changes.mk (Changes.id changes) (Changes.name changes)
    (Changes.description changes) (Changes.status changes)
    (Changes.startDate changes) (Changes.endDate changes)
    (Changes.location changes) (Changes.tags changes)
    (Changes.notificationCount changes) (Changes.createdAt changes)
    (Some (now env)).

(** The dates [update] validates: [changes.startDate || existing.startDate]
    and [changes.endDate || existing.endDate]. *)
Definition effective_start (changes : Changes.t) (existing : Event.t) : Date :=
  match Changes.startDate changes with
  | Some d => d
  | None => Event.startDate existing
  end.

Definition effective_end (changes : Changes.t) (existing : Event.t)
  : option Date :=
  match Changes.endDate changes with
  | Some (Some d) => Some d
  | _ => Event.endDate existing
  end.

(** The notification of a significant update. *)
Definition update_notification (env : Env) (id : uuid) : Notification.t :=
  lifecycle_notification env id "Event Updated" "Event has been updated".

(** The first step of [update]: the dates are read back and validated
    when the change set carries one. *)
Definition date_check (id : uuid) (changes : Changes.t) : M unit :=
  if EventService.carries_date changes
  then
    existing <- EventRepository.findById id ;;
    existing <- assertExists EventService.entityName existing ;;
    EventService.validateEventDates
      (effective_start changes existing) (effective_end changes existing)
  else ret tt.

(** The last step of [update]. *)
Definition notify_update (env : Env) (id : uuid) (changes : Changes.t) : M unit :=
  if EventService.significant changes
  then
    NotificationRepository.create env
      (NewNotification.mk None id "Event Updated"
         (Some "Event has been updated") None None) ;;;
    ret tt
  else ret tt.




Definition rename_to_empty : Changes.t :=
  Changes.mk None (Some EmptyString) None None None None None None None None
    None.

Definition relocate : Changes.t :=
  Changes.mk None None None None None None (Some (Some "Lisbon")) None None
    None None.


(** What [markAllAsReadForEvent] does to one row. *)
Definition mark_for (eventId : uuid) (n : Notification.t) : Notification.t :=
  if String.eqb (Notification.eventId n) eventId
  then NotificationRepository.set_read n
  else n.

(** The notifications of an event that are not read yet, in the sense
    of [markAsRead] ([isRead === 1] is read). *)
Definition unread_of (db : Db) (eventId : uuid) : list Notification.t :=
  filter (fun n => String.eqb (Notification.eventId n) eventId
                   && negb (Notification.isRead n =? 1))
         (notifications db).

(** The row [duplicate] inserts for the source row [e]. *)
Definition copy_of (env : Env) (e : Event.t) : Event.t :=
  Event.mk (uuid_event env) (Event.name e ++ " (Copy)") (Event.description e)
    draft (Event.startDate e) (Event.endDate e) (Event.location e)
    (Event.tags e) 0 (now env) (now env).

(** An event whose name uses 249 of the 255 characters of the column. *)
Definition long_name : string :=
  String.concat EmptyString (repeat "x" 249).

Definition long_named : Event.t :=
  Event.mk "e9" long_name None published 1734253200000 None None None 0
    1730000000000 1730000000000.

Definition long_db : Db := mkDb [long_named] [] 0.

(** ** The list contract in the words of the specification *)










(** ** Integrity of the database *)

(** What the schema and the services maintain: unique event keys, valid
    references, ordered dates, texts that fit their columns. *)
Definition well_formed (db : Db) : Prop :=
  keys_ok db
  /\ references_ok db
  /\ Forall dates_ok (events db)
  /\ Forall row_fits (events db).

(** The dates of an insert are in order. *)
Definition new_dates_ok (data : NewEvent.t) : Prop :=
  match NewEvent.endDate data with
  | Some d => NewEvent.startDate data < d
  | None => True
  end.

(** [m], started in a database satisfying [P], ends, by return or by
    throw, in a database satisfying [Q]. *)
Definition triple {A} (P : Db -> Prop) (m : M A)
    (Q : Outcome A -> Db -> Prop) : Prop :=
  forall db db' r, P db -> m db = (db', r) -> Q r db'.

(** The calls a client can make on the two services. *)
Inductive Call : Type :=
| CreateEvent (env : Env) (data : NewEvent.t)
| UpdateEvent (env : Env) (id : uuid) (changes : Changes.t)
| RemoveEvent (id : uuid)
| PublishEvent (env : Env) (id : uuid)
| ArchiveEvent (env : Env) (id : uuid)
| DuplicateEvent (env : Env) (id : uuid)
| CreateEventNotification (env : Env) (eventId : uuid)
    (title message type : string)
| MarkAsRead (id : uuid)
| MarkAllReadForEvent (eventId : uuid).

(** The database a call leaves, whether it returns or throws. *)
Definition run (c : Call) (db : Db) : Db :=
  match c with
  | CreateEvent env data => fst (EventService.create env data db)
  | UpdateEvent env id changes => fst (EventService.update env id changes db)
  | RemoveEvent id => fst (EventService.remove id db)
  | PublishEvent env id => fst (EventService.publish env id db)
  | ArchiveEvent env id => fst (EventService.archive env id db)
  | DuplicateEvent env id => fst (EventService.duplicate env id db)
  | CreateEventNotification env eventId title message type =>
      fst (NotificationService.createEventNotification env eventId title
             message type db)
  | MarkAsRead id => fst (NotificationService.markAsRead id db)
  | MarkAllReadForEvent eventId =>
      fst (NotificationService.markAllReadForEvent eventId db)
  end.

(** The databases that service calls build from empty tables. *)
Inductive reachable : Db -> Prop :=
| reachable_empty : reachable (mkDb [] [] 0)
| reachable_run (c : Call) (db : Db) :
    reachable db -> reachable (run c db).

(** One step of a method: the database after [m], and what [m] gave. *)
Ltac step Hrun db1 a Hm :=
  cbv beta iota in Hrun;
  unfold bind at 1 in Hrun;
  match type of Hrun with
  | (let (_, _) := ?m ?db in _) = _ =>
      destruct (m db) as [db1 [a|?x]] eqn:Hm;
      [|inversion Hrun; subst; clear Hrun]
  end.

(** ** Vocabulary of the further properties *)

(** ** Cancelling an event *)

(** The notification [cancelEvent] records for a reason. *)
Definition cancellation_notification (env : Env) (eventId : uuid)
    (r : string) : Notification.t :=
  lifecycle_notification env eventId "Event Cancelled"
    ("Event was cancelled. Reason: " ++ r).

(** The reason of a cancellation, when one is given and not empty. *)
Definition stated_reason (body : option OpenAPIServiceHandlers.CancelBody)
  : option string :=
  given (match body with
         | Some b => OpenAPIServiceHandlers.reason b
         | None => None
         end).

(** ** Duplicating with overrides *)

(** What [duplicateEvent] makes of the copy when the body overrides
    something: the keys of the body that are present replace the
    columns, and the row is stamped again. *)
Definition overridden (env' : Env) (body : option OpenAPIServiceHandlers.DuplicateBody)
    (copy : Event.t) : Event.t :=
  match body with
  | Some b =>
      if OpenAPIServiceHandlers.has_overrides body
      then EventRepository.set_columns
             (stamped env' (OpenAPIServiceHandlers.overrides b)) copy
      else copy
  | None => copy
  end.

(** The name of the body is given and not empty. *)
Definition renames (body : option OpenAPIServiceHandlers.DuplicateBody) : bool :=
  match body with
  | Some b =>
      match given (OpenAPIServiceHandlers.name b) with
      | Some _ => true
      | None => false
      end
  | None => false
  end.

(** The name of the body, when it has one, fits the column. *)
Definition body_fits (body : option OpenAPIServiceHandlers.DuplicateBody) : Prop :=
  match body with
  | Some b =>
      match OpenAPIServiceHandlers.name b with
      | Some n => (String.length n <= 255)%nat
      | None => True
      end
  | None => True
  end.

Definition rebrand : OpenAPIServiceHandlers.DuplicateBody :=
  OpenAPIServiceHandlers.mkDuplicateBody (Some "Tech Conference 2026") None.

(** The name and the tags the copy ends with: those of the body where
    it overrides, else the ones [duplicate] wrote. *)
Definition override_name (body : option OpenAPIServiceHandlers.DuplicateBody)
    (written : string) : string :=
  match body with
  | Some b =>
      if OpenAPIServiceHandlers.has_overrides body
      then match OpenAPIServiceHandlers.name b with
           | Some n => n
           | None => written
           end
      else written
  | None => written
  end.

Definition override_tags (body : option OpenAPIServiceHandlers.DuplicateBody)
    (written : option (list string)) : option (list string) :=
  match body with
  | Some b =>
      if OpenAPIServiceHandlers.has_overrides body
      then match OpenAPIServiceHandlers.tags b with
           | Some t => Some t
           | None => written
           end
      else written
  | None => written
  end.

(** ** Quick actions *)



(** ** Listing and notification counts *)

(** The row [create] stores for [data] when the database draws the key. *)
Definition created_row (env : Env) (data : NewEvent.t) : Event.t :=
  Event.mk (uuid_event env) (NewEvent.name data) (NewEvent.description data)
    (match NewEvent.status data with Some s => s | None => draft end)
    (NewEvent.startDate data) (NewEvent.endDate data)
    (NewEvent.location data) (NewEvent.tags data)
    (match NewEvent.notificationCount data with Some c => c | None => 0 end)
    (match NewEvent.createdAt data with Some d => d | None => now env end)
    (now env).

(** Data that [create] accepts and the tables can store. *)
Definition storable (data : NewEvent.t) : Prop :=
  new_dates_ok data
  /\ (String.length (NewEvent.name data) <= 255)%nat
  /\ match NewEvent.location data with
     | Some l => (String.length l <= 255)%nat
     | None => True
     end
  /\ NewEvent.id data = None.


Definition kickoff : NewEvent.t :=
  NewEvent.mk None "Kickoff" None None 1736467200000 (Some 1736553600000) None
    None None None None.

(** ** Notifications of an event *)


(** The rows of an event that the unread queries select: [is_read = 0]. *)
Definition unread_rows (db : Db) (eventId : uuid) : list Notification.t :=
  filter (fun n => String.eqb (Notification.eventId n) eventId
                   && (Notification.isRead n =? 0))
         (notifications db).

(** ** Creating, reading and removing notifications *)

(** The primary key of [notifications]. *)
Definition notification_keys_ok (db : Db) : Prop :=
  NoDup (map Notification.id (notifications db)).



(** ** Upcoming events *)

(** The start date lies between the clock and the end of the window of
    [getUpcomingEvents]. *)
Definition upcoming (env : Env) (e : Event.t) : Prop :=
  now env <= Event.startDate e <= 4102358400000.

(** ** The lifecycle without the generic update *)

(** The order of the lifecycle: draft, then published, then archived. *)
Definition rank (s : EventStatus) : nat :=
  match s with
  | draft => 0
  | published => 1
  | archived => 2
  end.

(** The calls other than the generic [update] and the hard delete. *)
Definition lifecycle_only (c : Call) : Prop :=
  match c with
  | UpdateEvent _ _ _ | RemoveEvent _ => False
  | _ => True
  end.

(** A sequence of calls, each started where the one before ended. *)
Fixpoint runs (calls : list Call) (db : Db) : Db :=
  match calls with
  | [] => db
  | c :: rest => runs rest (run c db)
  end.

(** [e'] is [e], or [e] after one of the two guarded transitions. *)
Definition moved_forward (e e' : Event.t) : Prop :=
  e' = e
  \/ (Event.status e = draft
      /\ exists at_, e' = with_status published at_ e)
  \/ (Event.status e <> archived
      /\ exists at_, e' = with_status archived at_ e).

(** ** Lifecycle notifications *)

(** The notification [createLifecycleNotification] composes. *)
Definition composed (env : Env) (eventId : uuid) (eventName : string)
    (action : NotificationService.LifecycleAction) : Notification.t :=
  lifecycle_notification env eventId (NotificationService.titles action)
    (NotificationService.messages eventName action).

(** ** Events with unread notifications *)


(** ** Integrity under the handlers *)

(** The requests the handlers serve. *)
Inductive Request : Type :=
| ListEvents (query : OpenAPIServiceHandlers.ListQuery)
| GetEvent (eventId : uuid)
| UpdateEventBy (env : Env) (eventId : uuid) (body : Changes.t)
| DeleteEvent (env : Env) (eventId : uuid)
    (permanent : option OpenAPIServiceHandlers.QueryValue)
| DuplicateEventBy (env env' : Env) (eventId : uuid)
    (body : option OpenAPIServiceHandlers.DuplicateBody)
| CancelEvent (env env' : Env) (eventId : uuid)
    (body : option OpenAPIServiceHandlers.CancelBody)
| EventQuickAction (env : Env) (eventId : uuid)
    (body : OpenAPIServiceHandlers.QuickActionBody)
| GetEventNotifications (eventId : uuid)
| MarkNotificationRead (notificationId : uuid)
| MarkAllNotificationsRead (eventId : uuid).

(** The database a request leaves, whether its handler returns or
    throws. *)
Definition serve (r : Request) (db : Db) : Db :=
  match r with
  | ListEvents query => fst (OpenAPIServiceHandlers.listEvents query db)
  | GetEvent eventId => fst (OpenAPIServiceHandlers.getEvent eventId db)
  | UpdateEventBy env eventId body =>
      fst (OpenAPIServiceHandlers.updateEvent env eventId body db)
  | DeleteEvent env eventId permanent =>
      fst (OpenAPIServiceHandlers.deleteEvent eventId permanent env db)
  | DuplicateEventBy env env' eventId body =>
      fst (OpenAPIServiceHandlers.duplicateEvent env env' eventId body db)
  | CancelEvent env env' eventId body =>
      fst (OpenAPIServiceHandlers.cancelEvent env env' eventId body db)
  | EventQuickAction env eventId body =>
      fst (OpenAPIServiceHandlers.eventQuickAction env eventId body db)
  | GetEventNotifications eventId =>
      fst (OpenAPIServiceHandlers.getEventNotifications eventId db)
  | MarkNotificationRead notificationId =>
      fst (OpenAPIServiceHandlers.markNotificationRead notificationId db)
  | MarkAllNotificationsRead eventId =>
      fst (OpenAPIServiceHandlers.markAllNotificationsRead eventId db)
  end.

(** A sequence of requests, served one after the other. *)
Fixpoint serve_all (requests : list Request) (db : Db) : Db :=
  match requests with
  | [] => db
  | r :: rest => serve_all rest (serve r db)
  end.

(** [m] leaves a database as the predicate wants it, on return and on
    throw. *)
Definition keeps {A} (P : Db -> Prop) (m : M A) : Prop :=
  triple P m (fun _ db => P db).

(** Both tables are empty. *)
Definition empty_tables (db : Db) : Prop :=
  events db = [] /\ notifications db = [].

(** ** The store of the events page *)

(** What a user does on the events page: the handlers of [EventFilters]
    and the paging, sorting and selection actions of the store. *)
Inductive Action : Type :=
| TypeSearch (query : string)
| ChangeStatus (value : string)
| SelectTag (tag : string)
| RemoveTag (tag : string)
| ClearFilters
| GoToPage (page : number)
| ChangePageSize (size : number)
| Sort (field : string) (order : EventsStore.SortOrder)
| ToggleEvent (eventId : string)
| ClearSelection.

Definition act (a : Action) (s : EventsStore.EventsState)
  : EventsStore.EventsState :=
  match a with
  | TypeSearch query => EventsStore.setSearchQuery query s
  | ChangeStatus value => EventFilters.handleStatusChange value s
  | SelectTag tag => EventFilters.handleTagSelect tag s
  | RemoveTag tag => EventFilters.handleTagRemove tag s
  | ClearFilters => EventFilters.handleClearFilters s
  | GoToPage page => EventsStore.setCurrentPage page s
  | ChangePageSize size => EventsStore.setPageSize size s
  | Sort field order => EventsStore.setSorting field order s
  | ToggleEvent eventId => EventsStore.selectEvent eventId s
  | ClearSelection => EventsStore.clearSelection s
  end.

Fixpoint act_all (actions : list Action) (s : EventsStore.EventsState)
  : EventsStore.EventsState :=
  match actions with
  | [] => s
  | a :: rest => act_all rest (act a s)
  end.

(** The action changes what is listed: a filter, the page size or the
    sort order. *)
Definition relists (a : Action) (s : EventsStore.EventsState) : Prop :=
  match a with
  | TypeSearch _ | ChangeStatus _ | RemoveTag _ | ClearFilters
  | ChangePageSize _ | Sort _ _ => True
  | SelectTag tag => ~ In tag (EventsStore.selectedTags s)
  | GoToPage _ | ToggleEvent _ | ClearSelection => False
  end.

(** What the actions maintain. *)
Definition tidy (s : EventsStore.EventsState) : Prop :=
  NoDup (EventsStore.selectedTags s)
  /\ NoDup (EventsStore.selectedEventIds s)
  /\ EventsStore.selectedStatus s <> Some "all"
  /\ EventFilters.hasActiveFilters s = EventsStore.useHasFilters s.

(** ** Defaults of the listing *)



(** ** Routes, the client and the page *)

(** The operation whose handler serves a request; the notification
    handlers have none. *)
Definition operation (r : Request) : option Paths.Operation :=
  match r with
  | ListEvents _ => Some Paths.listEvents
  | GetEvent _ => Some Paths.getEvent
  | UpdateEventBy _ _ _ => Some Paths.updateEvent
  | DeleteEvent _ _ _ => Some Paths.deleteEvent
  | DuplicateEventBy _ _ _ _ => Some Paths.duplicateEvent
  | CancelEvent _ _ _ _ => Some Paths.cancelEvent
  | EventQuickAction _ _ _ => Some Paths.eventQuickAction
  | GetEventNotifications _ | MarkNotificationRead _
  | MarkAllNotificationsRead _ => None
  end.

(** The request can come in over a route of [paths]. *)
Definition routed (r : Request) : Prop :=
  exists path method,
    Paths.operations path method <> None
    /\ Paths.operations path method = operation r.

(** The value of a key of a query string. *)
Definition lookup (key : string) (query : list (string * string))
  : option string :=
  option_map snd (find (fun kv => String.eqb (fst kv) key) query).

(** The request the server gets for a call of the client: the handler
    of the operation, with the path parameter, the query and the body
    of the call.  The client sends no body to [duplicateEvent] and has
    no function for [cancelEvent] and [eventQuickAction]. *)
Definition received (env env' : Env) (call : Api.Call) : option Request :=
  match Paths.operations (Api.path call) (Api.method call),
        Api.eventId call with
  | Some Paths.listEvents, _ =>
      Some (ListEvents
              (OpenAPIServiceHandlers.mkListQuery
                 (lookup "page" (Api.query call))
                 (lookup "pageSize" (Api.query call))
                 (lookup "q" (Api.query call))
                 (lookup "status" (Api.query call))
                 (lookup "tag" (Api.query call))))
  | Some Paths.getEvent, Some id => Some (GetEvent id)
  | Some Paths.updateEvent, Some id =>
      option_map (UpdateEventBy env id) (Api.body call)
  | Some Paths.deleteEvent, Some id =>
      Some (DeleteEvent env id
              (option_map OpenAPIServiceHandlers.QString
                 (lookup "permanent" (Api.query call))))
  | Some Paths.duplicateEvent, Some id =>
      Some (DuplicateEventBy env env' id None)
  | _, _ => None
  end.


(** The calls the functions of the client make. *)
Inductive client_call : Api.Call -> Prop :=
| call_getEvents (params : Api.GetEventsParams.t) :
    client_call (Api.getEvents params)
| call_getEvent (id : string) : client_call (Api.getEvent id)
| call_createEvent (eventData : Api.EventData.t) :
    client_call (Api.createEvent eventData)
| call_updateEvent (id : string) (eventData : Changes.t) :
    client_call (Api.updateEvent id eventData)
| call_deleteEvent (id : string) : client_call (Api.deleteEvent id)
| call_duplicateEvent (id : string) : client_call (Api.duplicateEvent id).




(* ================================================================== *)
(** * Lemmas on the repositories *)
(* ================================================================== *)

Section BaseRepositoryFacts.

Context {Row : Type}.
Variable row_id : Row -> uuid.

Lemma select_by_id_key (rows : list Row) (id : uuid) (r : Row) :
  select_by_id row_id rows id = Some r -> row_id r = id.
Proof.
  unfold select_by_id. intros H.
  apply find_some in H. destruct H as [_ H].
  unfold has_id in H. now apply String.eqb_eq in H.
Qed.

Lemma select_by_id_in (rows : list Row) (id : uuid) (r : Row) :
  select_by_id row_id rows id = Some r -> In r rows.
Proof.
  unfold select_by_id. intros H. now apply find_some in H.
Qed.

Lemma select_by_id_existsb (rows : list Row) (id : uuid) :
  existsb (has_id row_id id) rows
  = match select_by_id row_id rows id with Some _ => true | None => false end.
Proof.
  unfold select_by_id.
  induction rows as [|r rows IH]; simpl; [reflexivity|].
  destruct (has_id row_id id r); simpl; [reflexivity|exact IH].
Qed.

Lemma select_by_id_found (rows : list Row) (id : uuid) (r : Row) :
  select_by_id row_id rows id = Some r ->
  existsb (has_id row_id id) rows = true.
Proof.
  intros H. rewrite select_by_id_existsb, H. reflexivity.
Qed.

Lemma returning_head (set : Row -> Row) (rows : list Row) (id : uuid) :
  hd_error (map set (filter (has_id row_id id) rows))
  = option_map set (select_by_id row_id rows id).
Proof.
  unfold select_by_id.
  induction rows as [|r rows IH]; simpl; [reflexivity|].
  destruct (has_id row_id id r); simpl; [reflexivity|exact IH].
Qed.

Section KeyPreserved.

Variable set : Row -> Row.
Hypothesis set_key : forall r, row_id (set r) = row_id r.

Lemma has_id_rewritten (id id' : uuid) (r : Row) :
  has_id row_id id' (if has_id row_id id r then set r else r)
  = has_id row_id id' r.
Proof.
  destruct (has_id row_id id r); [|reflexivity].
  unfold has_id. now rewrite set_key.
Qed.

Lemma select_rewritten (rows : list Row) (id id' : uuid) :
  select_by_id row_id
    (map (fun r => if has_id row_id id r then set r else r) rows) id'
  = option_map (fun r => if has_id row_id id r then set r else r)
      (select_by_id row_id rows id').
Proof.
  unfold select_by_id.
  induction rows as [|r rows IH]; simpl; [reflexivity|].
  rewrite has_id_rewritten.
  destruct (has_id row_id id' r); simpl; [reflexivity|exact IH].
Qed.

Lemma existsb_rewritten (rows : list Row) (id id' : uuid) :
  existsb (has_id row_id id')
    (map (fun r => if has_id row_id id r then set r else r) rows)
  = existsb (has_id row_id id') rows.
Proof.
  rewrite !select_by_id_existsb, select_rewritten.
  now destruct (select_by_id row_id rows id').
Qed.

End KeyPreserved.

End BaseRepositoryFacts.

(** ** Writes of the lifecycle methods *)

Lemma set_columns_key (data : Changes.t) (e : Event.t) :
  Changes.id data = None ->
  Event.id (EventRepository.set_columns data e) = Event.id e.
Proof. intros H. unfold EventRepository.set_columns. simpl. now rewrite H. Qed.

Lemma update_plain (id : uuid) (data : Changes.t) (db : Db) :
  plain data ->
  EventRepository.update id data db
  = (mkDb (rewrite_events (EventRepository.set_columns data) id db)
          (notifications db) (S (writes db)),
     Ok (option_map (EventRepository.set_columns data) (find_event db id))).
Proof.
  intros (Hid & Hname & Hloc).
  unfold EventRepository.update, EventRepository.coerce,
    EventRepository.rekeys.
  destruct data as [i n d s sd ed l t c ca ua]; simpl in *; subst.
  unfold update_where_id, rewrite_events, find_event.
  now rewrite returning_head.
Qed.

Lemma notification_create (env : Env) (eventId : uuid)
    (title : string) (message : option string) (db : Db) :
  varchar 255 title = Some title ->
  fresh_notification_id env db ->
  existsb (has_id Event.id eventId) (events db) = true ->
  NotificationRepository.create env
    (NewNotification.mk None eventId title message None None) db
  = (mkDb (events db)
          (notifications db
           ++ [Notification.mk (uuid_notification env) eventId title message 0
                 (now env)])
          (S (writes db)),
     Ok (Notification.mk (uuid_notification env) eventId title message 0
           (now env))).
Proof.
  intros Htitle Hfresh Hevent.
  unfold NotificationRepository.create, bind, NotificationRepository.insert.
  simpl. unfold fresh_notification_id in Hfresh.
  now rewrite Htitle, Hfresh, Hevent.
Qed.

Lemma rewrite_events_exists (f : Event.t -> Event.t) (id id' : uuid) (db : Db) :
  (forall r, Event.id (f r) = Event.id r) ->
  existsb (has_id Event.id id') (rewrite_events f id db)
  = existsb (has_id Event.id id') (events db).
Proof. intros Hf. unfold rewrite_events. now apply existsb_rewritten. Qed.

Lemma rewrite_events_find (f : Event.t -> Event.t) (id id' : uuid) (db : Db) :
  (forall r, Event.id (f r) = Event.id r) ->
  select_by_id Event.id (rewrite_events f id db) id'
  = option_map (fun r => if has_id Event.id id r then f r else r)
      (find_event db id').
Proof. intros Hf. unfold rewrite_events, find_event. now apply select_rewritten. Qed.

(** ** [publish] and [archive], case by case *)


Lemma publish_refused (env : Env) (id : uuid) (db : Db) (e : Event.t) :
  find_event db id = Some e ->
  Event.status e <> draft ->
  EventService.publish env id db
  = (db, Throw (Error "Only draft events can be published")).
Proof.
  intros Hfind Hstatus. unfold EventService.publish, bind, EventRepository.findById.
  unfold find_event in Hfind. rewrite Hfind. simpl.
  destruct (Event.status e); simpl; congruence.
Qed.

Lemma publish_draft (env : Env) (id : uuid) (db : Db) (e : Event.t) :
  find_event db id = Some e ->
  Event.status e = draft ->
  fresh_notification_id env db ->
  EventService.publish env id db
  = (mkDb (rewrite_events (with_status published (now env)) id db)
          (notifications db
           ++ [lifecycle_notification env id "Event Published"
                 ("Event " ++ dquote ++ Event.name e ++ dquote
                  ++ " has been published")])
          (S (S (writes db))),
     Ok (Some (with_status published (now env) e))).
Proof.
  intros Hfind Hstatus Hfresh.
  unfold EventService.publish, bind at 1 2 3, EventRepository.findById.
  pose proof Hfind as Hsel. unfold find_event in Hsel. rewrite Hsel. simpl.
  rewrite Hstatus. simpl. unfold bind at 1.
  rewrite update_plain by (repeat split; reflexivity).
  unfold bind. rewrite notification_create.
  - simpl. rewrite Hfind. reflexivity.
  - reflexivity.
  - exact Hfresh.
  - simpl. rewrite rewrite_events_exists by reflexivity.
    now apply select_by_id_found with (r := e).
Qed.

Lemma archive_missing (env : Env) (id : uuid) (db : Db) :
  find_event db id = None ->
  EventService.archive env id db = (db, Throw (Error "Event not found")).
Proof.
  intros Hfind. unfold EventService.archive, bind, EventRepository.findById.
  unfold find_event in Hfind. now rewrite Hfind.
Qed.

Lemma archive_refused (env : Env) (id : uuid) (db : Db) (e : Event.t) :
  find_event db id = Some e ->
  Event.status e = archived ->
  EventService.archive env id db
  = (db, Throw (Error "Event is already archived")).
Proof.
  intros Hfind Hstatus. unfold EventService.archive, bind, EventRepository.findById.
  unfold find_event in Hfind. rewrite Hfind. simpl.
  now rewrite Hstatus.
Qed.

Lemma archive_live (env : Env) (id : uuid) (db : Db) (e : Event.t) :
  find_event db id = Some e ->
  Event.status e <> archived ->
  fresh_notification_id env db ->
  EventService.archive env id db
  = (mkDb (rewrite_events (with_status archived (now env)) id db)
          (notifications db
           ++ [lifecycle_notification env id "Event Archived"
                 ("Event " ++ dquote ++ Event.name e ++ dquote
                  ++ " has been archived")])
          (S (S (writes db))),
     Ok (Some (with_status archived (now env) e))).
Proof.
  intros Hfind Hstatus Hfresh.
  unfold EventService.archive, bind at 1 2 3, EventRepository.findById.
  pose proof Hfind as Hsel. unfold find_event in Hsel. rewrite Hsel. simpl.
  assert (Hlive : status_eqb (Event.status e) archived = false)
    by (destruct (Event.status e); simpl; congruence).
  rewrite Hlive. simpl. unfold bind at 1.
  rewrite update_plain by (repeat split; reflexivity).
  unfold bind. rewrite notification_create.
  - simpl. rewrite Hfind. reflexivity.
  - reflexivity.
  - exact Hfresh.
  - simpl. rewrite rewrite_events_exists by reflexivity.
    now apply select_by_id_found with (r := e).
Qed.

(** Looking up rows after a lifecycle write. *)
Lemma find_rewritten_same (f : Event.t -> Event.t) (id : uuid) (db : Db)
    (e : Event.t) (notifs : list Notification.t) (w : nat) :
  (forall r, Event.id (f r) = Event.id r) ->
  find_event db id = Some e ->
  find_event (mkDb (rewrite_events f id db) notifs w) id = Some (f e).
Proof.
  intros Hf Hfind. unfold find_event at 1. simpl.
  rewrite rewrite_events_find by exact Hf. rewrite Hfind. simpl.
  apply select_by_id_key in Hfind.
  unfold has_id. rewrite Hfind, String.eqb_refl. reflexivity.
Qed.

Lemma find_rewritten_other (f : Event.t -> Event.t) (id id' : uuid) (db : Db)
    (notifs : list Notification.t) (w : nat) :
  (forall r, Event.id (f r) = Event.id r) ->
  id' <> id ->
  find_event (mkDb (rewrite_events f id db) notifs w) id' = find_event db id'.
Proof.
  intros Hf Hne. unfold find_event at 1. simpl.
  rewrite rewrite_events_find by exact Hf.
  destruct (find_event db id') as [r|] eqn:Hfind; [|reflexivity].
  simpl. apply select_by_id_key in Hfind.
  unfold has_id. rewrite Hfind.
  apply String.eqb_neq in Hne. now rewrite Hne.
Qed.

(** ** [create] and [update], step by step *)

Lemma repo_update_throw (id : uuid) (data : Changes.t) (db db1 : Db) (x : Exn) :
  EventRepository.update id data db = (db1, Throw x) -> db1 = db.
Proof.
  unfold EventRepository.update.
  destruct (EventRepository.coerce data) as [data'|]; [|congruence].
  destruct (EventRepository.rekeys id data' db) as [id'|].
  - destruct (existsb _ (events db)); [congruence|].
    destruct (existsb _ (notifications db)); [congruence|].
    unfold update_where_id. congruence.
  - unfold update_where_id. congruence.
Qed.

Lemma repo_update_ok (id : uuid) (data : Changes.t) (db db1 : Db)
    (r : option Event.t) :
  EventRepository.update id data db = (db1, Ok r) ->
  exists data',
    EventRepository.coerce data = Some data'
    /\ db1 = mkDb (rewrite_events (EventRepository.set_columns data') id db)
               (notifications db) (S (writes db))
    /\ r = option_map (EventRepository.set_columns data') (find_event db id).
Proof.
  unfold EventRepository.update.
  destruct (EventRepository.coerce data) as [data'|]; [|congruence].
  intros H. exists data'. split; [reflexivity|].
  assert (Hrun :
    (let '(rows, results) :=
       update_where_id Event.id (EventRepository.set_columns data') (events db) id in
     (mkDb rows (notifications db) (S (writes db)), Ok (hd_error results)))
    = (db1, Ok r)).
  { destruct (EventRepository.rekeys id data' db) as [id'|]; [|exact H].
    destruct (existsb _ (events db)); [congruence|].
    destruct (existsb _ (notifications db)); [congruence|exact H]. }
  unfold update_where_id in Hrun. rewrite returning_head in Hrun.
  inversion Hrun. split; reflexivity.
Qed.

Lemma notification_create_ok (env : Env) (eventId : uuid) (title : string)
    (message : option string) (db db1 : Db) (n : Notification.t) :
  varchar 255 title = Some title ->
  NotificationRepository.create env
    (NewNotification.mk None eventId title message None None) db
  = (db1, Ok n) ->
  n = Notification.mk (uuid_notification env) eventId title message 0 (now env)
  /\ db1 = mkDb (events db) (notifications db ++ [n]) (S (writes db))
  /\ fresh_notification_id env db
  /\ existsb (has_id Event.id eventId) (events db) = true.
Proof.
  intros Htitle.
  unfold NotificationRepository.create, bind, NotificationRepository.insert.
  simpl. rewrite Htitle. unfold fresh_notification_id.
  destruct (existsb _ (notifications db)); [simpl; congruence|].
  destruct (existsb _ (events db)); simpl; [|congruence].
  unfold ret. intros H. inversion H. subst. auto.
Qed.

Lemma coerce_dates (data data' : Changes.t) :
  EventRepository.coerce data = Some data' ->
  Changes.id data' = Changes.id data
  /\ Changes.status data' = Changes.status data
  /\ Changes.startDate data' = Changes.startDate data
  /\ Changes.endDate data' = Changes.endDate data
  /\ Changes.updatedAt data' = Changes.updatedAt data.
Proof.
  unfold EventRepository.coerce.
  destruct (match Changes.name data with Some _ => _ | None => _ end);
    [|congruence].
  destruct (match Changes.location data with Some _ => _ | None => _ end);
    [|congruence].
  intros H. inversion H. simpl. auto.
Qed.


Lemma update_steps (env : Env) (id : uuid) (changes : Changes.t) :
  EventService.update env id changes
  = (validate ;;;
     date_check id changes ;;;
     updated <- EventRepository.update id (stamped env changes) ;;
     updated <- assertExists EventService.entityName updated ;;
     notify_update env id changes ;;;
     ret (formatForResponse updated)).
Proof. reflexivity. Qed.

Lemma date_check_run (id : uuid) (changes : Changes.t) (db : Db) :
  date_check id changes db
  = (db,
     if EventService.carries_date changes
     then match find_event db id with
          | None => Throw (Error "Event not found")
          | Some e =>
              match effective_end changes e with
              | Some d =>
                  if d <=? effective_start changes e
                  then Throw (Error "End date must be after start date")
                  else Ok tt
              | None => Ok tt
              end
          end
     else Ok tt).
Proof.
  unfold date_check. destruct (EventService.carries_date changes); [|reflexivity].
  unfold bind, EventRepository.findById. fold (find_event db id).
  destruct (find_event db id) as [e|]; simpl; [|reflexivity].
  unfold EventService.validateEventDates.
  destruct (effective_end changes e) as [d|]; [|reflexivity].
  now destruct (d <=? effective_start changes e).
Qed.

Lemma notify_update_run (env : Env) (id : uuid) (changes : Changes.t)
    (db db' : Db) (u : unit) :
  notify_update env id changes db = (db', Ok u) ->
  db' = (if EventService.significant changes
         then mkDb (events db) (notifications db ++ [update_notification env id])
                   (S (writes db))
         else db)
  /\ (EventService.significant changes = true ->
      fresh_notification_id env db
      /\ existsb (has_id Event.id id) (events db) = true).
Proof.
  unfold notify_update.
  destruct (EventService.significant changes).
  - unfold bind.
    destruct (NotificationRepository.create env _ db) as [db1 [n|x]] eqn:Hrun;
      [|discriminate].
    apply notification_create_ok in Hrun; [|reflexivity].
    destruct Hrun as (Hn & Hdb & Hfresh & Hev).
    unfold ret. intros H. inversion H. subst. auto.
  - unfold ret. intros H. inversion H. split; [reflexivity|discriminate].
Qed.

Lemma update_ok_inv (env : Env) (id : uuid) (changes : Changes.t)
    (db db' : Db) (e' : Event.t) :
  EventService.update env id changes db = (db', Ok e') ->
  exists e data',
    find_event db id = Some e
    /\ EventRepository.coerce (stamped env changes) = Some data'
    /\ e' = EventRepository.set_columns data' e
    /\ events db' = rewrite_events (EventRepository.set_columns data') id db
    /\ (EventService.carries_date changes = true ->
        match effective_end changes e with
        | Some d => effective_start changes e < d
        | None => True
        end)
    /\ notifications db'
       = (notifications db
          ++ if EventService.significant changes
             then [update_notification env id]
             else [])%list.
Proof.
  rewrite update_steps. unfold bind at 1 2. unfold validate, ret at 1.
  rewrite date_check_run.
  set (check := if EventService.carries_date changes then _ else _).
  destruct check as [[]|x] eqn:Hcheck; [|discriminate].
  unfold bind at 1.
  destruct (EventRepository.update id (stamped env changes) db)
    as [db1 [r|x]] eqn:Hupd; [|discriminate].
  apply repo_update_ok in Hupd. destruct Hupd as (data' & Hco & Hdb1 & Hr).
  unfold bind at 1.
  destruct (find_event db id) as [e|] eqn:Hfind; subst r; simpl;
    [|discriminate].
  unfold bind.
  destruct (notify_update env id changes db1) as [db2 [u|x]] eqn:Hnot;
    [|discriminate].
  apply notify_update_run in Hnot. destruct Hnot as [Hdb2 _].
  unfold ret, formatForResponse. intros H. inversion H. subst db' e'. clear H.
  exists e, data'. repeat split; try assumption.
  - subst db2. destruct (EventService.significant changes); subst db1; reflexivity.
  - intros Hc. subst check. rewrite Hc in Hcheck.
    destruct (effective_end changes e) as [d|]; [|exact I].
    destruct (d <=? effective_start changes e) eqn:Hle; [discriminate|].
    now apply Z.leb_gt in Hle.
  - subst db2.
    destruct (EventService.significant changes); subst db1; simpl;
      [reflexivity|now rewrite app_nil_r].
Qed.

Lemma event_create_ok (env : Env) (data : NewEvent.t) (db db1 : Db)
    (e : Event.t) :
  EventRepository.create env data db = (db1, Ok e) ->
  db1 = mkDb (events db ++ [e]) (notifications db) (S (writes db))
  /\ Event.startDate e = NewEvent.startDate data
  /\ Event.endDate e = NewEvent.endDate data
  /\ Event.status e
     = match NewEvent.status data with Some s => s | None => draft end
  /\ Event.id e
     = match NewEvent.id data with Some i => i | None => uuid_event env end
  /\ existsb (has_id Event.id (Event.id e)) (events db) = false
  /\ varchar 255 (NewEvent.name data) = Some (Event.name e)
  /\ Event.description e = NewEvent.description data
  /\ varchar_null 255 (NewEvent.location data) = Some (Event.location e)
  /\ Event.tags e = NewEvent.tags data.
Proof.
  unfold EventRepository.create, bind, EventRepository.insert.
  destruct (varchar 255 (NewEvent.name data)) as [name|]; [|simpl; congruence].
  destruct (varchar_null 255 (NewEvent.location data)) as [location|];
    [|simpl; congruence].
  destruct (existsb _ (events db)) eqn:Hkey; [simpl; congruence|].
  unfold ret. intros H. inversion H. subst. simpl. repeat split; auto.
Qed.

Lemma event_create_throw (env : Env) (data : NewEvent.t) (db db1 : Db)
    (x : Exn) :
  EventRepository.create env data db = (db1, Throw x) -> db1 = db.
Proof.
  unfold EventRepository.create, bind, EventRepository.insert.
  destruct (varchar 255 (NewEvent.name data)) as [name|]; [|simpl; congruence].
  destruct (varchar_null 255 (NewEvent.location data)) as [location|];
    [|simpl; congruence].
  destruct (existsb _ (events db)) eqn:Hkey; [simpl; congruence|].
  unfold ret. congruence.
Qed.




Lemma unique_row (rows : list Event.t) (id : uuid) (e r : Event.t) :
  NoDup (map Event.id rows) ->
  select_by_id Event.id rows id = Some e ->
  In r rows ->
  Event.id r = id ->
  r = e.
Proof.
  unfold select_by_id.
  induction rows as [|a rows IH]; simpl; [contradiction|].
  intros Hnd Hfind Hin Hid. inversion Hnd as [|? ? Hnotin Hnd']. subst.
  unfold has_id at 1 in Hfind.
  destruct (String.eqb_spec (Event.id a) (Event.id r)) as [Heq|Hne].
  - inversion Hfind. subst. destruct Hin as [Hin|Hin]; [now symmetry|].
    exfalso. apply Hnotin. rewrite Heq. now apply in_map.
  - destruct Hin as [Hin|Hin]; [subst; contradiction|]. now apply IH.
Qed.


Lemma set_columns_dates (changes data' : Changes.t) (e : Event.t) :
  Changes.startDate data' = Changes.startDate changes ->
  Changes.endDate data' = Changes.endDate changes ->
  dates_ok e ->
  (EventService.carries_date changes = true ->
   match effective_end changes e with
   | Some d => effective_start changes e < d
   | None => True
   end) ->
  dates_ok (EventRepository.set_columns data' e).
Proof.
  intros Hs He Hok Hvalid.
  unfold dates_ok, EventRepository.set_columns. simpl. rewrite Hs, He.
  unfold EventService.carries_date, effective_end, effective_start in Hvalid.
  unfold dates_ok in Hok.
  destruct (Changes.startDate changes) as [s|];
    destruct (Changes.endDate changes) as [[d|]|]; simpl in *;
    try exact I; try exact Hok; now apply Hvalid.
Qed.

(* ================================================================== *)
(** * Status workflow: [publish] and [archive] *)
(* ================================================================== *)

(** C3.  For an existing event, [publish(id)] succeeds if and only if
    the stored status is [draft].  From any other status it throws
    "Only draft events can be published" (an InvalidTransition) and the
    database is left as it was.  On success the row gets status
    [published] and [updatedAt] set to the current time, no other event
    changes, and one "Event Published" notification is appended for the
    event. *)
Theorem publish_only_from_draft (env : Env) (id : uuid) (db : Db) (e : Event.t) :
  find_event db id = Some e ->
  fresh_notification_id env db ->
  (Event.status e = draft <->
     exists db' r, EventService.publish env id db = (db', Ok r))
  /\ (Event.status e <> draft ->
        exists x,
          EventService.publish env id db = (db, Throw x)
          /\ error_kind x = InvalidTransition)
  /\ (Event.status e = draft ->
        exists db' e',
          EventService.publish env id db = (db', Ok (Some e'))
          /\ e' = with_status published (now env) e
          /\ Event.status e' = published
          /\ Event.updatedAt e' = now env
          /\ find_event db' id = Some e'
          /\ (forall id', id' <> id -> find_event db' id' = find_event db id')
          /\ notifications db'
             = (notifications db
                ++ [lifecycle_notification env id "Event Published"
                      ("Event " ++ dquote ++ Event.name e ++ dquote
                       ++ " has been published")])%list).
Proof.
  intros Hfind Hfresh. split; [|split].
  - split.
    + intros Hdraft. rewrite (publish_draft env id db e Hfind Hdraft Hfresh).
      eauto.
    + intros (db' & r & Hrun).
      destruct (Event.status e) eqn:Hstatus; [reflexivity| |];
        rewrite (publish_refused env id db e Hfind) in Hrun
          by (rewrite Hstatus; discriminate);
        discriminate Hrun.
  - intros Hother. exists (Error "Only draft events can be published").
    split; [now apply publish_refused with (e := e)|reflexivity].
  - intros Hdraft. rewrite (publish_draft env id db e Hfind Hdraft Hfresh).
    eexists. eexists. split; [reflexivity|].
    repeat split.
    + now apply find_rewritten_same.
    + intros id' Hne. now apply find_rewritten_other.
Qed.

Lemma publish_only_from_draft_witness :
  exists db',
    EventService.publish sample_env "e2" sample_db
    = (db', Ok (Some (with_status published (now sample_env) sales_kickoff)))
    /\ List.length (notifications db') = 4%nat.
Proof.
  destruct (publish_only_from_draft sample_env "e2" sample_db sales_kickoff
              eq_refl eq_refl) as (_ & _ & H).
  destruct (H eq_refl) as (db' & e' & Hrun & He' & _ & _ & _ & _ & Hn).
  exists db'. subst e'. split; [exact Hrun|].
  rewrite Hn. reflexivity.
Defined.

(** C4.  For an existing event, [archive(id)] throws "Event is already
    archived" (an InvalidTransition) if and only if the stored status is
    [archived], and then leaves the database as it was.  From [draft]
    and from [published] it succeeds: the row gets status [archived] and
    [updatedAt] set to the current time, no other event changes, and one
    "Event Archived" notification is appended for the event. *)
Theorem archive_unless_archived (env : Env) (id : uuid) (db : Db) (e : Event.t) :
  find_event db id = Some e ->
  fresh_notification_id env db ->
  (Event.status e = archived <->
     exists db' x,
       EventService.archive env id db = (db', Throw x)
       /\ error_kind x = InvalidTransition)
  /\ (Event.status e = archived ->
        EventService.archive env id db
        = (db, Throw (Error "Event is already archived")))
  /\ (Event.status e = draft \/ Event.status e = published ->
        exists db' e',
          EventService.archive env id db = (db', Ok (Some e'))
          /\ e' = with_status archived (now env) e
          /\ Event.status e' = archived
          /\ Event.updatedAt e' = now env
          /\ find_event db' id = Some e'
          /\ (forall id', id' <> id -> find_event db' id' = find_event db id')
          /\ notifications db'
             = (notifications db
                ++ [lifecycle_notification env id "Event Archived"
                      ("Event " ++ dquote ++ Event.name e ++ dquote
                       ++ " has been archived")])%list).
Proof.
  intros Hfind Hfresh. split; [|split].
  - split.
    + intros Harchived. exists db, (Error "Event is already archived").
      split; [now apply archive_refused with (e := e)|reflexivity].
    + intros (db' & x & Hrun & _).
      destruct (Event.status e) eqn:Hstatus; [| |reflexivity];
        rewrite (archive_live env id db e Hfind) in Hrun
          by (try exact Hfresh; rewrite Hstatus; discriminate);
        discriminate Hrun.
  - intros Harchived. now apply archive_refused with (e := e).
  - intros Hlive.
    assert (Hnot : Event.status e <> archived)
      by (destruct Hlive as [H|H]; rewrite H; discriminate).
    rewrite (archive_live env id db e Hfind Hnot Hfresh).
    eexists. eexists. split; [reflexivity|].
    repeat split.
    + now apply find_rewritten_same.
    + intros id' Hne. now apply find_rewritten_other.
Qed.

Lemma archive_unless_archived_witness :
  (exists db',
     EventService.archive sample_env "e1" sample_db
     = (db', Ok (Some (with_status archived (now sample_env) tech_conference))))
  /\ EventService.archive sample_env "e3" sample_db
     = (sample_db, Throw (Error "Event is already archived")).
Proof.
  split.
  - destruct (archive_unless_archived sample_env "e1" sample_db tech_conference
                eq_refl eq_refl) as (_ & _ & H).
    destruct (H (or_intror eq_refl)) as (db' & e' & Hrun & He' & _).
    exists db'. subst e'. exact Hrun.
  - destruct (archive_unless_archived sample_env "e3" sample_db internship
                eq_refl eq_refl) as (_ & H & _).
    exact (H eq_refl).
Defined.

(* ================================================================== *)
(** * Date ordering on [create] and [update] *)
(* ================================================================== *)







(* ================================================================== *)
(** * Notifications and status changes of the generic [update] *)
(* ================================================================== *)

(** A change set without dates, key or sized columns goes through. *)
Lemma update_plain_run (env : Env) (id : uuid) (changes : Changes.t) (db : Db)
    (e : Event.t) :
  find_event db id = Some e ->
  plain changes ->
  EventService.carries_date changes = false ->
  (EventService.significant changes = true -> fresh_notification_id env db) ->
  EventService.update env id changes db
  = (mkDb (rewrite_events (EventRepository.set_columns (stamped env changes))
             id db)
          (notifications db
           ++ if EventService.significant changes
              then [update_notification env id]
              else [])
          (if EventService.significant changes
           then S (S (writes db))
           else S (writes db)),
     Ok (EventRepository.set_columns (stamped env changes) e)).
Proof.
  intros Hfind Hplain Hnodate Hfresh.
  rewrite update_steps. unfold bind at 1 2. unfold validate, ret at 1.
  rewrite date_check_run, Hnodate. unfold bind at 1.
  rewrite update_plain by (destruct Hplain as (? & ? & ?); repeat split; assumption).
  rewrite Hfind. simpl. unfold bind at 1. simpl. unfold bind at 1.
  unfold notify_update.
  destruct (EventService.significant changes).
  - unfold bind. rewrite notification_create.
    + reflexivity.
    + reflexivity.
    + now apply Hfresh.
    + simpl. rewrite rewrite_events_exists.
      * now apply select_by_id_found with (r := e).
      * intros r. apply set_columns_key. now destruct Hplain.
  - simpl. now rewrite app_nil_r.
Qed.

Lemma significant_spec (changes : Changes.t) :
  EventService.significant changes = true
  <-> (Changes.status changes <> None
       \/ (exists n, Changes.name changes = Some n /\ n <> EmptyString)
       \/ Changes.startDate changes <> None).
Proof.
  unfold EventService.significant, truthy.
  destruct (Changes.status changes) as [s|];
    [split; [left; discriminate|reflexivity]|].
  destruct (Changes.name changes) as [n|].
  - destruct (String.eqb_spec n EmptyString) as [Hn|Hn]; simpl.
    + destruct (Changes.startDate changes) as [d|]; split; intros H;
        first [ reflexivity
              | discriminate H
              | right; right; discriminate
              | destruct H as [H|[(n' & H & Hne)|H]]; congruence ].
    + split; [|reflexivity]. intros _. right. left. eauto.
  - destruct (Changes.startDate changes) as [d|]; split; intros H;
      first [ reflexivity
            | discriminate H
            | right; right; discriminate
            | destruct H as [H|[(n' & H & Hne)|H]]; congruence ].
Qed.

(** C5 (as amended).  A successful [update(id, changes)] appends exactly
    one notification, titled "Event Updated" and attached to [id], when
    the change set carries a status, a non-empty name or a start date;
    otherwise (other fields only, or an empty name) it leaves the
    notifications as they were. *)
Theorem update_notifies_significant_changes (env : Env) (id : uuid)
    (changes : Changes.t) (db db' : Db) (e' : Event.t) :
  EventService.update env id changes db = (db', Ok e') ->
  (EventService.significant changes = true
   <-> (Changes.status changes <> None
        \/ (exists n, Changes.name changes = Some n /\ n <> EmptyString)
        \/ Changes.startDate changes <> None))
  /\ (EventService.significant changes = true ->
      notifications db'
      = (notifications db
         ++ [Notification.mk (uuid_notification env) id "Event Updated"
               (Some "Event has been updated") 0 (now env)])%list)
  /\ (EventService.significant changes = false ->
      notifications db' = notifications db).
Proof.
  intros Hrun. apply update_ok_inv in Hrun.
  destruct Hrun as (e & data' & _ & _ & _ & _ & _ & Hn).
  split; [apply significant_spec|].
  split; intros Hs; rewrite Hs in Hn; rewrite Hn;
    [reflexivity|apply app_nil_r].
Qed.

Lemma update_notifies_significant_changes_witness :
  (exists db' e',
     EventService.update sample_env "e3" (status_only archived) sample_db
     = (db', Ok e')
     /\ List.length (notifications db')
        = S (List.length (notifications sample_db)))
  /\ (exists db' e',
        EventService.update sample_env "e3" relocate sample_db = (db', Ok e')
        /\ notifications db' = notifications sample_db).
Proof.
  split.
  - eexists. eexists.
    assert (Hrun :
      EventService.update sample_env "e3" (status_only archived) sample_db
      = (_, Ok _)) by (vm_compute; reflexivity).
    split; [exact Hrun|].
    destruct (update_notifies_significant_changes _ _ _ _ _ _ Hrun)
      as (_ & H & _).
    rewrite (H eq_refl). reflexivity.
  - eexists. eexists.
    assert (Hrun :
      EventService.update sample_env "e3" relocate sample_db = (_, Ok _))
      by (vm_compute; reflexivity).
    split; [exact Hrun|].
    destruct (update_notifies_significant_changes _ _ _ _ _ _ Hrun)
      as (_ & _ & H).
    exact (H eq_refl).
Defined.

(** C5, the claim as written fails: renaming an event to the empty
    string touches [name], the row is rewritten, and no notification is
    created. *)
Lemma update_empty_name_is_silent :
  exists db' e',
    EventService.update sample_env "e2" rename_to_empty sample_db
    = (db', Ok e')
    /\ Changes.name rename_to_empty = Some EmptyString
    /\ Event.name e' = EmptyString
    /\ find_event db' "e2" = Some e'
    /\ notifications db' = notifications sample_db.
Proof.
  eexists. eexists. split; [vm_compute; reflexivity|].
  repeat split.
Qed.

(** C9.  The generic [update] has no status guard: for an existing
    event and any target status, [update(id, { status })] succeeds
    whatever the stored status is, and the row then has the target
    status.  The guards live in the dedicated methods only: on the same
    database [publish] throws unless the status is [draft], and
    [archive] throws when it is [archived]. *)
Theorem update_bypasses_status_guards (env : Env) (id : uuid) (db : Db)
    (e : Event.t) (s : EventStatus) :
  find_event db id = Some e ->
  fresh_notification_id env db ->
  (exists db' e',
     EventService.update env id (status_only s) db = (db', Ok e')
     /\ Event.status e' = s
     /\ find_event db' id = Some e')
  /\ (Event.status e <> draft ->
      EventService.publish env id db
      = (db, Throw (Error "Only draft events can be published")))
  /\ (Event.status e = archived ->
      EventService.archive env id db
      = (db, Throw (Error "Event is already archived"))).
Proof.
  intros Hfind Hfresh. split; [|split].
  - rewrite (update_plain_run env id (status_only s) db e Hfind);
      [|repeat split|reflexivity|intros _; exact Hfresh].
    eexists. eexists. split; [reflexivity|]. split; [reflexivity|].
    apply find_rewritten_same; [|exact Hfind].
    intros r. now apply set_columns_key.
  - intros Hstatus. now apply publish_refused with (e := e).
  - intros Hstatus. now apply archive_refused with (e := e).
Qed.

Lemma update_bypasses_status_guards_witness :
  (exists db' e',
     EventService.update sample_env "e3" (status_only draft) sample_db
     = (db', Ok e')
     /\ Event.status e' = draft)
  /\ (exists db' e',
        EventService.update sample_env "e1" (status_only draft) sample_db
        = (db', Ok e')
        /\ Event.status e' = draft)
  /\ EventService.publish sample_env "e3" sample_db
     = (sample_db, Throw (Error "Only draft events can be published")).
Proof.
  destruct (update_bypasses_status_guards sample_env "e3" sample_db internship
              draft eq_refl eq_refl) as (Ha & Hb & _).
  destruct (update_bypasses_status_guards sample_env "e1" sample_db
              tech_conference draft eq_refl eq_refl) as (Hc & _ & _).
  split; [|split].
  - destruct Ha as (db' & e' & H1 & H2 & _). eauto.
  - destruct Hc as (db' & e' & H1 & H2 & _). eauto.
  - apply Hb. discriminate.
Defined.

(* ================================================================== *)
(** * Read state of notifications *)
(* ================================================================== *)

Lemma set_read_key (n : Notification.t) :
  Notification.id (NotificationRepository.set_read n) = Notification.id n.
Proof. reflexivity. Qed.

Lemma set_read_again (n : Notification.t) :
  Notification.isRead n = 1 -> NotificationRepository.set_read n = n.
Proof.
  intros H. destruct n as [i e t m r c]. simpl in H. subst r. reflexivity.
Qed.

Lemma markAsRead_read (id : uuid) (db : Db) (n : Notification.t) :
  find_notification db id = Some n ->
  Notification.isRead n = 1 ->
  NotificationService.markAsRead id db = (db, Ok (Some n)).
Proof.
  intros Hfind Hread.
  unfold NotificationService.markAsRead, bind, NotificationRepository.findById.
  unfold find_notification in Hfind. rewrite Hfind. simpl.
  now rewrite Hread.
Qed.

Lemma markAsRead_unread (id : uuid) (db : Db) (n : Notification.t) :
  find_notification db id = Some n ->
  Notification.isRead n <> 1 ->
  NotificationService.markAsRead id db
  = (mkDb (events db)
          (map (fun r => if has_id Notification.id id r
                         then NotificationRepository.set_read r
                         else r)
               (notifications db))
          (S (writes db)),
     Ok (Some (NotificationRepository.set_read n))).
Proof.
  intros Hfind Hunread.
  unfold NotificationService.markAsRead, bind, NotificationRepository.findById.
  pose proof Hfind as Hsel. unfold find_notification in Hsel.
  rewrite Hsel. simpl.
  apply Z.eqb_neq in Hunread. rewrite Hunread.
  unfold NotificationRepository.markAsRead, update_where_id, ret.
  now rewrite returning_head, Hsel.
Qed.

(** C7.  [markAsRead] is idempotent.  For an existing notification the
    first call returns it with [isRead = 1]; a second call on the
    database the first one left returns the same notification, throws
    nothing and leaves that database, write count included, exactly as
    it was; so calling twice is calling once. *)
Theorem markAsRead_idempotent (id : uuid) (db : Db) (n : Notification.t) :
  find_notification db id = Some n ->
  exists db1 n1,
    NotificationService.markAsRead id db = (db1, Ok (Some n1))
    /\ Notification.isRead n1 = 1
    /\ find_notification db1 id = Some n1
    /\ NotificationService.markAsRead id db1 = (db1, Ok (Some n1))
    /\ (NotificationService.markAsRead id ;;; NotificationService.markAsRead id)
         db
       = NotificationService.markAsRead id db.
Proof.
  intros Hfind.
  destruct (Z.eq_dec (Notification.isRead n) 1) as [Hread|Hunread].
  - exists db, n.
    pose proof (markAsRead_read id db n Hfind Hread) as Hrun.
    repeat split; try assumption.
    unfold bind. now rewrite Hrun.
  - pose proof (markAsRead_unread id db n Hfind Hunread) as Hrun.
    rewrite Hrun. eexists. eexists. split; [reflexivity|].
    assert (Hfind1 :
      find_notification
        (mkDb (events db)
           (map (fun r => if has_id Notification.id id r
                          then NotificationRepository.set_read r
                          else r)
                (notifications db))
           (S (writes db))) id
      = Some (NotificationRepository.set_read n)).
    { unfold find_notification in *. simpl.
      rewrite select_rewritten by exact set_read_key.
      rewrite Hfind. simpl.
      apply select_by_id_key in Hfind.
      unfold has_id. rewrite Hfind, String.eqb_refl. reflexivity. }
    pose proof (markAsRead_read id _ _ Hfind1 eq_refl) as Hrun1.
    repeat split; try assumption.
    unfold bind. rewrite Hrun. exact Hrun1.
Qed.

Lemma markAsRead_idempotent_witness :
  exists db1,
    NotificationService.markAsRead "n1" sample_db
    = (db1, Ok (Some (NotificationRepository.set_read speaker_confirmed)))
    /\ writes db1 = 1%nat
    /\ NotificationService.markAsRead "n1" db1
       = (db1, Ok (Some (NotificationRepository.set_read speaker_confirmed))).
Proof.
  destruct (markAsRead_idempotent "n1" sample_db speaker_confirmed eq_refl)
    as (db1 & n1 & Hrun & _ & _ & Hagain & _).
  assert (Hfirst :
    NotificationService.markAsRead "n1" sample_db
    = (mkDb (events sample_db)
            [NotificationRepository.set_read speaker_confirmed;
             registration_milestone; agenda_draft] 1,
       Ok (Some (NotificationRepository.set_read speaker_confirmed))))
    by (vm_compute; reflexivity).
  rewrite Hfirst in Hrun. inversion Hrun. subst db1 n1.
  eexists. split; [exact Hfirst|]. split; [reflexivity|exact Hagain].
Defined.

Lemma mark_for_other (eventId : uuid) (n : Notification.t) :
  Notification.eventId n <> eventId -> mark_for eventId n = n.
Proof.
  intros H. unfold mark_for. apply String.eqb_neq in H. now rewrite H.
Qed.

Lemma mark_for_read (eventId : uuid) (n : Notification.t) :
  Notification.isRead n = 1 -> mark_for eventId n = n.
Proof.
  intros H. unfold mark_for.
  destruct (String.eqb _ _); [now apply set_read_again|reflexivity].
Qed.

Lemma mark_for_changes (eventId : uuid) (n : Notification.t) :
  mark_for eventId n <> n
  <-> (Notification.eventId n = eventId /\ Notification.isRead n <> 1).
Proof.
  split.
  - intros H. split.
    + destruct (String.eqb_spec (Notification.eventId n) eventId) as [Heq|Hne];
        [exact Heq|]. exfalso. apply H. now apply mark_for_other.
    + intros Hread. apply H. now apply mark_for_read.
  - intros [Heq Hunread] H. apply Hunread.
    unfold mark_for in H. apply String.eqb_eq in Heq. rewrite Heq in H.
    rewrite <- H. reflexivity.
Qed.

Lemma filter_rewritten (eventId : uuid) (rows : list Notification.t) :
  filter (fun n => String.eqb (Notification.eventId n) eventId)
         (map (mark_for eventId) rows)
  = map NotificationRepository.set_read
      (filter (fun n => String.eqb (Notification.eventId n) eventId) rows).
Proof.
  induction rows as [|r rows IH]; simpl; [reflexivity|].
  assert (Hkeep : Notification.eventId (mark_for eventId r)
                  = Notification.eventId r)
    by (unfold mark_for; now destruct (String.eqb _ _)).
  rewrite Hkeep.
  destruct (String.eqb (Notification.eventId r) eventId) eqn:Hr; simpl.
  - unfold mark_for at 1. rewrite Hr. now f_equal.
  - exact IH.
Qed.

Lemma none_unread_after_marking (eventId : uuid) (rows : list Notification.t) :
  filter (fun n => String.eqb (Notification.eventId n) eventId
                   && (Notification.isRead n =? 0))
         (map (mark_for eventId) rows)
  = [].
Proof.
  induction rows as [|r rows IH]; simpl; [reflexivity|].
  unfold mark_for at 1 2.
  destruct (String.eqb (Notification.eventId r) eventId) eqn:Hr; simpl.
  - rewrite Hr. exact IH.
  - rewrite Hr. exact IH.
Qed.

(** C8 (as amended).  [markAllReadForEvent(eventId)] always succeeds.
    It sets [isRead] to 1 on every notification of the event, so the
    rows that change are exactly the event's notifications that were not
    read; the notifications of other events, and the events, stay as
    they were.  It returns all notifications of the event in their new
    state, the ones that were read before the call included; the list
    is empty exactly when the event has no notification.  Afterwards the
    unread count of the event is 0. *)
Theorem markAllReadForEvent_marks_and_returns_all (eventId : uuid) (db : Db) :
  exists db' updated,
    NotificationService.markAllReadForEvent eventId db = (db', Ok updated)
    /\ events db' = events db
    /\ notifications db' = map (mark_for eventId) (notifications db)
    /\ (forall n, mark_for eventId n <> n
                  <-> (Notification.eventId n = eventId
                       /\ Notification.isRead n <> 1))
    /\ (forall n, Notification.eventId n = eventId ->
                  Notification.isRead (mark_for eventId n) = 1)
    /\ NotificationService.getUnreadCountForEvent eventId db'
       = (db', Ok (Int 0))
    /\ updated = notifications_of db' eventId
    /\ updated = map (mark_for eventId) (notifications_of db eventId)
    /\ (updated = [] <-> notifications_of db eventId = []).
Proof.
  unfold NotificationService.markAllReadForEvent, bind,
    NotificationRepository.markAllAsReadForEvent, update_where_id, ret.
  simpl. eexists. eexists. split; [reflexivity|]. simpl.
  assert (Hret :
    map formatForResponse
      (map NotificationRepository.set_read
         (filter (has_id Notification.eventId eventId) (notifications db)))
    = map (mark_for eventId) (notifications_of db eventId)).
  { unfold formatForResponse. rewrite map_id. unfold notifications_of.
    apply map_ext_in. intros n Hin. apply filter_In in Hin.
    destruct Hin as [_ Hn]. unfold has_id in Hn. unfold mark_for.
    now rewrite Hn. }
  split; [reflexivity|]. split; [reflexivity|].
  split; [intros n; apply mark_for_changes|].
  split.
  { intros n Hn. unfold mark_for. apply String.eqb_eq in Hn. now rewrite Hn. }
  split.
  { unfold NotificationService.getUnreadCountForEvent,
      NotificationRepository.countUnreadByEventId. simpl.
    change (map (fun r => if has_id Notification.eventId eventId r
                          then NotificationRepository.set_read r else r)
                (notifications db))
      with (map (mark_for eventId) (notifications db)).
    now rewrite none_unread_after_marking. }
  split.
  { unfold notifications_of at 1. simpl.
    change (map (fun r => if has_id Notification.eventId eventId r
                          then NotificationRepository.set_read r else r)
                (notifications db))
      with (map (mark_for eventId) (notifications db)).
    rewrite filter_rewritten. unfold formatForResponse. now rewrite map_id. }
  split; [exact Hret|].
  rewrite Hret. split; intros H.
  - now apply map_eq_nil in H.
  - now rewrite H.
Qed.

(** C8, the claim as written fails: the list returned is not the set
    of unread notifications that were flipped.  Event [e1] has one
    unread and one read notification; both come back. *)
Lemma markAllReadForEvent_returns_read_ones_too :
  exists db',
    NotificationService.markAllReadForEvent "e1" sample_db
    = (db', Ok [NotificationRepository.set_read speaker_confirmed;
                registration_milestone])
    /\ Notification.isRead registration_milestone = 1
    /\ map NotificationRepository.set_read (unread_of sample_db "e1")
       = [NotificationRepository.set_read speaker_confirmed].
Proof.
  eexists. split; [vm_compute; reflexivity|]. split; reflexivity.
Qed.

(* ================================================================== *)
(** * The delete endpoint *)
(* ================================================================== *)

Lemma is_string_true_spec (permanent : option OpenAPIServiceHandlers.QueryValue) :
  OpenAPIServiceHandlers.is_string_true permanent = true
  <-> permanent = Some (OpenAPIServiceHandlers.QString "true").
Proof.
  unfold OpenAPIServiceHandlers.is_string_true.
  destruct permanent as [[s|b]|]; split; intros H; try discriminate.
  - apply String.eqb_eq in H. now subst.
  - inversion H. apply String.eqb_refl.
Qed.

(** C10.  [deleteEvent] takes the hard-delete path exactly when the
    query value [permanent] is the string "true"; then it replies 204
    whatever [remove] found.  For any other value (another string, a
    boolean, no value) it runs [archive] and replies 204 only if that
    returns.  Hence a default delete of an event that is already
    archived throws "Event is already archived" and changes nothing. *)
Theorem deleteEvent_archives_unless_permanent (env : Env) (eventId : uuid)
    (permanent : option OpenAPIServiceHandlers.QueryValue) (db : Db) :
  (permanent = Some (OpenAPIServiceHandlers.QString "true") ->
   OpenAPIServiceHandlers.deleteEvent eventId permanent env db
   = (fst (EventService.remove eventId db), Ok 204))
  /\ (permanent <> Some (OpenAPIServiceHandlers.QString "true") ->
      OpenAPIServiceHandlers.deleteEvent eventId permanent env db
      = match EventService.archive env eventId db with
        | (db', Ok _) => (db', Ok 204)
        | (db', Throw x) => (db', Throw x)
        end)
  /\ (permanent <> Some (OpenAPIServiceHandlers.QString "true") ->
      forall e,
        find_event db eventId = Some e ->
        Event.status e = archived ->
        OpenAPIServiceHandlers.deleteEvent eventId permanent env db
        = (db, Throw (Error "Event is already archived"))).
Proof.
  assert (Hother :
    permanent <> Some (OpenAPIServiceHandlers.QString "true") ->
    OpenAPIServiceHandlers.deleteEvent eventId permanent env db
    = match EventService.archive env eventId db with
      | (db', Ok _) => (db', Ok 204)
      | (db', Throw x) => (db', Throw x)
      end).
  { intros Hne. unfold OpenAPIServiceHandlers.deleteEvent.
    destruct (OpenAPIServiceHandlers.is_string_true permanent) eqn:Htrue.
    - apply is_string_true_spec in Htrue. contradiction.
    - unfold bind.
      now destruct (EventService.archive env eventId db) as [db' [r|x]]. }
  split; [|split].
  - intros Htrue. apply is_string_true_spec in Htrue.
    unfold OpenAPIServiceHandlers.deleteEvent. rewrite Htrue.
    reflexivity.
  - exact Hother.
  - intros Hne e Hfind Hstatus. rewrite (Hother Hne).
    now rewrite (archive_refused env eventId db e Hfind Hstatus).
Qed.

Lemma deleteEvent_archives_unless_permanent_witness :
  OpenAPIServiceHandlers.deleteEvent "e3" None sample_env sample_db
  = (sample_db, Throw (Error "Event is already archived"))
  /\ OpenAPIServiceHandlers.deleteEvent "e3"
       (Some (OpenAPIServiceHandlers.QBoolean true)) sample_env sample_db
     = (sample_db, Throw (Error "Event is already archived"))
  /\ OpenAPIServiceHandlers.deleteEvent "e3"
       (Some (OpenAPIServiceHandlers.QString "true")) sample_env sample_db
     = (mkDb [tech_conference; sales_kickoff] (notifications sample_db) 1,
        Ok 204).
Proof.
  split; [|split].
  - destruct (deleteEvent_archives_unless_permanent sample_env "e3" None
                sample_db) as (_ & _ & H).
    apply (H ltac:(discriminate) internship); reflexivity.
  - destruct (deleteEvent_archives_unless_permanent sample_env "e3"
                (Some (OpenAPIServiceHandlers.QBoolean true)) sample_db)
      as (_ & _ & H).
    apply (H ltac:(discriminate) internship); reflexivity.
  - destruct (deleteEvent_archives_unless_permanent sample_env "e3"
                (Some (OpenAPIServiceHandlers.QString "true")) sample_db)
      as (H & _ & _).
    rewrite (H eq_refl). reflexivity.
Defined.

(* ================================================================== *)
(** * [duplicate] *)
(* ================================================================== *)

Lemma length_append (a b : string) :
  String.length (a ++ b) = (String.length a + String.length b)%nat.
Proof. induction a as [|c a IH]; simpl; [reflexivity|now rewrite IH]. Qed.

Lemma varchar_fits (n : nat) (s : string) :
  (String.length s <= n)%nat -> varchar n s = Some s.
Proof.
  intros H. unfold varchar. apply Nat.leb_le in H. now rewrite H.
Qed.

Lemma varchar_null_fits (n : nat) (o : option string) :
  match o with Some s => (String.length s <= n)%nat | None => True end ->
  varchar_null n o = Some o.
Proof.
  destruct o as [s|]; simpl; [|reflexivity].
  intros H. now rewrite varchar_fits.
Qed.

Lemma select_by_id_app {Row} (row_id : Row -> uuid) (rows : list Row)
    (r : Row) (id : uuid) :
  select_by_id row_id (rows ++ [r]) id
  = match select_by_id row_id rows id with
    | Some x => Some x
    | None => if has_id row_id id r then Some r else None
    end.
Proof.
  unfold select_by_id.
  induction rows as [|a rows IH]; simpl; [reflexivity|].
  now destruct (has_id row_id id a).
Qed.

Lemma select_by_id_missing {Row} (row_id : Row -> uuid) (rows : list Row)
    (id : uuid) :
  existsb (has_id row_id id) rows = false ->
  select_by_id row_id rows id = None.
Proof.
  rewrite select_by_id_existsb.
  now destruct (select_by_id row_id rows id).
Qed.

Lemma no_notifications_for_fresh_event (env : Env) (db : Db) :
  references_ok db ->
  fresh_event_id env db ->
  notifications_of db (uuid_event env) = [].
Proof.
  intros Href Hfresh. unfold notifications_of.
  assert (H : forall l, (forall n, In n l -> In n (notifications db)) ->
              filter (fun n => String.eqb (Notification.eventId n)
                                          (uuid_event env)) l = []).
  { induction l as [|n l IH]; intros Hsub; simpl; [reflexivity|].
    destruct (String.eqb_spec (Notification.eventId n) (uuid_event env))
      as [Heq|Hne].
    - exfalso. specialize (Href n (Hsub n (or_introl eq_refl))).
      rewrite Heq in Href. unfold fresh_event_id in Hfresh. congruence.
    - apply IH. intros m Hm. apply Hsub. now right. }
  apply H. auto.
Qed.

Lemma duplicate_run (env : Env) (id : uuid) (db : Db) (e : Event.t) :
  find_event db id = Some e ->
  (String.length (Event.name e) <= 248)%nat ->
  row_fits e ->
  fresh_event_id env db ->
  fresh_notification_id env db ->
  EventService.duplicate env id db
  = (mkDb (events db ++ [copy_of env e])
          (notifications db
           ++ [lifecycle_notification env (uuid_event env) "Event Duplicated"
                 ("Event " ++ dquote ++ (Event.name e ++ " (Copy)") ++ dquote
                  ++ " has been created as a copy")])
          (S (S (writes db))),
     Ok (copy_of env e)).
Proof.
  intros Hfind Hname [_ Hloc] Hfresh_e Hfresh_n.
  unfold EventService.duplicate, bind at 1 2, EventRepository.findById.
  pose proof Hfind as Hsel. unfold find_event in Hsel. rewrite Hsel. simpl.
  unfold bind at 1.
  assert (Hcreate :
    EventRepository.create env
      (NewEvent.mk None (Event.name e ++ " (Copy)") (Event.description e)
         (Some draft) (Event.startDate e) (Event.endDate e) (Event.location e)
         (Event.tags e) None None None) db
    = (mkDb (events db ++ [copy_of env e]) (notifications db) (S (writes db)),
       Ok (copy_of env e))).
  { unfold EventRepository.create, bind, EventRepository.insert. simpl.
    rewrite varchar_fits by (rewrite length_append; simpl; lia).
    rewrite varchar_null_fits by exact Hloc.
    unfold fresh_event_id in Hfresh_e. rewrite Hfresh_e. reflexivity. }
  rewrite Hcreate. unfold bind.
  rewrite notification_create.
  - reflexivity.
  - reflexivity.
  - exact Hfresh_n.
  - simpl. rewrite existsb_app. simpl.
    unfold has_id at 2. simpl. rewrite String.eqb_refl.
    apply orb_true_r.
Qed.

(** C6 (as amended).  For an existing event whose name has at most 248
    characters, so that the suffixed name fits the [varchar(255)]
    column, [duplicate(id)] inserts a new event: its name is the source
    name followed by " (Copy)"; description, dates, location and tags
    are the source's; its status is [draft] whatever the source's status
    is; its id differs from the source id.  The source row and its
    notifications stay as they were, and the new event has exactly one
    notification, "Event Duplicated". *)
Theorem duplicate_copies_as_draft (env : Env) (id : uuid) (db : Db)
    (e : Event.t) :
  find_event db id = Some e ->
  (String.length (Event.name e) <= 248)%nat ->
  row_fits e ->
  references_ok db ->
  fresh_event_id env db ->
  fresh_notification_id env db ->
  exists db' copy,
    EventService.duplicate env id db = (db', Ok copy)
    /\ Event.name copy = Event.name e ++ " (Copy)"
    /\ Event.description copy = Event.description e
    /\ Event.startDate copy = Event.startDate e
    /\ Event.endDate copy = Event.endDate e
    /\ Event.location copy = Event.location e
    /\ Event.tags copy = Event.tags e
    /\ Event.status copy = draft
    /\ Event.id copy <> id
    /\ find_event db' (Event.id copy) = Some copy
    /\ find_event db' id = Some e
    /\ notifications_of db' id = notifications_of db id
    /\ notifications_of db' (Event.id copy)
       = [Notification.mk (uuid_notification env) (Event.id copy)
            "Event Duplicated"
            (Some ("Event " ++ dquote ++ Event.name copy ++ dquote
                   ++ " has been created as a copy"))
            0 (now env)].
Proof.
  intros Hfind Hname Hfits Href Hfresh_e Hfresh_n.
  rewrite (duplicate_run env id db e Hfind Hname Hfits Hfresh_e Hfresh_n).
  assert (Hne : uuid_event env <> id).
  { intros Heq. unfold fresh_event_id in Hfresh_e. rewrite Heq in Hfresh_e.
    unfold find_event in Hfind.
    rewrite (select_by_id_found Event.id _ _ _ Hfind) in Hfresh_e.
    discriminate. }
  eexists. eexists. split; [reflexivity|].
  repeat split.
  - exact Hne.
  - unfold find_event, copy_of. simpl. rewrite select_by_id_app.
    rewrite select_by_id_missing by exact Hfresh_e.
    unfold has_id. simpl. now rewrite String.eqb_refl.
  - unfold find_event. simpl. rewrite select_by_id_app.
    unfold find_event in Hfind. now rewrite Hfind.
  - unfold notifications_of. simpl. rewrite filter_app. simpl.
    apply String.eqb_neq in Hne. rewrite Hne. apply app_nil_r.
  - unfold notifications_of. simpl. rewrite filter_app. simpl.
    rewrite String.eqb_refl.
    fold (notifications_of db (uuid_event env)).
    now rewrite no_notifications_for_fresh_event.
Qed.

Lemma sample_references_ok : references_ok sample_db.
Proof.
  intros n Hn. simpl in Hn.
  destruct Hn as [H|[H|[H|[]]]]; subst n; reflexivity.
Defined.

Lemma duplicate_copies_as_draft_witness :
  exists db' copy,
    EventService.duplicate sample_env "e1" sample_db = (db', Ok copy)
    /\ Event.status tech_conference = published
    /\ Event.status copy = draft
    /\ Event.name copy = "Tech Conference (Copy)"
    /\ Event.id copy <> "e1".
Proof.
  destruct (duplicate_copies_as_draft sample_env "e1" sample_db tech_conference
              eq_refl ltac:(simpl; lia) ltac:(split; simpl; lia)
              sample_references_ok eq_refl eq_refl)
    as (db' & copy & Hrun & Hname & _ & _ & _ & _ & _ & Hstatus & Hid & _).
  exists db', copy. repeat split; assumption.
Defined.

(** C6, the claim as written fails: an existing event whose name is 249
    characters long cannot be duplicated; the suffixed name does not fit
    the column, the insert is refused and nothing is written. *)
Lemma duplicate_long_name_refused :
  find_event long_db "e9" = Some long_named
  /\ String.length (Event.name long_named) = 249%nat
  /\ EventService.duplicate sample_env "e9" long_db
     = (long_db, Throw (DatabaseError string_data_right_truncation)).
Proof. repeat split; vm_compute; reflexivity. Qed.

(* ================================================================== *)
(** * Listing: search, status filter, paging *)
(* ================================================================== *)

(** ** [ILIKE '%q%'] on plain text is a substring test *)











(** ** The [WHERE] clause *)





(** ** Paging *)








(* ================================================================== *)
(** * Integrity is kept by every service call *)
(* ================================================================== *)

(** ** Writes of the repositories *)

Lemma well_formed_notifications (db db' : Db) :
  events db' = events db ->
  (forall n, In n (notifications db') ->
     existsb (has_id Event.id (Notification.eventId n)) (events db) = true) ->
  well_formed db -> well_formed db'.
Proof.
  intros Hev Href (Hk & _ & Hd & Hf).
  unfold well_formed, keys_ok, references_ok. rewrite Hev. auto.
Qed.

Lemma notification_create_keeps (env : Env) (data : NewNotification.t) :
  triple well_formed (NotificationRepository.create env data)
    (fun _ db => well_formed db).
Proof.
  intros db db' r Hwf Hrun.
  unfold NotificationRepository.create, bind, NotificationRepository.insert
    in Hrun.
  destruct (varchar 255 (NewNotification.title data)) as [title|];
    [|inversion Hrun; now subst].
  destruct (existsb _ (notifications db)); [inversion Hrun; now subst|].
  destruct (existsb _ (events db)) eqn:Hfk; simpl in Hrun;
    [|inversion Hrun; now subst].
  inversion Hrun. subst db'. clear Hrun.
  apply (well_formed_notifications db); [reflexivity| |exact Hwf].
  simpl. intros n Hn. apply in_app_or in Hn. destruct Hn as [Hn|[Hn|[]]].
  - destruct Hwf as (_ & Href & _). now apply Href.
  - subst n. exact Hfk.
Qed.

Lemma marking_keeps (db : Db) (g : Notification.t -> Notification.t) (w : nat) :
  (forall n, Notification.eventId (g n) = Notification.eventId n) ->
  well_formed db ->
  well_formed (mkDb (events db) (map g (notifications db)) w).
Proof.
  intros Hg Hwf.
  apply (well_formed_notifications db); [reflexivity| |exact Hwf].
  simpl. intros n' Hn'. apply in_map_iff in Hn'.
  destruct Hn' as (n & Hgn & Hn). subst n'. rewrite Hg.
  destruct Hwf as (_ & Href & _). now apply Href.
Qed.

Lemma markAsRead_keeps (id : uuid) :
  triple well_formed (NotificationRepository.markAsRead id)
    (fun _ db => well_formed db).
Proof.
  intros db db' r Hwf Hrun.
  unfold NotificationRepository.markAsRead, update_where_id in Hrun.
  inversion Hrun. subst db'. apply marking_keeps; [|exact Hwf].
  intros n. now destruct (has_id Notification.id id n).
Qed.

Lemma markAllAsReadForEvent_keeps (eventId : uuid) :
  triple well_formed (NotificationRepository.markAllAsReadForEvent eventId)
    (fun _ db => well_formed db).
Proof.
  intros db db' r Hwf Hrun.
  unfold NotificationRepository.markAllAsReadForEvent, update_where_id in Hrun.
  inversion Hrun. subst db'. apply marking_keeps; [|exact Hwf].
  intros n. now destruct (has_id Notification.eventId eventId n).
Qed.

Lemma substring_length (n : nat) (s : string) :
  (String.length (substring 0 n s) <= n)%nat.
Proof.
  revert s. induction n as [|n IH]; intros [|c s]; simpl; try lia.
  specialize (IH s). lia.
Qed.

Lemma varchar_length (n : nat) (s s' : string) :
  varchar n s = Some s' -> (String.length s' <= n)%nat.
Proof.
  unfold varchar. destruct (Nat.leb_spec (String.length s) n) as [Hle|_].
  - intros H. inversion H. now subst.
  - destruct (all_spaces _); [|discriminate].
    intros H. inversion H. apply substring_length.
Qed.

Lemma varchar_null_length (n : nat) (o o' : option string) :
  varchar_null n o = Some o' ->
  match o' with Some l => (String.length l <= n)%nat | None => True end.
Proof.
  destruct o as [s|]; simpl.
  - destruct (varchar n s) as [s'|] eqn:Hs; simpl; [|discriminate].
    intros H. inversion H. now apply varchar_length with (s := s).
  - intros H. now inversion H.
Qed.

Lemma existsb_has_id_in (rows : list Event.t) (id : uuid) :
  existsb (has_id Event.id id) rows = true <-> In id (map Event.id rows).
Proof.
  rewrite existsb_exists, in_map_iff. unfold has_id.
  split; intros (e & H1 & H2).
  - exists e. apply String.eqb_eq in H2. auto.
  - exists e. split; [exact H2|]. now apply String.eqb_eq.
Qed.

Lemma event_create_keeps (env : Env) (data : NewEvent.t) :
  new_dates_ok data ->
  triple well_formed (EventRepository.create env data)
    (fun _ db => well_formed db).
Proof.
  intros Hdates db db' r Hwf Hrun.
  destruct r as [e|x]; [|apply event_create_throw in Hrun; now subst].
  apply event_create_ok in Hrun.
  destruct Hrun as (Hdb & Hs & He & _ & _ & Hkey & Hname & _ & Hloc & _).
  subst db'. destruct Hwf as (Hk & Href & Hd & Hf).
  unfold well_formed, keys_ok, references_ok. simpl. repeat split.
  - rewrite map_app. simpl.
    apply NoDup_app; [exact Hk|repeat constructor; auto|].
    intros id Hin [Hid|[]]. subst id.
    apply existsb_has_id_in in Hin. congruence.
  - intros n Hn. rewrite existsb_app. rewrite (Href n Hn). reflexivity.
  - apply Forall_app. split; [exact Hd|]. constructor; [|constructor].
    unfold dates_ok. rewrite Hs, He. exact Hdates.
  - apply Forall_app. split; [exact Hf|]. constructor; [|constructor].
    split.
    + now apply varchar_length with (s := NewEvent.name data).
    + now apply varchar_null_length with (o := NewEvent.location data).
Qed.

(** Deleting rows keeps the remaining keys distinct. *)
Lemma keys_after_delete (keep : Event.t -> bool) (rows : list Event.t) :
  NoDup (map Event.id rows) -> NoDup (map Event.id (filter keep rows)).
Proof.
  intros Hnd. induction rows as [|e rows IH]; [exact Hnd|].
  inversion Hnd as [|? ? Hfresh Hrest]. subst. simpl.
  destruct (keep e); simpl; [|now apply IH].
  constructor; [|now apply IH].
  rewrite in_map_iff. intros (x & Hx & Hin).
  apply filter_In in Hin. apply Hfresh.
  rewrite <- Hx. apply in_map. tauto.
Qed.

Lemma event_delete_keeps (id : uuid) :
  triple well_formed (EventRepository.delete id) (fun _ db => well_formed db).
Proof.
  intros db db' r (Hk & Href & Hd & Hf) Hrun.
  unfold EventRepository.delete in Hrun. inversion Hrun. subst db'. clear Hrun.
  unfold well_formed, keys_ok, references_ok. simpl. repeat split.
  - now apply keys_after_delete.
  - intros n Hn.
    assert (Hkeep : In n (notifications db) /\ Notification.eventId n <> id).
    { destruct (existsb (has_id Event.id id) (events db)) eqn:Hex.
      - apply filter_In in Hn. destruct Hn as [Hn Hne].
        split; [exact Hn|]. apply negb_true_iff in Hne.
        now apply String.eqb_neq.
      - split; [exact Hn|]. intros Heq. specialize (Href n Hn).
        rewrite Heq in Href. congruence. }
    destruct Hkeep as [Hin Hne]. specialize (Href n Hin).
    apply existsb_exists in Href. destruct Href as (e & He & Hid).
    apply existsb_exists. exists e. split; [|exact Hid].
    apply filter_In. split; [exact He|].
    unfold has_id in *. apply String.eqb_eq in Hid. rewrite Hid.
    apply negb_true_iff. now apply String.eqb_neq.
  - rewrite Forall_forall in *. intros e He. apply filter_In in He.
    now apply Hd.
  - rewrite Forall_forall in *. intros e He. apply filter_In in He.
    now apply Hf.
Qed.

Lemma coerce_lengths (data data' : Changes.t) :
  EventRepository.coerce data = Some data' ->
  match Changes.name data' with
  | Some n => (String.length n <= 255)%nat
  | None => True
  end
  /\ match Changes.location data' with
     | Some (Some l) => (String.length l <= 255)%nat
     | _ => True
     end.
Proof.
  unfold EventRepository.coerce.
  destruct (Changes.name data) as [n|].
  - destruct (varchar 255 n) as [n'|] eqn:Hn; simpl; [|discriminate].
    apply varchar_length in Hn.
    destruct (Changes.location data) as [l|].
    + destruct (varchar_null 255 l) as [l'|] eqn:Hl; simpl; [|discriminate].
      apply varchar_null_length in Hl.
      intros H. inversion H. simpl. auto.
    + intros H. inversion H. simpl. auto.
  - destruct (Changes.location data) as [l|].
    + destruct (varchar_null 255 l) as [l'|] eqn:Hl; simpl; [|discriminate].
      apply varchar_null_length in Hl.
      intros H. inversion H. simpl. auto.
    + intros H. inversion H. simpl. auto.
Qed.

Lemma set_columns_fits (data data' : Changes.t) (e : Event.t) :
  EventRepository.coerce data = Some data' ->
  row_fits e ->
  row_fits (EventRepository.set_columns data' e).
Proof.
  intros Hco [Hn Hl]. apply coerce_lengths in Hco. destruct Hco as [Hn' Hl'].
  unfold row_fits, EventRepository.set_columns. simpl. split.
  - now destruct (Changes.name data').
  - now destruct (Changes.location data') as [[l|]|].
Qed.

(** The keys after an [UPDATE] that gives the row of key [id] the new
    key [id']. *)
Lemma rekeyed_keys (rows : list Event.t) (g : Event.t -> Event.t)
    (id id' : uuid) :
  (forall r, Event.id r = id -> Event.id (g r) = id') ->
  (forall r, Event.id r <> id -> g r = r) ->
  NoDup (map Event.id rows) ->
  ~ In id' (map Event.id rows) ->
  NoDup (map Event.id (map g rows))
  /\ (forall x, x <> id -> In x (map Event.id rows) ->
                In x (map Event.id (map g rows)))
  /\ (forall x, In x (map Event.id (map g rows)) ->
                x = id' \/ (x <> id /\ In x (map Event.id rows))).
Proof.
  intros Hhit Hmiss. induction rows as [|r rows IH]; simpl.
  - intros _ _. repeat split; [constructor|tauto|tauto].
  - intros Hnd Hnew. inversion Hnd as [|? ? Hnotin Hnd']. subst.
    destruct (IH Hnd' ltac:(tauto)) as (IH1 & IH2 & IH3).
    destruct (String.eqb_spec (Event.id r) id) as [Heq|Hne].
    + rewrite (Hhit r Heq). repeat split.
      * constructor; [|exact IH1]. intros Hin.
        destruct (IH3 id' Hin) as [_|[_ Hold]]; [|tauto].
        (* the other rows keep their keys, none of which is [id] *)
        clear - Hin Hnotin Hmiss Hnew Heq.
        apply in_map_iff in Hin. destruct Hin as (x & Hx & Hin).
        apply in_map_iff in Hin. destruct Hin as (y & Hy & Hin). subst x.
        destruct (String.eqb_spec (Event.id y) id) as [Hy|Hy].
        -- apply Hnotin. rewrite Heq, <- Hy. now apply in_map.
        -- rewrite (Hmiss y Hy) in Hx. apply Hnew. right.
           rewrite <- Hx. now apply in_map.
      * intros x Hx [Hin|Hin]; [congruence|]. right. now apply IH2.
      * intros x [Hin|Hin]; [now left|].
        destruct (IH3 x Hin) as [H|[H1 H2]]; auto.
    + rewrite (Hmiss r Hne). repeat split.
      * constructor; [|exact IH1]. intros Hin.
        destruct (IH3 _ Hin) as [H|[_ H]]; [|contradiction].
        apply Hnew. left. exact H.
      * intros x Hx [Hin|Hin]; [now left|]. right. now apply IH2.
      * intros x [Hin|Hin]; [right; split; [congruence|now left]|].
        destruct (IH3 x Hin) as [H|[H1 H2]]; auto.
Qed.

Lemma rekeys_some (id id' : uuid) (data : Changes.t) (db : Db) :
  EventRepository.rekeys id data db = Some id' ->
  Changes.id data = Some id' /\ id' <> id.
Proof.
  unfold EventRepository.rekeys.
  destruct (Changes.id data) as [i|]; [|discriminate].
  destruct (String.eqb_spec i id) as [Heq|Hne]; simpl; [discriminate|].
  destruct (existsb _ (events db)); [|discriminate].
  intros H. inversion H. subst. auto.
Qed.

Lemma rekeys_none (id : uuid) (data : Changes.t) (db : Db) (r : Event.t) :
  EventRepository.rekeys id data db = None ->
  In r (events db) ->
  Event.id (if has_id Event.id id r
            then EventRepository.set_columns data r
            else r)
  = Event.id r.
Proof.
  unfold EventRepository.rekeys. intros Hre Hin.
  destruct (has_id Event.id id r) eqn:Hr; [|reflexivity].
  unfold EventRepository.set_columns. simpl.
  destruct (Changes.id data) as [i|]; [|reflexivity].
  unfold has_id in Hr. apply String.eqb_eq in Hr.
  destruct (String.eqb_spec i id) as [Heq|Hne]; [congruence|].
  simpl in Hre.
  assert (Hex : existsb (has_id Event.id id) (events db) = true).
  { apply existsb_exists. exists r. split; [exact Hin|].
    unfold has_id. now apply String.eqb_eq. }
  rewrite Hex in Hre. discriminate.
Qed.

Lemma event_update_keeps (id : uuid) (data : Changes.t) :
  triple
    (fun db =>
       well_formed db
       /\ forall e data',
            find_event db id = Some e ->
            EventRepository.coerce data = Some data' ->
            dates_ok (EventRepository.set_columns data' e))
    (EventRepository.update id data)
    (fun _ db => well_formed db).
Proof.
  intros db db' r [Hwf Hdates] Hrun.
  destruct r as [r|x]; [|apply repo_update_throw in Hrun; now subst].
  pose proof Hrun as Hok. apply repo_update_ok in Hok.
  destruct Hok as (data' & Hco & Hdb & _).
  unfold EventRepository.update in Hrun. rewrite Hco in Hrun.
  destruct Hwf as (Hk & Href & Hd & Hf).
  assert (Hrows_dates : Forall dates_ok (events db')).
  { subst db'. simpl. unfold rewrite_events.
    apply Forall_forall. intros r' Hin. apply in_map_iff in Hin.
    destruct Hin as (e & He & Hin). subst r'.
    destruct (has_id Event.id id e) eqn:Hid.
    - apply Hdates; [|exact Hco].
      unfold find_event. unfold has_id in Hid. apply String.eqb_eq in Hid.
      destruct (select_by_id Event.id (events db) id) as [e0|] eqn:Hfind.
      + now rewrite (unique_row (events db) id e0 e Hk Hfind Hin Hid).
      + pose proof (select_by_id_existsb Event.id (events db) id) as Hnone.
        rewrite Hfind in Hnone.
        exfalso. assert (Hex : existsb (has_id Event.id id) (events db) = true).
        { apply existsb_exists. exists e. split; [exact Hin|].
          unfold has_id. now apply String.eqb_eq. }
        congruence.
    - rewrite Forall_forall in Hd. now apply Hd. }
  assert (Hrows_fit : Forall row_fits (events db')).
  { subst db'. simpl. unfold rewrite_events.
    apply Forall_forall. intros r' Hin. apply in_map_iff in Hin.
    destruct Hin as (e & He & Hin). subst r'.
    rewrite Forall_forall in Hf.
    destruct (has_id Event.id id e);
      [apply set_columns_fits with (data := data)|]; auto. }
  destruct (EventRepository.rekeys id data' db) as [id'|] eqn:Hre.
  - destruct (existsb (has_id Event.id id') (events db)) eqn:Hpk;
      [discriminate|].
    destruct (existsb _ (notifications db)) eqn:Hfk; [discriminate|].
    apply rekeys_some in Hre. destruct Hre as [Hid' Hne].
    destruct (rekeyed_keys (events db)
                (fun r => if has_id Event.id id r
                          then EventRepository.set_columns data' r else r)
                id id') as (Hn1 & Hn2 & _).
    + intros e He. unfold has_id. rewrite He, String.eqb_refl.
      unfold EventRepository.set_columns. simpl. now rewrite Hid'.
    + intros e He. unfold has_id. apply String.eqb_neq in He. now rewrite He.
    + exact Hk.
    + intros Hin. apply existsb_has_id_in in Hin. congruence.
    + unfold well_formed, keys_ok, references_ok. subst db'. simpl.
      repeat split; try assumption.
      intros n Hn. apply existsb_has_id_in. apply Hn2.
      * intros Heq.
        assert (Hsome : existsb
                          (fun x => String.eqb (Notification.eventId x) id)
                          (notifications db) = true).
        { apply existsb_exists. exists n. split; [exact Hn|].
          now apply String.eqb_eq. }
        congruence.
      * apply existsb_has_id_in. now apply Href.
  - assert (Hids : map Event.id (events db') = map Event.id (events db)).
    { subst db'. simpl. unfold rewrite_events. rewrite map_map.
      apply map_ext_in. intros e He. now apply rekeys_none with (db := db). }
    unfold well_formed, keys_ok, references_ok.
    rewrite Hids. repeat split; try assumption.
    intros n Hn. apply existsb_has_id_in. rewrite Hids.
    apply existsb_has_id_in. apply Href. subst db'. exact Hn.
Qed.

(** ** Service methods *)

Lemma triple_run {A} (P : Db -> Prop) (m : M A) (Q : Outcome A -> Db -> Prop)
    (db db' : Db) (r : Outcome A) :
  m db = (db', r) -> triple P m Q -> P db -> Q r db'.
Proof. intros Hrun Hm HP. now apply (Hm db db' r). Qed.

Lemma unchanged_dates (data : Changes.t) (db : Db) (id : uuid) :
  Changes.startDate data = None ->
  Changes.endDate data = None ->
  well_formed db ->
  forall e data',
    find_event db id = Some e ->
    EventRepository.coerce data = Some data' ->
    dates_ok (EventRepository.set_columns data' e).
Proof.
  intros Hs He (_ & _ & Hd & _) e data' Hfind Hco.
  apply coerce_dates in Hco. destruct Hco as (_ & _ & Hs' & He' & _).
  apply set_columns_dates with (changes := data); auto.
  - rewrite Forall_forall in Hd. apply Hd.
    now apply select_by_id_in with (row_id := Event.id) (id := id).
  - unfold EventService.carries_date. rewrite Hs, He. discriminate.
Qed.

Lemma create_keeps (env : Env) (data : NewEvent.t) :
  triple well_formed (EventService.create env data)
    (fun _ db => well_formed db).
Proof.
  intros db db' r Hwf Hrun. unfold EventService.create in Hrun.
  unfold bind at 1 in Hrun. unfold validate, ret at 1 in Hrun.
  unfold bind at 1 in Hrun. unfold EventService.validateEventDates in Hrun.
  assert (Hcases :
    (new_dates_ok data
     /\ (created <- EventRepository.create env
                      (NewEvent.mk (NewEvent.id data) (NewEvent.name data)
                         (NewEvent.description data)
                         (Some (match NewEvent.status data with
                                | Some s => s
                                | None => draft
                                end))
                         (NewEvent.startDate data) (NewEvent.endDate data)
                         (NewEvent.location data) (NewEvent.tags data)
                         (NewEvent.notificationCount data)
                         (NewEvent.createdAt data) (Some (now env))) ;;
         NotificationRepository.create env
           (NewNotification.mk None (Event.id created) "Event Created"
              (Some ("Event " ++ dquote ++ Event.name created ++ dquote
                     ++ " has been created")) None None) ;;;
         ret (formatForResponse created)) db = (db', r))
    \/ db' = db).
  { unfold new_dates_ok. destruct (NewEvent.endDate data) as [d|].
    - destruct (d <=? NewEvent.startDate data) eqn:Hle; simpl in Hrun.
      + right. now inversion Hrun.
      + left. apply Z.leb_gt in Hle. auto.
    - left. simpl in Hrun. auto. }
  destruct Hcases as [[Hdates Hrest]|Hsame]; [|now subst].
  clear Hrun.
  step Hrest db1 created Hcreate;
    match type of Hcreate with
    | EventRepository.create _ ?d _ = _ =>
        pose proof (triple_run _ _ _ _ _ _ Hcreate
                      (event_create_keeps env d Hdates) Hwf) as Hwf1
    end;
    [|exact Hwf1].
  step Hrest db2 n Hn;
    pose proof (triple_run _ _ _ _ _ _ Hn
                  (notification_create_keeps env _) Hwf1) as Hwf2;
    [|exact Hwf2].
  inversion Hrest. now subst.
Qed.

Lemma update_keeps (env : Env) (id : uuid) (changes : Changes.t) :
  triple well_formed (EventService.update env id changes)
    (fun _ db => well_formed db).
Proof.
  intros db db' r Hwf Hrun. rewrite update_steps in Hrun.
  unfold bind at 1 2 in Hrun. unfold validate, ret at 1 in Hrun.
  rewrite date_check_run in Hrun.
  set (check := if EventService.carries_date changes then _ else _) in Hrun.
  destruct check as [[]|x] eqn:Hcheck; [|inversion Hrun; now subst].
  assert (Hdates :
    forall e data',
      find_event db id = Some e ->
      EventRepository.coerce (stamped env changes) = Some data' ->
      dates_ok (EventRepository.set_columns data' e)).
  { intros e data' Hfind Hco.
    apply coerce_dates in Hco. destruct Hco as (_ & _ & Hs & He & _).
    apply set_columns_dates with (changes := changes); auto.
    - destruct Hwf as (_ & _ & Hd & _). rewrite Forall_forall in Hd.
      apply Hd. now apply select_by_id_in with (row_id := Event.id) (id := id).
    - intros Hc. subst check. rewrite Hc, Hfind in Hcheck.
      destruct (effective_end changes e) as [d|]; [|exact I].
      destruct (d <=? effective_start changes e) eqn:Hle; [discriminate|].
      now apply Z.leb_gt in Hle. }
  step Hrun db1 updated Hupd;
    pose proof (triple_run _ _ _ _ _ _ Hupd
                  (event_update_keeps id (stamped env changes))
                  (conj Hwf Hdates)) as Hwf1;
    [|exact Hwf1].
  unfold bind at 1 in Hrun.
  destruct updated as [updated|]; simpl in Hrun;
    [|inversion Hrun; now subst].
  unfold bind at 1 in Hrun. unfold notify_update in Hrun.
  destruct (EventService.significant changes).
  - unfold bind at 1 in Hrun.
    destruct (NotificationRepository.create env _ db1) as [db2 [n|x]] eqn:Hn;
      pose proof (triple_run _ _ _ _ _ _ Hn
                    (notification_create_keeps env _) Hwf1) as Hwf2;
      inversion Hrun; now subst.
  - inversion Hrun. now subst.
Qed.

Lemma remove_keeps (id : uuid) :
  triple well_formed (EventService.remove id) (fun _ db => well_formed db).
Proof.
  intros db db' r Hwf Hrun. unfold EventService.remove, bind, validate, ret
    in Hrun.
  exact (triple_run _ _ _ _ _ _ Hrun (event_delete_keeps id) Hwf).
Qed.

Lemma status_change_keeps (env : Env) (id : uuid) (s : EventStatus)
    (title message : string) (db db' : Db) (r : Outcome (option Event.t)) :
  well_formed db ->
  (updated <- EventRepository.update id
                (Changes.mk None None None (Some s) None None None None None
                   None (Some (now env))) ;;
   NotificationRepository.create env
     (NewNotification.mk None id title (Some message) None None) ;;;
   ret (option_map formatForResponse updated)) db = (db', r) ->
  well_formed db'.
Proof.
  intros Hwf Hrun.
  step Hrun db1 updated Hupd;
    match type of Hupd with
    | EventRepository.update _ ?d _ = _ =>
        pose proof (triple_run _ _ _ _ _ _ Hupd
                      (event_update_keeps id d)
                      (conj Hwf (unchanged_dates d db id eq_refl eq_refl Hwf)))
          as Hwf1
    end;
    [|exact Hwf1].
  step Hrun db2 n Hn;
    pose proof (triple_run _ _ _ _ _ _ Hn
                  (notification_create_keeps env _) Hwf1) as Hwf2;
    [|exact Hwf2].
  inversion Hrun. now subst.
Qed.

Lemma publish_keeps (env : Env) (id : uuid) :
  triple well_formed (EventService.publish env id)
    (fun _ db => well_formed db).
Proof.
  intros db db' r Hwf Hrun. unfold EventService.publish in Hrun.
  unfold bind at 1 2, EventRepository.findById in Hrun.
  destruct (select_by_id Event.id (events db) id) as [e|]; simpl in Hrun;
    [|inversion Hrun; now subst].
  unfold bind at 1 in Hrun.
  destruct (negb (status_eqb (Event.status e) draft)); simpl in Hrun;
    [inversion Hrun; now subst|].
  now apply status_change_keeps in Hrun.
Qed.

Lemma archive_keeps (env : Env) (id : uuid) :
  triple well_formed (EventService.archive env id)
    (fun _ db => well_formed db).
Proof.
  intros db db' r Hwf Hrun. unfold EventService.archive in Hrun.
  unfold bind at 1 2, EventRepository.findById in Hrun.
  destruct (select_by_id Event.id (events db) id) as [e|]; simpl in Hrun;
    [|inversion Hrun; now subst].
  unfold bind at 1 in Hrun.
  destruct (status_eqb (Event.status e) archived); simpl in Hrun;
    [inversion Hrun; now subst|].
  now apply status_change_keeps in Hrun.
Qed.

Lemma duplicate_keeps (env : Env) (id : uuid) :
  triple well_formed (EventService.duplicate env id)
    (fun _ db => well_formed db).
Proof.
  intros db db' r Hwf Hrun. unfold EventService.duplicate in Hrun.
  unfold bind at 1 2, EventRepository.findById in Hrun.
  destruct (select_by_id Event.id (events db) id) as [e|] eqn:Hfind;
    simpl in Hrun; [|inversion Hrun; now subst].
  assert (Hdates : dates_ok e).
  { destruct Hwf as (_ & _ & Hd & _). rewrite Forall_forall in Hd.
    apply Hd. now apply select_by_id_in with (row_id := Event.id) (id := id). }
  step Hrun db1 duplicated Hcreate;
    match type of Hcreate with
    | EventRepository.create _ ?d _ = _ =>
        pose proof (triple_run _ _ _ _ _ _ Hcreate
                      (event_create_keeps env d Hdates) Hwf) as Hwf1
    end;
    [|exact Hwf1].
  step Hrun db2 n Hn;
    pose proof (triple_run _ _ _ _ _ _ Hn
                  (notification_create_keeps env _) Hwf1) as Hwf2;
    [|exact Hwf2].
  inversion Hrun. now subst.
Qed.

Lemma createEventNotification_keeps (env : Env) (eventId : uuid)
    (title message type : string) :
  triple well_formed
    (NotificationService.createEventNotification env eventId title message type)
    (fun _ db => well_formed db).
Proof.
  intros db db' r Hwf Hrun.
  unfold NotificationService.createEventNotification in Hrun.
  unfold bind at 1 in Hrun.
  destruct (negb (existsb (String.eqb type)
                    NotificationService.VALID_NOTIFICATION_TYPES));
    simpl in Hrun; [inversion Hrun; now subst|].
  step Hrun db1 n Hn;
    pose proof (triple_run _ _ _ _ _ _ Hn
                  (notification_create_keeps env _) Hwf) as Hwf1;
    [|exact Hwf1].
  inversion Hrun. now subst.
Qed.

Lemma markAsRead_service_keeps (id : uuid) :
  triple well_formed (NotificationService.markAsRead id)
    (fun _ db => well_formed db).
Proof.
  intros db db' r Hwf Hrun. unfold NotificationService.markAsRead in Hrun.
  unfold bind at 1 2, NotificationRepository.findById in Hrun.
  destruct (select_by_id Notification.id (notifications db) id) as [n|];
    simpl in Hrun; [|inversion Hrun; now subst].
  destruct (Notification.isRead n =? 1); [inversion Hrun; now subst|].
  step Hrun db1 updated Hupd;
    pose proof (triple_run _ _ _ _ _ _ Hupd (markAsRead_keeps id) Hwf) as Hwf1;
    [|exact Hwf1].
  inversion Hrun. now subst.
Qed.

Lemma markAllReadForEvent_keeps (eventId : uuid) :
  triple well_formed (NotificationService.markAllReadForEvent eventId)
    (fun _ db => well_formed db).
Proof.
  intros db db' r Hwf Hrun.
  unfold NotificationService.markAllReadForEvent in Hrun.
  step Hrun db1 updated Hupd;
    pose proof (triple_run _ _ _ _ _ _ Hupd
                  (markAllAsReadForEvent_keeps eventId) Hwf) as Hwf1;
    [|exact Hwf1].
  inversion Hrun. now subst.
Qed.

Lemma run_keeps (c : Call) (db : Db) : well_formed db -> well_formed (run c db).
Proof.
  intros Hwf.
  destruct c; unfold run;
    match goal with
    | |- well_formed (fst (?m db)) =>
        destruct (m db) as [db' r] eqn:Hrun; unfold fst;
        eapply (triple_run _ _ _ _ _ _ Hrun); [|exact Hwf]
    end.
  - apply create_keeps.
  - apply update_keeps.
  - apply remove_keeps.
  - apply publish_keeps.
  - apply archive_keeps.
  - apply duplicate_keeps.
  - apply createEventNotification_keeps.
  - apply markAsRead_service_keeps.
  - apply markAllReadForEvent_keeps.
Qed.

(** X1.  Every database that service calls build from empty tables,
    whether the calls return or throw half-way, is well formed: event
    keys are unique, notifications reference existing events, end dates
    follow start dates, names and locations fit their columns. *)
Theorem reachable_well_formed (db : Db) : reachable db -> well_formed db.
Proof.
  induction 1 as [|c db Hreach IH].
  - unfold well_formed, keys_ok, references_ok. simpl.
    repeat split; try constructor. intros n [].
  - now apply run_keeps.
Qed.

Lemma reachable_well_formed_witness :
  well_formed (run (DuplicateEvent (mkEnv 1736500000500 "e-copy" "n-copy")
                      "e-new")
                 (run (CreateEvent sample_env
                         (NewEvent.mk None "Launch" None None 1736467200000
                            (Some 1736553600000) None None None None None))
                    (mkDb [] [] 0))).
Proof.
  apply reachable_well_formed. repeat constructor.
Defined.

(* ================================================================== *)
(** * Further properties of the services *)
(* ================================================================== *)









(** X3.  [createEventNotification] accepts the types [info], [warning],
    [error] and [success] only: any other type throws an
    InvalidArgument error before anything is written.  With a valid
    type the notification is stored unread. *)
Theorem createEventNotification_checks_type (env : Env) (eventId : uuid)
    (title message type : string) (db : Db) :
  (~ In type ["info"; "warning"; "error"; "success"] ->
   exists x,
     NotificationService.createEventNotification env eventId title message
       type db
     = (db, Throw x)
     /\ error_kind x = InvalidArgument)
  /\ (In type ["info"; "warning"; "error"; "success"] ->
      forall db' n,
        NotificationService.createEventNotification env eventId title
          message type db
        = (db', Ok n) ->
        Notification.isRead n = 0
        /\ Notification.eventId n = eventId
        /\ notifications db' = (notifications db ++ [n])%list).
Proof.
  unfold NotificationService.createEventNotification.
  assert (Hvalid :
    existsb (String.eqb type) NotificationService.VALID_NOTIFICATION_TYPES
    = true
    <-> In type ["info"; "warning"; "error"; "success"]).
  { rewrite existsb_exists. split.
    - intros (x & Hin & Heq). apply String.eqb_eq in Heq. now subst.
    - intros Hin. exists type. split; [exact Hin|apply String.eqb_refl]. }
  split.
  - intros Hbad. unfold bind at 1.
    destruct (existsb (String.eqb type)
                NotificationService.VALID_NOTIFICATION_TYPES);
      [exfalso; apply Hbad; now apply Hvalid|].
    simpl. eexists. split; reflexivity.
  - intros Hgood db' n. apply Hvalid in Hgood. unfold bind at 1.
    rewrite Hgood. simpl. unfold bind.
    unfold NotificationRepository.create, bind, NotificationRepository.insert.
    simpl.
    destruct (varchar 255 title) as [title'|]; [|discriminate].
    destruct (existsb _ (notifications db)); [discriminate|].
    destruct (existsb _ (events db)); simpl; [|discriminate].
    unfold ret, formatForResponse. intros H. inversion H. subst. auto.
Qed.

Lemma createEventNotification_checks_type_witness :
  exists x,
    NotificationService.createEventNotification sample_env "e1" "Room change"
      "Moved to hall B" "urgent" sample_db
    = (sample_db, Throw x)
    /\ error_kind x = InvalidArgument.
Proof.
  destruct (createEventNotification_checks_type sample_env "e1" "Room change"
              "Moved to hall B" "urgent" sample_db) as [H _].
  apply H. simpl. intuition discriminate.
Defined.

(** X4.  [create(data)], for data with ordered dates and texts that fit
    their columns: the event is stored under a generated id with the
    status of [data], or [draft] when [data] has none, and [updatedAt]
    set to the current time; one "Event Created" notification that
    references the new id is appended; the stored row is returned. *)
Theorem create_defaults_to_draft_and_notifies (env : Env) (data : NewEvent.t)
    (db : Db) :
  new_dates_ok data ->
  (String.length (NewEvent.name data) <= 255)%nat ->
  match NewEvent.location data with
  | Some l => (String.length l <= 255)%nat
  | None => True
  end ->
  NewEvent.id data = None ->
  fresh_event_id env db ->
  fresh_notification_id env db ->
  exists db' e,
    EventService.create env data db = (db', Ok e)
    /\ Event.id e = uuid_event env
    /\ Event.status e
       = match NewEvent.status data with Some s => s | None => draft end
    /\ Event.name e = NewEvent.name data
    /\ Event.startDate e = NewEvent.startDate data
    /\ Event.endDate e = NewEvent.endDate data
    /\ Event.updatedAt e = now env
    /\ find_event db' (uuid_event env) = Some e
    /\ notifications db'
       = (notifications db
          ++ [lifecycle_notification env (uuid_event env) "Event Created"
                ("Event " ++ dquote ++ NewEvent.name data ++ dquote
                 ++ " has been created")])%list.
Proof.
  intros Hdates Hname Hloc Hid Hfresh_e Hfresh_n.
  unfold EventService.create. unfold bind at 1 2. unfold validate, ret at 1.
  assert (Hvalid :
    EventService.validateEventDates (NewEvent.startDate data)
      (NewEvent.endDate data) db = (db, Ok tt)).
  { unfold EventService.validateEventDates, new_dates_ok in *.
    destruct (NewEvent.endDate data) as [d|]; [|reflexivity].
    destruct (Z.leb_spec d (NewEvent.startDate data)); [lia|reflexivity]. }
  rewrite Hvalid. unfold bind at 1.
  unfold EventRepository.create, bind at 1, EventRepository.insert.
  cbn [NewEvent.name NewEvent.location NewEvent.id NewEvent.status
       NewEvent.description NewEvent.startDate NewEvent.endDate NewEvent.tags
       NewEvent.notificationCount NewEvent.createdAt NewEvent.updatedAt].
  rewrite varchar_fits by exact Hname.
  rewrite varchar_null_fits by exact Hloc.
  rewrite Hid. unfold fresh_event_id in Hfresh_e. rewrite Hfresh_e.
  unfold ret at 1. unfold bind.
  rewrite notification_create.
  - eexists. eexists. split; [reflexivity|].
    repeat split.
    unfold find_event. simpl. rewrite select_by_id_app.
    rewrite select_by_id_missing by exact Hfresh_e.
    unfold has_id. simpl. now rewrite String.eqb_refl.
  - reflexivity.
  - exact Hfresh_n.
  - simpl. rewrite existsb_app. simpl.
    unfold has_id at 2. simpl. rewrite String.eqb_refl. apply orb_true_r.
Qed.

Lemma create_defaults_to_draft_and_notifies_witness :
  exists db' e,
    EventService.create sample_env
      (NewEvent.mk None "Launch" None None 1736467200000 (Some 1736553600000)
         None None None None None)
      sample_db
    = (db', Ok e)
    /\ Event.status e = draft
    /\ List.length (notifications db') = 4%nat.
Proof.
  destruct (create_defaults_to_draft_and_notifies sample_env
              (NewEvent.mk None "Launch" None None 1736467200000
                 (Some 1736553600000) None None None None None)
              sample_db eq_refl ltac:(simpl; lia) I eq_refl eq_refl eq_refl)
    as (db' & e & Hrun & _ & Hstatus & _ & _ & _ & _ & _ & Hn).
  exists db', e. split; [exact Hrun|]. split; [exact Hstatus|].
  rewrite Hn. reflexivity.
Defined.

Lemma rewrite_events_missing (f : Event.t -> Event.t) (id : uuid) (db : Db) :
  find_event db id = None -> rewrite_events f id db = events db.
Proof.
  unfold find_event, rewrite_events, select_by_id.
  induction (events db) as [|e rows IH]; simpl; [reflexivity|].
  destruct (has_id Event.id id e); [discriminate|].
  intros H. now rewrite IH.
Qed.



(* ================================================================== *)
(** * Cancelling an event *)
(* ================================================================== *)

Lemma createEventNotification_run (env : Env) (eventId : uuid)
    (title message type : string) (db : Db) :
  In type NotificationService.VALID_NOTIFICATION_TYPES ->
  (String.length title <= 255)%nat ->
  fresh_notification_id env db ->
  existsb (has_id Event.id eventId) (events db) = true ->
  NotificationService.createEventNotification env eventId title message type db
  = (mkDb (events db)
          (notifications db
           ++ [lifecycle_notification env eventId title message])
          (S (writes db)),
     Ok (lifecycle_notification env eventId title message)).
Proof.
  intros Htype Htitle Hfresh Hevent.
  unfold NotificationService.createEventNotification, bind at 1.
  assert (Hvalid : existsb (String.eqb type)
                     NotificationService.VALID_NOTIFICATION_TYPES = true).
  { apply existsb_exists. exists type. split; [exact Htype|apply String.eqb_refl]. }
  rewrite Hvalid. simpl negb. cbv iota. unfold ret at 1. cbv beta iota.
  unfold bind, NotificationRepository.create, bind, NotificationRepository.insert.
  simpl. rewrite varchar_fits by exact Htitle.
  unfold fresh_notification_id in Hfresh. rewrite Hfresh, Hevent.
  reflexivity.
Qed.


(** X6.  [cancelEvent] on an existing event.  An event that is archived
    already is refused with "Event is already archived" and nothing is
    written, reason or not.  Any other event is archived as a whole,
    whatever [occurrence] the body names: the row gets the status
    [archived] and the clock, other events are untouched, and the
    notifications grow by "Event Archived" followed, when the body
    states a reason that is not empty, by an unread "Event Cancelled"
    whose message ends with the reason. *)
Theorem cancelEvent_archives_and_records_reason (env env' : Env)
    (eventId : uuid) (body : option OpenAPIServiceHandlers.CancelBody)
    (db : Db) (e : Event.t) :
  find_event db eventId = Some e ->
  fresh_notification_id env db ->
  fresh_notification_id env' db ->
  uuid_notification env' <> uuid_notification env ->
  (Event.status e = archived ->
   OpenAPIServiceHandlers.cancelEvent env env' eventId body db
   = (db, Throw (Error "Event is already archived")))
  /\ (Event.status e <> archived ->
      exists db',
        OpenAPIServiceHandlers.cancelEvent env env' eventId body db
        = (db', Ok (Some (with_status archived (now env) e)))
        /\ find_event db' eventId = Some (with_status archived (now env) e)
        /\ (forall id', id' <> eventId -> find_event db' id' = find_event db id')
        /\ notifications db'
           = (notifications db
              ++ [lifecycle_notification env eventId "Event Archived"
                    ("Event " ++ dquote ++ Event.name e ++ dquote
                     ++ " has been archived")]
              ++ match stated_reason body with
                 | Some r => [cancellation_notification env' eventId r]
                 | None => []
                 end)%list).
Proof.
  intros Hfind Hfresh Hfresh' Hdistinct. split.
  - intros Harchived. unfold OpenAPIServiceHandlers.cancelEvent, bind at 1.
    now rewrite (archive_refused env eventId db e Hfind Harchived).
  - intros Hlive. unfold OpenAPIServiceHandlers.cancelEvent, bind at 1.
    rewrite (archive_live env eventId db e Hfind Hlive Hfresh).
    unfold bind at 1. fold (stated_reason body).
    assert (Hkey : forall r, Event.id (with_status archived (now env) r)
                             = Event.id r) by reflexivity.
    destruct (stated_reason body) as [r|].
    + unfold bind at 1. rewrite createEventNotification_run.
      * eexists. split; [reflexivity|]. cbn [notifications events].
        split; [now apply find_rewritten_same|].
        split; [intros id' Hid'; now apply find_rewritten_other|].
        now rewrite <- app_assoc.
      * simpl. tauto.
      * simpl. lia.
      * unfold fresh_notification_id in *. cbn [notifications].
        rewrite existsb_app, Hfresh'. simpl.
        unfold has_id. simpl. rewrite orb_false_r.
        apply String.eqb_neq. congruence.
      * cbn [events]. rewrite rewrite_events_exists by exact Hkey.
        now apply select_by_id_found with (r := e).
    + eexists. split; [reflexivity|]. cbn [notifications events].
      split; [now apply find_rewritten_same|].
      split; [intros id' Hid'; now apply find_rewritten_other|].
      reflexivity.
Qed.

Lemma cancelEvent_archives_and_records_reason_witness :
  exists db',
    OpenAPIServiceHandlers.cancelEvent sample_env
      (mkEnv 1736500000100 "e-new" "n-reason") "e1"
      (Some (OpenAPIServiceHandlers.mkCancelBody (Some "2024-12-16")
               (Some "Venue closed")))
      sample_db
    = (db', Ok (Some (with_status archived (now sample_env) tech_conference)))
    /\ List.length (notifications db') = 5%nat.
Proof.
  destruct (cancelEvent_archives_and_records_reason sample_env
              (mkEnv 1736500000100 "e-new" "n-reason") "e1"
              (Some (OpenAPIServiceHandlers.mkCancelBody (Some "2024-12-16")
                       (Some "Venue closed")))
              sample_db tech_conference)
    as [_ Hlive]; try reflexivity; try discriminate.
  destruct Hlive as (db' & Hrun & _ & _ & Hn); [discriminate|].
  exists db'. split; [exact Hrun|]. rewrite Hn. reflexivity.
Defined.

(* ================================================================== *)
(** * Duplicating with overrides *)
(* ================================================================== *)

Lemma update_keyless_run (env : Env) (id : uuid) (changes data' : Changes.t)
    (db : Db) (e : Event.t) :
  find_event db id = Some e ->
  Changes.id changes = None ->
  EventRepository.coerce (stamped env changes) = Some data' ->
  EventService.carries_date changes = false ->
  (EventService.significant changes = true -> fresh_notification_id env db) ->
  EventService.update env id changes db
  = (mkDb (rewrite_events (EventRepository.set_columns data') id db)
          (notifications db
           ++ if EventService.significant changes
              then [update_notification env id]
              else [])
          (if EventService.significant changes
           then S (S (writes db))
           else S (writes db)),
     Ok (EventRepository.set_columns data' e)).
Proof.
  intros Hfind Hid Hcoerce Hnodate Hfresh.
  assert (Hid' : Changes.id data' = None).
  { destruct (coerce_dates _ _ Hcoerce) as (H & _). now rewrite H. }
  rewrite update_steps. unfold bind at 1 2. unfold validate, ret at 1.
  rewrite date_check_run, Hnodate. unfold bind at 1.
  unfold EventRepository.update. rewrite Hcoerce.
  unfold EventRepository.rekeys. rewrite Hid'.
  unfold update_where_id. rewrite returning_head.
  fold (find_event db id). rewrite Hfind.
  fold (rewrite_events (EventRepository.set_columns data') id db).
  simpl option_map. cbv beta iota. unfold assertExists at 1, bind at 1, ret at 1.
  unfold bind at 1. unfold notify_update.
  destruct (EventService.significant changes).
  - unfold bind. rewrite notification_create.
    + reflexivity.
    + reflexivity.
    + now apply Hfresh.
    + simpl. rewrite rewrite_events_exists.
      * now apply select_by_id_found with (r := e).
      * intros r. now apply set_columns_key.
  - simpl. now rewrite app_nil_r.
Qed.

Lemma overrides_coerce (env : Env) (b : OpenAPIServiceHandlers.DuplicateBody) :
  body_fits (Some b) ->
  EventRepository.coerce (stamped env (OpenAPIServiceHandlers.overrides b))
  = Some (stamped env (OpenAPIServiceHandlers.overrides b)).
Proof.
  unfold body_fits, EventRepository.coerce, stamped,
    OpenAPIServiceHandlers.overrides. simpl.
  destruct (OpenAPIServiceHandlers.name b) as [n|]; intros Hfit.
  - now rewrite varchar_fits.
  - reflexivity.
Qed.

Lemma overrides_significant (b : OpenAPIServiceHandlers.DuplicateBody) :
  EventService.significant (OpenAPIServiceHandlers.overrides b)
  = renames (Some b).
Proof.
  unfold EventService.significant, OpenAPIServiceHandlers.overrides, renames,
    given. simpl.
  destruct (OpenAPIServiceHandlers.name b) as [n|]; [|reflexivity].
  destruct (truthy n); reflexivity.
Qed.

Lemma duplicateEvent_run (env env' : Env) (eventId : uuid)
    (body : option OpenAPIServiceHandlers.DuplicateBody) (db : Db) (e : Event.t) :
  find_event db eventId = Some e ->
  (String.length (Event.name e) <= 248)%nat ->
  row_fits e ->
  fresh_event_id env db ->
  fresh_notification_id env db ->
  fresh_notification_id env' db ->
  uuid_notification env' <> uuid_notification env ->
  body_fits body ->
  exists db',
    OpenAPIServiceHandlers.duplicateEvent env env' eventId body db
    = (db', Ok (201, overridden env' body (copy_of env e)))
    /\ events db' = (events db ++ [overridden env' body (copy_of env e)])%list
    /\ notifications db'
       = (notifications db
          ++ [lifecycle_notification env (uuid_event env) "Event Duplicated"
                ("Event " ++ dquote ++ (Event.name e ++ " (Copy)") ++ dquote
                 ++ " has been created as a copy")]
          ++ if renames body
             then [update_notification env' (uuid_event env)]
             else [])%list.
Proof.
  intros Hfind Hname Hfits Hfresh_e Hfresh_n Hfresh_n' Hdistinct Hbody.
  unfold OpenAPIServiceHandlers.duplicateEvent, bind at 1.
  rewrite (duplicate_run env eventId db e Hfind Hname Hfits Hfresh_e Hfresh_n).
  unfold bind at 1.
  destruct body as [b|]; [|unfold overridden, renames; cbn [events notifications];
                            eexists; split; [reflexivity|];
                            split; [reflexivity|now rewrite app_nil_r]].
  unfold overridden, renames.
  destruct (OpenAPIServiceHandlers.has_overrides (Some b)) eqn:Hover.
  2:{ unfold OpenAPIServiceHandlers.has_overrides in Hover.
      destruct (given (OpenAPIServiceHandlers.name b)); [discriminate|].
      eexists. split; [reflexivity|]. cbn [events notifications].
      split; [reflexivity|now rewrite app_nil_r]. }
  set (db1 := mkDb (events db ++ [copy_of env e]) _ _).
  assert (Hcopy : find_event db1 (uuid_event env) = Some (copy_of env e)).
  { unfold find_event, db1. cbn [events]. rewrite select_by_id_app.
    rewrite select_by_id_missing by exact Hfresh_e.
    unfold has_id. simpl. now rewrite String.eqb_refl. }
  change (Event.id (copy_of env e)) with (uuid_event env).
  rewrite (update_keyless_run env' (uuid_event env)
             (OpenAPIServiceHandlers.overrides b)
             (stamped env' (OpenAPIServiceHandlers.overrides b)) db1
             (copy_of env e) Hcopy eq_refl (overrides_coerce env' b Hbody)
             eq_refl).
  - rewrite overrides_significant. fold (renames (Some b)).
    eexists. split; [reflexivity|]. cbn [events notifications].
    split.
    + unfold rewrite_events, db1. cbn [events]. rewrite map_app. simpl.
      unfold has_id at 2. simpl. rewrite String.eqb_refl.
      f_equal. rewrite <- (map_id (events db)) at 2.
      apply map_ext_in. intros r Hr.
      destruct (has_id Event.id (uuid_event env) r) eqn:Hr'; [|reflexivity].
      unfold fresh_event_id in Hfresh_e.
      assert (existsb (has_id Event.id (uuid_event env)) (events db) = true)
        by (apply existsb_exists; now exists r).
      congruence.
    + unfold db1. cbn [notifications]. now rewrite <- app_assoc.
  - intros _. unfold fresh_notification_id in *. unfold db1.
    cbn [notifications]. rewrite existsb_app, Hfresh_n'. simpl.
    unfold has_id. simpl. rewrite orb_false_r.
    apply String.eqb_neq. congruence.
Qed.

Lemma overridden_columns (env' : Env)
    (body : option OpenAPIServiceHandlers.DuplicateBody) (copy : Event.t) :
  Event.id (overridden env' body copy) = Event.id copy
  /\ Event.status (overridden env' body copy) = Event.status copy
  /\ Event.name (overridden env' body copy)
     = override_name body (Event.name copy)
  /\ Event.tags (overridden env' body copy)
     = override_tags body (Event.tags copy)
  /\ Event.description (overridden env' body copy) = Event.description copy
  /\ Event.startDate (overridden env' body copy) = Event.startDate copy
  /\ Event.endDate (overridden env' body copy) = Event.endDate copy
  /\ Event.location (overridden env' body copy) = Event.location copy
  /\ Event.updatedAt (overridden env' body copy)
     = if OpenAPIServiceHandlers.has_overrides body
       then now env'
       else Event.updatedAt copy.
Proof.
  unfold overridden, override_name, override_tags.
  destruct body as [b|]; [|repeat split].
  destruct (OpenAPIServiceHandlers.has_overrides (Some b)); [|repeat split].
  unfold EventRepository.set_columns, stamped, OpenAPIServiceHandlers.overrides.
  simpl.
  destruct (OpenAPIServiceHandlers.name b), (OpenAPIServiceHandlers.tags b);
    repeat split.
Qed.

(** X7.  [duplicateEvent] with a body.  For a source event that
    [duplicate] accepts, the reply is 201 with a draft copy under the
    new key.  When the body has a name that is not empty, or tags, the
    keys it has replace the columns of the copy, an empty name included;
    otherwise the copy keeps the suffixed name and the tags of the
    source.  Description, dates and location are the source's.  The
    source row and its notifications are untouched; the copy has its
    "Event Duplicated" notification, which still quotes the suffixed
    name, followed by "Event Updated" when the body renames it. *)
Theorem duplicateEvent_applies_overrides (env env' : Env) (eventId : uuid)
    (body : option OpenAPIServiceHandlers.DuplicateBody) (db : Db)
    (e : Event.t) :
  find_event db eventId = Some e ->
  (String.length (Event.name e) <= 248)%nat ->
  row_fits e ->
  references_ok db ->
  fresh_event_id env db ->
  fresh_notification_id env db ->
  fresh_notification_id env' db ->
  uuid_notification env' <> uuid_notification env ->
  body_fits body ->
  exists db' copy,
    OpenAPIServiceHandlers.duplicateEvent env env' eventId body db
    = (db', Ok (201, copy))
    /\ Event.id copy = uuid_event env
    /\ Event.status copy = draft
    /\ Event.name copy = override_name body (Event.name e ++ " (Copy)")
    /\ Event.tags copy = override_tags body (Event.tags e)
    /\ Event.description copy = Event.description e
    /\ Event.startDate copy = Event.startDate e
    /\ Event.endDate copy = Event.endDate e
    /\ Event.location copy = Event.location e
    /\ find_event db' (uuid_event env) = Some copy
    /\ find_event db' eventId = Some e
    /\ notifications_of db' eventId = notifications_of db eventId
    /\ notifications_of db' (uuid_event env)
       = (lifecycle_notification env (uuid_event env) "Event Duplicated"
            ("Event " ++ dquote ++ (Event.name e ++ " (Copy)") ++ dquote
             ++ " has been created as a copy")
          :: if renames body
             then [update_notification env' (uuid_event env)]
             else [])%list.
Proof.
  intros Hfind Hname Hfits Hrefs Hfresh_e Hfresh_n Hfresh_n' Hdistinct Hbody.
  destruct (duplicateEvent_run env env' eventId body db e Hfind Hname Hfits
              Hfresh_e Hfresh_n Hfresh_n' Hdistinct Hbody)
    as (db' & Hrun & Hevents & Hnotifs).
  destruct (overridden_columns env' body (copy_of env e))
    as (Hid & Hstatus & Hnm & Htags & Hdesc & Hstart & Hend & Hloc & _).
  assert (Hother : eventId <> uuid_event env).
  { intros ->. unfold fresh_event_id in Hfresh_e.
    apply select_by_id_found in Hfind. congruence. }
  assert (Hsplit : forall id,
            notifications_of db' id
            = (notifications_of db id
               ++ filter (fun n => String.eqb (Notification.eventId n) id)
                    (lifecycle_notification env (uuid_event env)
                       "Event Duplicated"
                       ("Event " ++ dquote ++ (Event.name e ++ " (Copy)")
                        ++ dquote ++ " has been created as a copy")
                     :: if renames body
                        then [update_notification env' (uuid_event env)]
                        else []))%list).
  { intros id. unfold notifications_of. rewrite Hnotifs. apply filter_app. }
  exists db', (overridden env' body (copy_of env e)).
  split; [exact Hrun|].
  split; [exact Hid|]. split; [exact Hstatus|]. split; [exact Hnm|].
  split; [exact Htags|]. split; [exact Hdesc|]. split; [exact Hstart|].
  split; [exact Hend|]. split; [exact Hloc|].
  split.
  { unfold find_event. rewrite Hevents, select_by_id_app.
    rewrite select_by_id_missing by exact Hfresh_e.
    unfold has_id. rewrite Hid. simpl. now rewrite String.eqb_refl. }
  split.
  { unfold find_event. rewrite Hevents, select_by_id_app.
    unfold find_event in Hfind. now rewrite Hfind. }
  split.
  { rewrite Hsplit.
    assert (Hno : String.eqb (uuid_event env) eventId = false)
      by (apply String.eqb_neq; congruence).
    destruct (renames body); simpl; rewrite ?Hno; apply app_nil_r. }
  rewrite Hsplit, (no_notifications_for_fresh_event env db Hrefs Hfresh_e).
  destruct (renames body); simpl; now rewrite ?String.eqb_refl.
Qed.

Lemma duplicateEvent_applies_overrides_witness :
  exists db' copy,
    OpenAPIServiceHandlers.duplicateEvent sample_env
      (mkEnv 1736500000100 "e-other" "n-other") "e1" (Some rebrand) sample_db
    = (db', Ok (201, copy))
    /\ Event.name copy = "Tech Conference 2026"
    /\ Event.status copy = draft
    /\ List.length (notifications_of db' "e-new") = 2%nat.
Proof.
  destruct (duplicateEvent_applies_overrides sample_env
              (mkEnv 1736500000100 "e-other" "n-other") "e1" (Some rebrand)
              sample_db tech_conference)
    as (db' & copy & Hrun & _ & Hstatus & Hnm & _ & _ & _ & _ & _ & _ & _ & _
        & Hn);
    try reflexivity; try discriminate.
  - simpl. lia.
  - split; simpl; lia.
  - exact sample_references_ok.
  - simpl. lia.
  - exists db', copy. split; [exact Hrun|]. split; [exact Hnm|].
    split; [exact Hstatus|]. change (uuid_event sample_env) with "e-new" in Hn.
    rewrite Hn. reflexivity.
Defined.

(* ================================================================== *)
(** * Quick actions *)
(* ================================================================== *)

Lemma get_run (id : uuid) (db : Db) :
  EventService.get id db
  = (db, match find_event db id with
         | Some e => Ok e
         | None => Throw (Error "Event not found")
         end).
Proof.
  unfold EventService.get, bind, EventRepository.findById, find_event.
  now destruct (select_by_id Event.id (events db) id).
Qed.





(* ================================================================== *)
(** * Listing and notification counts *)
(* ================================================================== *)

Lemma create_run (env : Env) (data : NewEvent.t) (db : Db) :
  storable data ->
  fresh_event_id env db ->
  fresh_notification_id env db ->
  EventService.create env data db
  = (mkDb (events db ++ [created_row env data])
          (notifications db
           ++ [lifecycle_notification env (uuid_event env) "Event Created"
                 ("Event " ++ dquote ++ NewEvent.name data ++ dquote
                  ++ " has been created")])
          (S (S (writes db))),
     Ok (created_row env data)).
Proof.
  intros (Hdates & Hname & Hloc & Hid) Hfresh_e Hfresh_n.
  unfold EventService.create. unfold bind at 1 2. unfold validate, ret at 1.
  assert (Hvalid :
    EventService.validateEventDates (NewEvent.startDate data)
      (NewEvent.endDate data) db = (db, Ok tt)).
  { unfold EventService.validateEventDates, new_dates_ok in *.
    destruct (NewEvent.endDate data) as [d|]; [|reflexivity].
    destruct (Z.leb_spec d (NewEvent.startDate data)); [lia|reflexivity]. }
  rewrite Hvalid. unfold bind at 1.
  unfold EventRepository.create, bind at 1, EventRepository.insert.
  cbn [NewEvent.name NewEvent.location NewEvent.id NewEvent.status
       NewEvent.description NewEvent.startDate NewEvent.endDate NewEvent.tags
       NewEvent.notificationCount NewEvent.createdAt NewEvent.updatedAt].
  rewrite varchar_fits by exact Hname.
  rewrite varchar_null_fits by exact Hloc.
  rewrite Hid. unfold fresh_event_id in Hfresh_e. rewrite Hfresh_e.
  unfold ret at 1. unfold bind.
  rewrite notification_create.
  - unfold created_row. destruct (NewEvent.status data); reflexivity.
  - reflexivity.
  - exact Hfresh_n.
  - simpl. rewrite existsb_app. simpl.
    unfold has_id at 2. simpl. rewrite String.eqb_refl. apply orb_true_r.
Qed.

Lemma unfiltered (rows : list Event.t) : filter (fun _ => true) rows = rows.
Proof. induction rows as [|r rows IH]; simpl; congruence. Qed.

Lemma page_rows_in {A} (k : nat) (rows : list A) (r : A) :
  In r (firstn k rows) \/ In r (skipn k rows) -> In r rows.
Proof.
  intros H. rewrite <- (firstn_skipn k rows). now apply in_or_app.
Qed.

Lemma offset_rows {A} (n : number) (rows rest : list A) (r : A) :
  EventRepository.offset n rows = Ok rest -> In r rest -> In r rows.
Proof.
  unfold EventRepository.offset. destruct n as [z| |neg]; try discriminate.
  - destruct (z =? 0); [now intros [= <-]|].
    destruct (z <? 0); [discriminate|].
    intros [= <-] Hr. apply (page_rows_in (Z.to_nat z)). now right.
  - now intros [= <-].
Qed.

Lemma limit_rows {A} (n : number) (rows rest : list A) (r : A) :
  EventRepository.limit n rows = Ok rest -> In r rest -> In r rows.
Proof.
  unfold EventRepository.limit. destruct n as [z| |[|]]; try discriminate;
    try (now intros [= <-]).
  destruct (0 <=? z); intros [= <-]; [|trivial].
  intros Hr. apply (page_rows_in (Z.to_nat z)). now left.
Qed.

Lemma findAll_rows (page pageSize : number) (searchQuery status : option string)
    (db db' : Db) (rows : list Event.t) :
  EventRepository.findAll page pageSize searchQuery status db = (db', Ok rows) ->
  db' = db
  /\ forall r, In r rows ->
       exists e, In e (events db)
                 /\ r = EventRepository.with_notification_count db e.
Proof.
  unfold EventRepository.findAll.
  destruct (EventRepository.where_ _) as [matches|x]; [|discriminate].
  destruct (EventRepository.offset _ _) as [rest|x] eqn:Hoff; [|discriminate].
  intros Hrun. injection Hrun as <- Hlim. split; [reflexivity|].
  intros r Hr. apply (limit_rows _ _ _ _ Hlim) in Hr.
  apply (offset_rows _ _ _ _ Hoff) in Hr.
  apply in_map_iff in Hr. destruct Hr as (e & <- & He).
  apply filter_In in He. exists e. now split.
Qed.




(** X10.  The notification count of an event is computed by the listing
    only.  After [create(data)] of storable data without a count, on a
    database with valid references and fresh keys, [get] of the new key
    returns the stored row, whose [notificationCount] is 0, although one
    notification references the event; every row a listing returns for
    that key, whatever the page and filters, says 1. *)
Theorem listing_counts_what_get_does_not (env : Env) (data : NewEvent.t)
    (db : Db) :
  storable data ->
  NewEvent.notificationCount data = None ->
  references_ok db ->
  fresh_event_id env db ->
  fresh_notification_id env db ->
  exists db' e,
    EventService.create env data db = (db', Ok e)
    /\ EventService.get (uuid_event env) db' = (db', Ok e)
    /\ Event.notificationCount e = 0
    /\ List.length (notifications_of db' (uuid_event env)) = 1%nat
    /\ forall page pageSize searchQuery status db'' result r,
         EventService.findWithFilters page pageSize searchQuery status db'
         = (db'', Ok result) ->
         In r (EventService.data result) ->
         Event.id r = uuid_event env ->
         Event.notificationCount r = 1.
Proof.
  intros Hdata Hcount Hrefs Hfresh_e Hfresh_n.
  rewrite (create_run env data db Hdata Hfresh_e Hfresh_n).
  set (db' := mkDb _ _ _).
  assert (Hone : notifications_of db' (uuid_event env)
                 = [lifecycle_notification env (uuid_event env) "Event Created"
                      ("Event " ++ dquote ++ NewEvent.name data ++ dquote
                       ++ " has been created")]).
  { unfold notifications_of, db'. cbn [notifications]. rewrite filter_app.
    fold (notifications_of db (uuid_event env)).
    rewrite (no_notifications_for_fresh_event env db Hrefs Hfresh_e).
    simpl. now rewrite String.eqb_refl. }
  exists db', (created_row env data). split; [reflexivity|].
  split.
  { rewrite get_run. unfold find_event, db'. cbn [events].
    rewrite select_by_id_app, select_by_id_missing by exact Hfresh_e.
    unfold has_id. simpl. now rewrite String.eqb_refl. }
  split; [unfold created_row; simpl; now rewrite Hcount|].
  split; [now rewrite Hone|].
  intros page pageSize searchQuery status db'' result r Hrun Hr Hid.
  unfold EventService.findWithFilters in Hrun.
  step Hrun db1 rows Hrows. step Hrun db2 total Htotal.
  injection Hrun as _ <-. cbn [EventService.data] in Hr.
  unfold formatForResponse in Hr. rewrite map_id in Hr.
  destruct (findAll_rows _ _ _ _ _ _ _ Hrows) as (_ & Hfrom).
  destruct (Hfrom r Hr) as (e0 & _ & ->).
  cbn [EventRepository.with_notification_count Event.notificationCount Event.id] in *.
  fold (notifications_of db' (Event.id e0)). rewrite Hid, Hone. reflexivity.
Qed.


Lemma listing_counts_what_get_does_not_witness :
  exists db' e,
    EventService.create sample_env kickoff sample_db = (db', Ok e)
    /\ EventService.get "e-new" db' = (db', Ok e)
    /\ Event.notificationCount e = 0.
Proof.
  destruct (listing_counts_what_get_does_not sample_env kickoff sample_db)
    as (db' & e & Hcreate & Hget & Hcount & _); try reflexivity.
  - repeat split; simpl; lia.
  - exact sample_references_ok.
  - exists db', e. repeat split; assumption.
Defined.

(* ================================================================== *)
(** * Notifications of an event *)
(* ================================================================== *)








(* ================================================================== *)
(** * Creating, reading and removing notifications *)
(* ================================================================== *)






(** Marking one notification. *)
Lemma marking_one (id : uuid) (p : Notification.t -> bool)
    (rows : list Notification.t) (n : Notification.t) :
  NoDup (map Notification.id rows) ->
  select_by_id Notification.id rows id = Some n ->
  (forall r, p (NotificationRepository.set_read r) = false) ->
  List.length (filter p rows)
  = ((if p n then 1 else 0)
     + List.length
         (filter p (map (fun r => if has_id Notification.id id r
                                  then NotificationRepository.set_read r
                                  else r) rows)))%nat.
Proof.
  intros Hkeys Hfind Hread.
  induction rows as [|r rows IH]; [discriminate|].
  unfold select_by_id in Hfind. simpl in Hfind. simpl map.
  inversion Hkeys as [|k ks Hfirst Hrest]; subst.
  destruct (has_id Notification.id id r) eqn:Hr.
  - injection Hfind as <-.
    assert (Hsame : map (fun r0 => if has_id Notification.id id r0
                                   then NotificationRepository.set_read r0
                                   else r0) rows = rows).
    { rewrite <- (map_id rows) at 2. apply map_ext_in. intros k Hk.
      destruct (has_id Notification.id id k) eqn:Hk'; [|reflexivity].
      exfalso. apply Hfirst. unfold has_id in Hr, Hk'.
      apply String.eqb_eq in Hr, Hk'. rewrite Hr, <- Hk'. now apply in_map. }
    rewrite Hsame. simpl. rewrite Hread. destruct (p r); simpl; lia.
  - simpl. specialize (IH Hrest Hfind).
    destruct (p r); simpl; lia.
Qed.

Lemma unique_notification (rows : list Notification.t) (id : uuid)
    (n r : Notification.t) :
  NoDup (map Notification.id rows) ->
  select_by_id Notification.id rows id = Some n ->
  In r rows ->
  has_id Notification.id id r = true ->
  r = n.
Proof.
  unfold select_by_id.
  induction rows as [|a rows IH]; simpl; [contradiction|].
  intros Hkeys Hfind Hin Hid. inversion Hkeys as [|? ? Hfirst Hrest]. subst.
  destruct (has_id Notification.id id a) eqn:Ha.
  - injection Hfind as <-. destruct Hin as [Hin|Hin]; [now symmetry|].
    exfalso. apply Hfirst. unfold has_id in Ha, Hid.
    apply String.eqb_eq in Ha, Hid. rewrite Ha, <- Hid. now apply in_map.
  - destruct Hin as [Hin|Hin]; [subst; congruence|]. now apply IH.
Qed.

Lemma marking_one_elsewhere (id : uuid) (p : Notification.t -> bool)
    (rows : list Notification.t) :
  (forall r, In r rows -> has_id Notification.id id r = true ->
             p r = false /\ p (NotificationRepository.set_read r) = false) ->
  filter p (map (fun r => if has_id Notification.id id r
                          then NotificationRepository.set_read r
                          else r) rows)
  = filter p rows.
Proof.
  intros Hout. induction rows as [|r rows IH]; [reflexivity|].
  simpl. rewrite IH by (intros k Hk; apply Hout; now right).
  destruct (has_id Notification.id id r) eqn:Hr; [|reflexivity].
  destruct (Hout r (or_introl eq_refl) Hr) as [-> ->]. reflexivity.
Qed.


(** X13.  [markAsRead] and the unread counts.  With unique notification
    keys, marking an existing notification returns it with [isRead = 1],
    lowers the unread count of its event by one when it had [isRead = 0]
    and leaves that count alone otherwise, and never changes the unread
    rows of another event or the events table.  The count is what
    [getUnreadCountForEvent] returns. *)
Theorem markAsRead_lowers_unread_count (id : uuid) (db : Db)
    (n : Notification.t) :
  notification_keys_ok db ->
  find_notification db id = Some n ->
  exists db',
    NotificationService.markAsRead id db
    = (db', Ok (Some (NotificationRepository.set_read n)))
    /\ (forall eventId d,
          NotificationService.getUnreadCountForEvent eventId d
          = (d, Ok (Int (Z.of_nat (List.length (unread_rows d eventId))))))
    /\ List.length (unread_rows db (Notification.eventId n))
       = ((if (Notification.isRead n =? 0)%Z then 1 else 0)
          + List.length (unread_rows db' (Notification.eventId n)))%nat
    /\ (forall eventId, eventId <> Notification.eventId n ->
          unread_rows db' eventId = unread_rows db eventId)
    /\ events db' = events db.
Proof.
  intros Hkeys Hfind.
  assert (Hcount : forall eventId d,
            NotificationService.getUnreadCountForEvent eventId d
            = (d, Ok (Int (Z.of_nat (List.length (unread_rows d eventId))))))
    by reflexivity.
  destruct (Z.eq_dec (Notification.isRead n) 1) as [Hread|Hunread].
  - exists db. rewrite (markAsRead_read id db n Hfind Hread).
    rewrite (set_read_again n Hread).
    split; [reflexivity|]. split; [exact Hcount|].
    split; [rewrite Hread; reflexivity|]. now split.
  - eexists. rewrite (markAsRead_unread id db n Hfind Hunread).
    split; [reflexivity|]. split; [exact Hcount|].
    unfold unread_rows. cbn [notifications events].
    split.
    + rewrite (marking_one id _ (notifications db) n Hkeys Hfind).
      * now rewrite String.eqb_refl.
      * intros r. simpl. apply andb_false_r.
    + split; [|reflexivity]. intros eventId Hother.
      apply marking_one_elsewhere. intros r Hin Hr.
      assert (r = n) by
        (now apply (unique_notification (notifications db) id n r Hkeys Hfind)).
      subst r. simpl.
      assert (Hno : String.eqb (Notification.eventId n) eventId = false)
        by (apply String.eqb_neq; congruence).
      now rewrite Hno.
Qed.

Lemma markAsRead_lowers_unread_count_witness :
  exists db',
    NotificationService.markAsRead "n1" sample_db
    = (db', Ok (Some (NotificationRepository.set_read speaker_confirmed)))
    /\ List.length (unread_rows sample_db "e1") = 1%nat
    /\ List.length (unread_rows db' "e1") = 0%nat
    /\ unread_rows db' "e2" = [agenda_draft].
Proof.
  destruct (markAsRead_lowers_unread_count "n1" sample_db speaker_confirmed)
    as (db' & Hrun & _ & Hdown & Hothers & _).
  - repeat constructor; simpl; intuition discriminate.
  - reflexivity.
  - exists db'. split; [exact Hrun|]. split; [reflexivity|].
    split.
    + simpl in Hdown. injection Hdown as Hdown. now symmetry.
    + now rewrite (Hothers "e2").
Defined.

(* ================================================================== *)
(** * Queries by status and by text *)
(* ================================================================== *)

Lemma status_of_label_spec (label : string) (s : EventStatus) :
  status_of_label label = Some s <-> label = status_label s.
Proof.
  unfold status_of_label. split.
  - destruct (String.eqb_spec label "draft") as [->|_];
      [now intros [= <-]|].
    destruct (String.eqb_spec label "published") as [->|_];
      [now intros [= <-]|].
    destruct (String.eqb_spec label "archived") as [->|_];
      [now intros [= <-]|discriminate].
  - intros ->. now destruct s.
Qed.

Lemma status_eqb_spec (a b : EventStatus) : status_eqb a b = true <-> a = b.
Proof. destruct a, b; simpl; split; congruence. Qed.


(** X14.  [getEventsByStatus(status)] compares the column with the text
    as it is.  For one of the three labels it returns exactly the events
    of that status, as many as [countWithFilters] counts for it.  For
    any other text, the empty one included, the statement fails in the
    database with an invalid enum value, whereas the list filter takes
    an empty status as no filter at all. *)
Theorem getEventsByStatus_reads_a_label (status : string) (db : Db) :
  (forall s,
     status = status_label s ->
     exists rows,
       EventService.getEventsByStatus status db = (db, Ok rows)
       /\ (forall e, In e rows <-> In e (events db) /\ Event.status e = s)
       /\ EventRepository.countWithFilters None (Some status) db
          = (db, Ok (Int (Z.of_nat (List.length rows)))))
  /\ ((forall s, status <> status_label s) ->
      EventService.getEventsByStatus status db
      = (db, Throw (DatabaseError invalid_text_representation)))
  /\ (status = EmptyString ->
      EventRepository.countWithFilters None (Some status) db
      = (db, Ok (Int (Z.of_nat (List.length (events db)))))).
Proof.
  split; [|split].
  - intros s Hlabel. apply status_of_label_spec in Hlabel.
    exists (filter (fun e => status_eqb (Event.status e) s) (events db)).
    split.
    + unfold EventService.getEventsByStatus, bind,
        EventRepository.findByStatus, EventRepository.condition_holds.
      rewrite Hlabel. unfold ret, formatForResponse. now rewrite map_id.
    + split.
      * intros e. now rewrite filter_In, status_eqb_spec.
      * unfold EventRepository.countWithFilters, EventRepository.conditions,
          given.
        assert (Htruthy : truthy status = true).
        { apply status_of_label_spec in Hlabel. subst. now destruct s. }
        rewrite Htruthy. simpl.
        unfold EventRepository.condition_holds. now rewrite Hlabel.
  - intros Hnone.
    unfold EventService.getEventsByStatus, bind,
      EventRepository.findByStatus, EventRepository.condition_holds.
    destruct (status_of_label status) as [s|] eqn:Hlabel; [|reflexivity].
    apply status_of_label_spec in Hlabel. now destruct (Hnone s).
  - intros ->. unfold EventRepository.countWithFilters. simpl.
    now rewrite unfiltered.
Qed.

Lemma getEventsByStatus_reads_a_label_witness :
  EventService.getEventsByStatus "archived" sample_db
  = (sample_db, Ok [internship])
  /\ EventService.getEventsByStatus "all" sample_db
     = (sample_db, Throw (DatabaseError invalid_text_representation)).
Proof.
  destruct (getEventsByStatus_reads_a_label "all" sample_db)
    as (_ & Hbad & _).
  split; [reflexivity|].
  apply Hbad. intros s. destruct s; discriminate.
Defined.






(* ================================================================== *)
(** * Upcoming events *)
(* ================================================================== *)

Lemma getUpcomingEvents_run (env : Env) (db : Db) :
  EventService.getUpcomingEvents env db
  = (db,
     Ok (filter (fun e => (now env <=? Event.startDate e)
                          && (Event.startDate e <=? 4102358400000))
                (events db))).
Proof. reflexivity. Qed.

Lemma rewritten_row (f : Event.t -> Event.t) (id : uuid) (db : Db)
    (e : Event.t) :
  find_event db id = Some e -> In (f e) (rewrite_events f id db).
Proof.
  intros Hfind. unfold rewrite_events.
  apply in_map_iff. exists e. split.
  - unfold find_event in Hfind.
    apply select_by_id_key in Hfind. unfold has_id.
    now rewrite Hfind, String.eqb_refl.
  - now apply select_by_id_in with (row_id := Event.id) (id := id).
Qed.


(** X16.  [getUpcomingEvents] returns exactly the stored events that
    start between the clock and the end of 30 December 2099 (UTC),
    whatever their status.  In particular an upcoming event that is
    archived stays in the list, as an archived event. *)
Theorem upcoming_events_ignore_status (env : Env) (db : Db) :
  exists rows,
    EventService.getUpcomingEvents env db = (db, Ok rows)
    /\ (forall e, In e rows <-> In e (events db) /\ upcoming env e)
    /\ forall env' id e,
         find_event db id = Some e ->
         Event.status e <> archived ->
         fresh_notification_id env' db ->
         upcoming env e ->
         exists db' rows',
           EventService.archive env' id db
           = (db', Ok (Some (with_status archived (now env') e)))
           /\ EventService.getUpcomingEvents env db' = (db', Ok rows')
           /\ In (with_status archived (now env') e) rows'.
Proof.
  assert (Hin : forall evs e,
            In e (filter (fun e => (now env <=? Event.startDate e)
                                   && (Event.startDate e <=? 4102358400000))
                         evs)
            <-> In e evs /\ upcoming env e).
  { intros evs e. unfold upcoming.
    rewrite filter_In, andb_true_iff, !Z.leb_le. tauto. }
  eexists. split; [apply getUpcomingEvents_run|].
  split; [apply Hin|].
  intros env' id e Hfind Hlive Hfresh Hsoon.
  eexists. eexists.
  split; [now apply archive_live|].
  split; [apply getUpcomingEvents_run|].
  cbn [events]. apply Hin. split; [now apply rewritten_row|exact Hsoon].
Qed.

Lemma upcoming_events_ignore_status_witness :
  exists db' rows',
    EventService.archive (mkEnv 1736000000500 "e-x" "n-x") "e2" sample_db
    = (db', Ok (Some (with_status archived 1736000000500 sales_kickoff)))
    /\ EventService.getUpcomingEvents (mkEnv 1736000000000 "e-y" "n-y") db'
       = (db', Ok rows')
    /\ In (with_status archived 1736000000500 sales_kickoff) rows'.
Proof.
  destruct (upcoming_events_ignore_status (mkEnv 1736000000000 "e-y" "n-y")
              sample_db) as (rows & _ & _ & Hafter).
  apply (Hafter (mkEnv 1736000000500 "e-x" "n-x") "e2" sales_kickoff).
  - reflexivity.
  - discriminate.
  - reflexivity.
  - unfold upcoming. simpl. lia.
Defined.

(* ================================================================== *)
(** * The lifecycle without the generic update *)
(* ================================================================== *)

Lemma insert_events (env : Env) (data : NewEvent.t) (db db1 : Db)
    (r : Outcome Event.t) :
  EventRepository.create env data db = (db1, r) ->
  (db1 = db
   \/ exists row,
        events db1 = (events db ++ [row])%list
        /\ existsb (has_id Event.id (Event.id row)) (events db) = false).
Proof.
  destruct r as [e|x].
  - intros Hrun. apply event_create_ok in Hrun.
    destruct Hrun as (-> & _ & _ & _ & _ & Hnew & _). right. now exists e.
  - intros Hrun. left. now apply event_create_throw in Hrun.
Qed.

Lemma notification_insert_events (env : Env) (data : NewNotification.t)
    (db db1 : Db) (r : Outcome Notification.t) :
  NotificationRepository.create env data db = (db1, r) ->
  events db1 = events db.
Proof.
  unfold NotificationRepository.create, bind, NotificationRepository.insert.
  destruct (varchar 255 _); [|intros H; now inversion H].
  destruct (existsb _ (notifications db)); [intros H; now inversion H|].
  destruct (negb _); intros H; now inversion H.
Qed.

Lemma validateEventDates_db (startDate : Date) (endDate : option Date)
    (db db' : Db) (r : Outcome unit) :
  EventService.validateEventDates startDate endDate db = (db', r) -> db' = db.
Proof.
  unfold EventService.validateEventDates.
  destruct endDate as [d|]; [destruct (d <=? startDate)|];
    intros H; now inversion H.
Qed.

Lemma appended_find (db db1 : Db) (row : Event.t) (id : uuid) (e : Event.t) :
  events db1 = (events db ++ [row])%list ->
  find_event db id = Some e ->
  find_event db1 id = Some e.
Proof.
  intros Hevents Hfind. unfold find_event in *.
  now rewrite Hevents, select_by_id_app, Hfind.
Qed.

Lemma status_change_events (env : Env) (id : uuid) (s : EventStatus)
    (title message : string) (db db' : Db) (r : Outcome (option Event.t)) :
  (updated <- EventRepository.update id
                (Changes.mk None None None (Some s) None None None None None
                   None (Some (now env))) ;;
   NotificationRepository.create env
     (NewNotification.mk None id title (Some message) None None) ;;;
   ret (option_map formatForResponse updated)) db = (db', r) ->
  events db' = rewrite_events (with_status s (now env)) id db.
Proof.
  intros Hrun. unfold bind at 1 in Hrun.
  rewrite update_plain in Hrun by (repeat split; reflexivity).
  unfold bind at 1 in Hrun.
  match type of Hrun with
  | (let (_, _) := ?m ?d in _) = _ =>
      destruct (m d) as [db2 [n|x]] eqn:Hn
  end.
  - apply notification_insert_events in Hn. inversion Hrun. now subst.
  - apply notification_insert_events in Hn. inversion Hrun. now subst.
Qed.

Lemma moved_by_rewrite (s : EventStatus) (at_ : Date) (id0 id : uuid) (db db' : Db)
    (e0 e : Event.t) :
  find_event db id0 = Some e0 ->
  events db' = rewrite_events (with_status s at_) id0 db ->
  find_event db id = Some e ->
  exists e',
    find_event db' id = Some e'
    /\ (e' = e \/ (e0 = e /\ e' = with_status s at_ e)).
Proof.
  intros Hfind0 Hevents Hfind.
  unfold find_event at 1. rewrite Hevents, rewrite_events_find by reflexivity.
  rewrite Hfind. simpl. eexists. split; [reflexivity|].
  destruct (has_id Event.id id0 e) eqn:Hsame; [right|now left].
  split; [|reflexivity].
  unfold has_id in Hsame. apply String.eqb_eq in Hsame.
  unfold find_event in Hfind, Hfind0.
  pose proof (select_by_id_key _ _ _ _ Hfind) as Hkey.
  assert (id = id0) by congruence. subst id. congruence.
Qed.

Lemma run_moves_forward (c : Call) (db : Db) (id : uuid) (e : Event.t) :
  lifecycle_only c ->
  find_event db id = Some e ->
  exists e', find_event (run c db) id = Some e' /\ moved_forward e e'.
Proof.
  intros Hc Hfind.
  assert (Hsame : forall db', events db' = events db ->
            exists e', find_event db' id = Some e' /\ moved_forward e e').
  { intros db' Hevents. exists e. split; [|now left].
    unfold find_event in *. now rewrite Hevents. }
  assert (Hmore : forall db' row, events db' = (events db ++ [row])%list ->
            exists e', find_event db' id = Some e' /\ moved_forward e e').
  { intros db' row Hevents. exists e. split; [|now left].
    now apply (appended_find db db' row). }
  destruct c as [env data|env id0 changes|id0|env id0|env id0|env id0
                 |env eventId title message type|id0|eventId];
    try contradiction; unfold run.
  - (* create *)
    destruct (EventService.create env data db) as [db' r] eqn:Hrun.
    unfold fst. unfold EventService.create in Hrun.
    unfold bind at 1 2, validate, ret at 1 in Hrun.
    destruct (EventService.validateEventDates _ _ db) as [db0 [[]|x]] eqn:Hv;
      apply validateEventDates_db in Hv; subst db0;
      [|inversion Hrun; subst; now apply Hsame].
    step Hrun db1 created Hcreate.
    + apply insert_events in Hcreate.
      step Hrun db2 n Hn; apply notification_insert_events in Hn;
        [inversion Hrun; subst|];
        (destruct Hcreate as [->|(row & Hrow & _)];
         [apply Hsame|apply (Hmore _ row)]; congruence).
    + apply event_create_throw in Hcreate. subst. now apply Hsame.
  - (* publish *)
    destruct (EventService.publish env id0 db) as [db' r] eqn:Hrun.
    unfold fst. unfold EventService.publish in Hrun.
    unfold bind at 1 2, EventRepository.findById in Hrun.
    fold (find_event db id0) in Hrun.
    destruct (find_event db id0) as [e0|] eqn:Hfind0; simpl in Hrun;
      [|inversion Hrun; subst; now apply Hsame].
    unfold bind at 1 in Hrun.
    destruct (status_eqb (Event.status e0) draft) eqn:Hdraft; simpl in Hrun;
      [|inversion Hrun; subst; now apply Hsame].
    apply status_change_events in Hrun.
    destruct (moved_by_rewrite _ _ _ _ _ _ _ _ Hfind0 Hrun Hfind)
      as (e' & He' & [->|[-> ->]]).
    + exists e. split; [exact He'|now left].
    + eexists. split; [exact He'|]. right. left.
      split; [destruct (Event.status e); now try discriminate|now eexists].
  - (* archive *)
    destruct (EventService.archive env id0 db) as [db' r] eqn:Hrun.
    unfold fst. unfold EventService.archive in Hrun.
    unfold bind at 1 2, EventRepository.findById in Hrun.
    fold (find_event db id0) in Hrun.
    destruct (find_event db id0) as [e0|] eqn:Hfind0; simpl in Hrun;
      [|inversion Hrun; subst; now apply Hsame].
    unfold bind at 1 in Hrun.
    destruct (status_eqb (Event.status e0) archived) eqn:Harch; simpl in Hrun;
      [inversion Hrun; subst; now apply Hsame|].
    apply status_change_events in Hrun.
    destruct (moved_by_rewrite _ _ _ _ _ _ _ _ Hfind0 Hrun Hfind)
      as (e' & He' & [->|[-> ->]]).
    + exists e. split; [exact He'|now left].
    + eexists. split; [exact He'|]. right. right.
      split; [destruct (Event.status e); now try discriminate|now eexists].
  - (* duplicate *)
    destruct (EventService.duplicate env id0 db) as [db' r] eqn:Hrun.
    unfold fst. unfold EventService.duplicate in Hrun.
    unfold bind at 1 2, EventRepository.findById in Hrun.
    destruct (select_by_id Event.id (events db) id0) as [e0|]; simpl in Hrun;
      [|inversion Hrun; subst; now apply Hsame].
    step Hrun db1 created Hcreate.
    + apply insert_events in Hcreate.
      step Hrun db2 n Hn; apply notification_insert_events in Hn;
        [inversion Hrun; subst|];
        (destruct Hcreate as [->|(row & Hrow & _)];
         [apply Hsame|apply (Hmore _ row)]; congruence).
    + apply event_create_throw in Hcreate. subst. now apply Hsame.
  - (* createEventNotification *)
    destruct (NotificationService.createEventNotification env eventId title
                message type db) as [db' r] eqn:Hrun.
    unfold fst. unfold NotificationService.createEventNotification in Hrun.
    unfold bind at 1 in Hrun.
    destruct (negb _); simpl in Hrun; [inversion Hrun; subst; now apply Hsame|].
    step Hrun db1 n Hn; apply notification_insert_events in Hn;
      [inversion Hrun; subst|]; now apply Hsame.
  - (* markAsRead *)
    destruct (NotificationService.markAsRead id0 db) as [db' r] eqn:Hrun.
    unfold fst. unfold NotificationService.markAsRead in Hrun.
    unfold bind at 1 2, NotificationRepository.findById in Hrun.
    destruct (select_by_id Notification.id (notifications db) id0) as [n|];
      simpl in Hrun; [|inversion Hrun; subst; now apply Hsame].
    destruct (Notification.isRead n =? 1);
      [inversion Hrun; subst; now apply Hsame|].
    unfold bind, NotificationRepository.markAsRead, update_where_id in Hrun.
    inversion Hrun. subst. now apply Hsame.
  - (* markAllReadForEvent *)
    apply Hsame. reflexivity.
Qed.


(** X17.  Without the generic [update] and the hard delete, a status
    only moves forward.  After any sequence of [create], [publish],
    [archive], [duplicate] and notification calls, returning or
    throwing, an event that existed before still exists under its key,
    with the same name and dates, and its status is the same or later in
    the order draft, published, archived; an archived event is left
    exactly as it was. *)
Theorem status_only_moves_forward (calls : list Call) (db : Db) (id : uuid)
    (e : Event.t) :
  Forall lifecycle_only calls ->
  find_event db id = Some e ->
  exists e',
    find_event (runs calls db) id = Some e'
    /\ (rank (Event.status e) <= rank (Event.status e'))%nat
    /\ (Event.status e = archived -> e' = e)
    /\ Event.name e' = Event.name e
    /\ Event.startDate e' = Event.startDate e
    /\ Event.endDate e' = Event.endDate e.
Proof.
  intros Hcalls. revert db e.
  induction Hcalls as [|c calls Hc _ IH]; intros db e Hfind.
  - exists e. simpl. repeat split; auto.
  - destruct (run_moves_forward c db id e Hc Hfind) as (e1 & Hfind1 & Hmoved).
    destruct (IH (run c db) e1 Hfind1)
      as (e' & Hfind' & Hrank & Hterminal & Hname & Hstart & Hend).
    exists e'. simpl. split; [exact Hfind'|].
    destruct Hmoved as [->|[[Hdraft (t & ->)]|[Hlive (t & ->)]]].
    + repeat split; assumption.
    + simpl in *. rewrite Hdraft. repeat split; try assumption;
        [simpl; lia|discriminate].
    + simpl in *. rewrite (Hterminal eq_refl) in *. simpl.
      repeat split; try reflexivity;
        [destruct (Event.status e); simpl; lia|contradiction].
Qed.

Lemma status_only_moves_forward_witness :
  exists e',
    find_event
      (runs [PublishEvent sample_env "e2";
             ArchiveEvent (mkEnv 1736500000100 "e-a" "n-a") "e2";
             PublishEvent (mkEnv 1736500000200 "e-b" "n-b") "e2"]
         sample_db) "e2"
    = Some e'
    /\ (rank (Event.status sales_kickoff) <= rank (Event.status e'))%nat
    /\ Event.name e' = "Sales Kickoff".
Proof.
  destruct (status_only_moves_forward
              [PublishEvent sample_env "e2";
               ArchiveEvent (mkEnv 1736500000100 "e-a" "n-a") "e2";
               PublishEvent (mkEnv 1736500000200 "e-b" "n-b") "e2"]
              sample_db "e2" sales_kickoff)
    as (e' & Hfind & Hrank & _ & Hname & _).
  - repeat constructor.
  - reflexivity.
  - exists e'. repeat split; assumption.
Defined.

(* ================================================================== *)
(** * Lifecycle notifications *)
(* ================================================================== *)

Lemma lifecycle_type_valid (action : NotificationService.LifecycleAction) :
  In (NotificationService.notificationTypes action)
     NotificationService.VALID_NOTIFICATION_TYPES
  /\ (String.length (NotificationService.titles action) <= 255)%nat.
Proof. destruct action; simpl; split; try lia; tauto. Qed.


(** X18.  [createLifecycleNotification] for an existing event and a
    fresh key: none of its four actions is refused for its type, and the
    notification is stored unread with the title and message of the
    action.  For [published] and [archived] it is the very notification
    [publish] and [archive] record.  For [updated] it is not the one
    [update] records, whose message does not name the event. *)
Theorem createLifecycleNotification_matches_the_services (env : Env)
    (id : uuid) (db : Db) (e : Event.t)
    (action : NotificationService.LifecycleAction) :
  find_event db id = Some e ->
  fresh_notification_id env db ->
  NotificationService.createLifecycleNotification env id (Event.name e) action
    db
  = (mkDb (events db)
          (notifications db ++ [composed env id (Event.name e) action])
          (S (writes db)),
     Ok (composed env id (Event.name e) action))
  /\ Notification.isRead (composed env id (Event.name e) action) = 0
  /\ (Event.status e = draft ->
      notifications (fst (EventService.publish env id db))
      = (notifications db
         ++ [composed env id (Event.name e) NotificationService.Published])%list)
  /\ (Event.status e <> archived ->
      notifications (fst (EventService.archive env id db))
      = (notifications db
         ++ [composed env id (Event.name e) NotificationService.Archived])%list)
  /\ notifications (fst (EventService.update env id (status_only published) db))
     = (notifications db ++ [update_notification env id])%list
  /\ update_notification env id
     <> composed env id (Event.name e) NotificationService.Updated.
Proof.
  intros Hfind Hfresh.
  destruct (lifecycle_type_valid action) as [Htype Htitle].
  split.
  { unfold NotificationService.createLifecycleNotification.
    rewrite createEventNotification_run; try assumption; [reflexivity|].
    now apply select_by_id_found with (r := e). }
  split; [reflexivity|].
  split.
  { intros Hdraft. now rewrite (publish_draft env id db e Hfind Hdraft Hfresh). }
  split.
  { intros Hlive. now rewrite (archive_live env id db e Hfind Hlive Hfresh). }
  split.
  { rewrite (update_plain_run env id (status_only published) db e Hfind);
      try reflexivity; [repeat split|now intros _]. }
  unfold update_notification, composed, lifecycle_notification. simpl.
  intros Heq. injection Heq as Heq. discriminate Heq.
Qed.

Lemma createLifecycleNotification_matches_the_services_witness :
  NotificationService.createLifecycleNotification sample_env "e2"
    "Sales Kickoff" NotificationService.Published sample_db
  = (mkDb (events sample_db)
          (notifications sample_db
           ++ [composed sample_env "e2" "Sales Kickoff"
                 NotificationService.Published])
          1,
     Ok (composed sample_env "e2" "Sales Kickoff"
           NotificationService.Published)).
Proof.
  apply (createLifecycleNotification_matches_the_services sample_env "e2"
           sample_db sales_kickoff NotificationService.Published);
    reflexivity.
Defined.

(* ================================================================== *)
(** * Events with unread notifications *)
(* ================================================================== *)










(* ================================================================== *)
(** * Integrity under the handlers *)
(* ================================================================== *)

Lemma keeps_bind {A B} (P : Db -> Prop) (m : M A) (k : A -> M B) :
  keeps P m -> (forall a, keeps P (k a)) -> keeps P (bind m k).
Proof.
  intros Hm Hk db db' r HP. unfold bind.
  destruct (m db) as [db1 [a|x]] eqn:Hrun.
  - apply (Hk a). now apply (Hm db db1 (Ok a)).
  - intros [= <- <-]. now apply (Hm db db1 (Throw x)).
Qed.

Lemma keeps_ret {A} (P : Db -> Prop) (a : A) : keeps P (ret a).
Proof. intros db db' r HP [= <- <-]. exact HP. Qed.

Lemma keeps_throw {A} (P : Db -> Prop) (x : Exn) : keeps P (@throw A x).
Proof. intros db db' r HP [= <- <-]. exact HP. Qed.

Lemma findWithFilters_reads (page pageSize : number)
    (searchQuery status : option string) (db : Db) :
  fst (EventService.findWithFilters page pageSize searchQuery status db) = db.
Proof.
  unfold EventService.findWithFilters, bind, EventRepository.findAll,
    EventRepository.countWithFilters.
  destruct (EventRepository.where_ _); [|reflexivity].
  destruct (EventRepository.offset _ _); [|reflexivity].
  now destruct (EventRepository.limit _ _).
Qed.

Lemma listEvents_reads (query : OpenAPIServiceHandlers.ListQuery) (db : Db) :
  fst (OpenAPIServiceHandlers.listEvents query db) = db.
Proof.
  unfold OpenAPIServiceHandlers.listEvents. cbv zeta. unfold bind at 1.
  match goal with
  | |- context [EventService.findWithFilters ?p ?s ?q ?t db] =>
      pose proof (findWithFilters_reads p s q t db) as Hread;
      destruct (EventService.findWithFilters p s q t db) as [db1 [pg|x]]
  end; exact Hread.
Qed.

Lemma update_missing_tables (env : Env) (id : uuid) (changes : Changes.t)
    (db db' : Db) (r : Outcome Event.t) :
  find_event db id = None ->
  EventService.update env id changes db = (db', r) ->
  events db' = events db /\ notifications db' = notifications db.
Proof.
  intros Hmissing. rewrite update_steps.
  unfold bind at 1 2, validate, ret at 1.
  rewrite date_check_run, Hmissing.
  destruct (EventService.carries_date changes);
    [intros H; inversion H; now subst|].
  unfold bind at 1.
  destruct (EventRepository.update id (stamped env changes) db)
    as [db1 [updated|x]] eqn:Hupd.
  - apply repo_update_ok in Hupd. destruct Hupd as (data' & _ & -> & ->).
    rewrite Hmissing. simpl. intros H; inversion H; subst. simpl.
    split; [now apply rewrite_events_missing|reflexivity].
  - apply repo_update_throw in Hupd. subst. intros H; inversion H; now subst.
Qed.

Lemma nothing_to_find (db : Db) (id : uuid) :
  empty_tables db -> find_event db id = None.
Proof. unfold empty_tables, find_event. now intros [-> _]. Qed.

Lemma update_keeps_empty (env : Env) (id : uuid) (changes : Changes.t) :
  keeps empty_tables (EventService.update env id changes).
Proof.
  intros db db' r Hnone Hrun.
  destruct (update_missing_tables env id changes db db' r
              (nothing_to_find db id Hnone) Hrun) as [He Hn].
  unfold empty_tables in *. now rewrite He, Hn.
Qed.

Lemma archive_keeps_empty (env : Env) (id : uuid) :
  keeps empty_tables (EventService.archive env id).
Proof.
  intros db db' r Hnone.
  rewrite archive_missing by now apply nothing_to_find.
  now intros [= <- <-].
Qed.

Lemma duplicate_keeps_empty (env : Env) (id : uuid) :
  keeps empty_tables (EventService.duplicate env id).
Proof.
  intros db db' r Hnone. unfold EventService.duplicate, bind at 1 2,
    EventRepository.findById.
  fold (find_event db id). rewrite nothing_to_find by exact Hnone.
  now intros [= <- <-].
Qed.

Lemma get_keeps {P : Db -> Prop} (id : uuid) : keeps P (EventService.get id).
Proof. intros db db' r HP. rewrite get_run. now intros [= <- <-]. Qed.

Lemma remove_keeps_empty (id : uuid) :
  keeps empty_tables (EventService.remove id).
Proof.
  intros db db' r [He Hn]. unfold EventService.remove, bind, validate, ret,
    EventRepository.delete, empty_tables.
  intros [= <- <-]. cbn [events notifications]. now rewrite He, Hn.
Qed.

Lemma createEventNotification_keeps_empty (env : Env) (eventId : uuid)
    (title message type : string) :
  keeps empty_tables
    (NotificationService.createEventNotification env eventId title message type).
Proof.
  intros db db' r [He Hn].
  unfold NotificationService.createEventNotification, bind at 1.
  destruct (negb _); simpl; [now intros [= <- <-]|].
  unfold bind, NotificationRepository.create, bind,
    NotificationRepository.insert.
  rewrite He, Hn. simpl.
  destruct (varchar 255 title); intros [= <- <-]; now split.
Qed.

Lemma markAsRead_keeps_empty (id : uuid) :
  keeps empty_tables (NotificationService.markAsRead id).
Proof.
  intros db db' r [He Hn].
  unfold NotificationService.markAsRead, bind at 1 2,
    NotificationRepository.findById.
  rewrite Hn. simpl. now intros [= <- <-].
Qed.

Lemma markAllReadForEvent_keeps_empty (eventId : uuid) :
  keeps empty_tables (NotificationService.markAllReadForEvent eventId).
Proof.
  intros db db' r [He Hn].
  unfold NotificationService.markAllReadForEvent, bind,
    NotificationRepository.markAllAsReadForEvent, update_where_id, ret.
  rewrite Hn. intros [= <- <-]. now split.
Qed.

Lemma findByEventId_keeps {P : Db -> Prop} (eventId : uuid) :
  keeps P (NotificationService.findByEventId eventId).
Proof. intros db db' r HP [= <- <-]. exact HP. Qed.

Lemma not_routed (r : Request) : operation r = None -> ~ routed r.
Proof. intros Hnone (path & method & Hsome & Hop). congruence. Qed.

(** What the service methods keep, the handlers keep: first those that
    have a route, then all of them. *)
Section Handlers.

Variable P : Db -> Prop.
Hypothesis update_P : forall env id changes,
  keeps P (EventService.update env id changes).
Hypothesis remove_P : forall id, keeps P (EventService.remove id).
Hypothesis archive_P : forall env id, keeps P (EventService.archive env id).
Hypothesis duplicate_P : forall env id, keeps P (EventService.duplicate env id).
Hypothesis notify_P : forall env eventId title message type,
  keeps P (NotificationService.createEventNotification env eventId title
             message type).

Lemma serve_routed_keeps (r : Request) (db : Db) :
  routed r -> P db -> P (serve r db).
Proof.
  intros Hrouted HP.
  assert (Hfst : forall A (m : M A), keeps P m -> P (fst (m db))).
  { intros A m Hm. destruct (m db) as [db' o] eqn:Hrun.
    now apply (Hm db db' o). }
  destruct r as [query|eventId|env eventId body|env eventId permanent
                 |env env' eventId body|env env' eventId body
                 |env eventId body|eventId|notificationId|eventId];
    try (now apply not_routed in Hrouted); unfold serve.
  - now rewrite listEvents_reads.
  - apply Hfst. apply get_keeps.
  - apply Hfst. apply update_P.
  - apply Hfst. unfold OpenAPIServiceHandlers.deleteEvent.
    apply keeps_bind; [|intros; apply keeps_ret].
    destruct (OpenAPIServiceHandlers.is_string_true permanent);
      (apply keeps_bind; [|intros; apply keeps_ret]);
      [apply remove_P|apply archive_P].
  - apply Hfst. unfold OpenAPIServiceHandlers.duplicateEvent.
    apply keeps_bind; [apply duplicate_P|]. intros duplicated.
    apply keeps_bind; [|intros; apply keeps_ret].
    destruct body as [b|]; [|apply keeps_ret].
    destruct (OpenAPIServiceHandlers.has_overrides (Some b));
      [apply update_P|apply keeps_ret].
  - apply Hfst. unfold OpenAPIServiceHandlers.cancelEvent.
    apply keeps_bind; [apply archive_P|]. intros cancelled.
    apply keeps_bind; [|intros; apply keeps_ret].
    destruct (given _); [|apply keeps_ret].
    apply keeps_bind; [apply notify_P|intros; apply keeps_ret].
  - apply Hfst. unfold OpenAPIServiceHandlers.eventQuickAction.
    destruct (String.eqb _ "view");
      [apply keeps_bind; [apply get_keeps|intros; apply keeps_ret]|].
    destruct (String.eqb _ "edit").
    { destruct (OpenAPIServiceHandlers.payload body);
        (apply keeps_bind; [|intros; apply keeps_ret]);
        [apply update_P|apply get_keeps]. }
    destruct (String.eqb _ "duplicate");
      [apply keeps_bind; [apply duplicate_P|intros; apply keeps_ret]|].
    destruct (String.eqb _ "cancel"); [apply archive_P|apply keeps_throw].
Qed.


Hypothesis markAsRead_P : forall id, keeps P (NotificationService.markAsRead id).
Hypothesis markAll_P : forall eventId,
  keeps P (NotificationService.markAllReadForEvent eventId).

Lemma serve_keeps (r : Request) (db : Db) : P db -> P (serve r db).
Proof.
  intros HP.
  assert (Hfst : forall A (m : M A), keeps P m -> P (fst (m db))).
  { intros A m Hm. destruct (m db) as [db' o] eqn:Hrun.
    now apply (Hm db db' o). }
  assert (Hroute : forall path method,
            Paths.operations path method <> None ->
            Paths.operations path method = operation r ->
            P (serve r db)).
  { intros path method Hsome Hop. apply serve_routed_keeps; [|exact HP].
    now exists path, method. }
  destruct r as [query|eventId|env eventId body|env eventId permanent
                 |env env' eventId body|env env' eventId body
                 |env eventId body|eventId|notificationId|eventId].
  - now apply (Hroute "/events" Paths.GET).
  - now apply (Hroute "/events/{eventId}" Paths.GET).
  - now apply (Hroute "/events/{eventId}" Paths.PUT).
  - now apply (Hroute "/events/{eventId}" Paths.DELETE).
  - now apply (Hroute "/events/{eventId}/duplicate" Paths.POST).
  - now apply (Hroute "/events/{eventId}/cancel" Paths.POST).
  - now apply (Hroute "/events/{eventId}/quick-actions" Paths.POST).
  - unfold serve. apply Hfst.
    unfold OpenAPIServiceHandlers.getEventNotifications.
    apply keeps_bind; [apply findByEventId_keeps|intros; apply keeps_ret].
  - unfold serve. apply Hfst. apply markAsRead_P.
  - unfold serve. apply Hfst.
    unfold OpenAPIServiceHandlers.markAllNotificationsRead.
    apply keeps_bind; [apply markAll_P|intros; apply keeps_ret].
Qed.

Lemma serve_all_keeps (requests : list Request) (db : Db) :
  P db -> P (serve_all requests db).
Proof.
  revert db. induction requests as [|r requests IH]; intros db HP;
    [exact HP|].
  simpl. apply IH. now apply serve_keeps.
Qed.

End Handlers.


(** X20.  Every sequence of requests to the handlers, whether they
    return or throw, keeps the integrity of the database: unique event
    keys, valid references, ordered dates, texts that fit.  And no
    sequence of requests gets anything into empty tables: there is no
    handler that creates an event, and every other one needs an event
    that exists. *)
Theorem handlers_keep_integrity (requests : list Request) (db : Db) :
  (well_formed db -> well_formed (serve_all requests db))
  /\ (empty_tables db -> empty_tables (serve_all requests db)).
Proof.
  split.
  - apply serve_all_keeps.
    + exact update_keeps.
    + exact remove_keeps.
    + exact archive_keeps.
    + exact duplicate_keeps.
    + exact createEventNotification_keeps.
    + exact markAsRead_service_keeps.
    + exact markAllReadForEvent_keeps.
  - apply serve_all_keeps.
    + exact update_keeps_empty.
    + exact remove_keeps_empty.
    + exact archive_keeps_empty.
    + exact duplicate_keeps_empty.
    + exact createEventNotification_keeps_empty.
    + exact markAsRead_keeps_empty.
    + exact markAllReadForEvent_keeps_empty.
Qed.

Lemma handlers_keep_integrity_witness :
  empty_tables
    (serve_all
       [DuplicateEventBy sample_env (mkEnv 1736500000100 "e-a" "n-a") "e1" None;
        UpdateEventBy sample_env "e1" relocate;
        DeleteEvent sample_env "e1"
          (Some (OpenAPIServiceHandlers.QString "true"))]
       (mkDb [] [] 0)).
Proof.
  apply (handlers_keep_integrity
           [DuplicateEventBy sample_env (mkEnv 1736500000100 "e-a" "n-a") "e1"
              None;
            UpdateEventBy sample_env "e1" relocate;
            DeleteEvent sample_env "e1"
              (Some (OpenAPIServiceHandlers.QString "true"))]
           (mkDb [] [] 0)).
  split; reflexivity.
Defined.

(* ================================================================== *)
(** * The store of the events page *)
(* ================================================================== *)

Lemma includes_spec (l : list string) (x : string) :
  EventsStore.includes l x = true <-> In x l.
Proof.
  unfold EventsStore.includes. rewrite existsb_exists. split.
  - intros (y & Hy & Heq). apply String.eqb_eq in Heq. now subst.
  - intros Hx. exists x. split; [exact Hx|apply String.eqb_refl].
Qed.

Lemma without_spec (x : string) (l : list string) (y : string) :
  In y (EventsStore.without x l) <-> In y l /\ y <> x.
Proof.
  unfold EventsStore.without. rewrite filter_In, negb_true_iff.
  now rewrite String.eqb_neq.
Qed.

Lemma without_keeps_distinct (x : string) (l : list string) :
  NoDup l -> NoDup (EventsStore.without x l).
Proof. apply NoDup_filter. Qed.

Lemma without_one (x : string) (l : list string) :
  NoDup l -> In x l -> S (List.length (EventsStore.without x l)) = List.length l.
Proof.
  unfold EventsStore.without.
  induction l as [|y l IH]; [contradiction|].
  intros Hdistinct Hx. inversion Hdistinct as [|? ? Hy Hl]; subst. simpl.
  destruct (String.eqb_spec y x) as [->|Hne]; simpl.
  - f_equal. clear IH Hx Hdistinct Hl.
    induction l as [|z l IH]; [reflexivity|]. simpl.
    destruct (String.eqb_spec z x) as [->|_]; simpl.
    + exfalso. apply Hy. now left.
    + f_equal. apply IH. intros Hin. apply Hy. now right.
  - f_equal. apply IH; [exact Hl|]. destruct Hx; [contradiction|assumption].
Qed.

Lemma appended_distinct (x : string) (l : list string) :
  NoDup l -> ~ In x l -> NoDup (l ++ [x]).
Proof.
  intros Hl Hx. induction l as [|y l IH]; simpl.
  - constructor; [tauto|constructor].
  - inversion Hl as [|? ? Hy Hl']; subst. constructor.
    + rewrite in_app_iff. simpl. intros [Hin|[->|[]]]; [tauto|].
      apply Hx. now left.
    + apply IH; [exact Hl'|]. intros Hin. apply Hx. now right.
Qed.

Lemma selectEvent_cases (eventId : string) (s : EventsStore.EventsState) :
  ((In eventId (EventsStore.selectedEventIds s)
    /\ EventsStore.selectedEventIds (EventsStore.selectEvent eventId s)
       = EventsStore.without eventId (EventsStore.selectedEventIds s))
   \/ (~ In eventId (EventsStore.selectedEventIds s)
       /\ EventsStore.selectedEventIds (EventsStore.selectEvent eventId s)
          = (EventsStore.selectedEventIds s ++ [eventId])%list))
  /\ EventsStore.selectedTags (EventsStore.selectEvent eventId s)
     = EventsStore.selectedTags s
  /\ EventsStore.selectedStatus (EventsStore.selectEvent eventId s)
     = EventsStore.selectedStatus s
  /\ EventsStore.currentPage (EventsStore.selectEvent eventId s)
     = EventsStore.currentPage s.
Proof.
  unfold EventsStore.selectEvent. cbv zeta.
  destruct (EventsStore.includes (EventsStore.selectedEventIds s) eventId)
    eqn:Hsel.
  - split; [left|repeat split]. split; [now apply includes_spec|reflexivity].
  - split; [right|repeat split]. split; [|reflexivity].
    intros Hin. apply includes_spec in Hin. congruence.
Qed.

Lemma selectEvent_distinct (eventId : string) (s : EventsStore.EventsState) :
  NoDup (EventsStore.selectedEventIds s) ->
  NoDup (EventsStore.selectedEventIds (EventsStore.selectEvent eventId s)).
Proof.
  intros Hdistinct.
  destruct (selectEvent_cases eventId s) as [[[_ ->]|[Hout ->]] _];
    [now apply without_keeps_distinct|now apply appended_distinct].
Qed.


(** X21.  [selectEvent] of the store toggles one id.  On a selection
    without duplicates, the id is selected afterwards exactly when it
    was not before, the other ids stay as they are, the selection stays
    free of duplicates, the selected count goes down by one or up by
    one, toggling twice gives the same set of ids, and the current page
    is kept. *)
Theorem selectEvent_toggles (eventId : string) (s : EventsStore.EventsState) :
  NoDup (EventsStore.selectedEventIds s) ->
  (In eventId (EventsStore.selectedEventIds (EventsStore.selectEvent eventId s))
   <-> ~ In eventId (EventsStore.selectedEventIds s))
  /\ (forall id, id <> eventId ->
        (In id (EventsStore.selectedEventIds (EventsStore.selectEvent eventId s))
         <-> In id (EventsStore.selectedEventIds s)))
  /\ NoDup (EventsStore.selectedEventIds (EventsStore.selectEvent eventId s))
  /\ (In eventId (EventsStore.selectedEventIds s) ->
      S (EventsStore.useSelectedCount (EventsStore.selectEvent eventId s))
      = EventsStore.useSelectedCount s)
  /\ (~ In eventId (EventsStore.selectedEventIds s) ->
      EventsStore.useSelectedCount (EventsStore.selectEvent eventId s)
      = S (EventsStore.useSelectedCount s))
  /\ (forall id,
        In id (EventsStore.selectedEventIds
                 (EventsStore.selectEvent eventId
                    (EventsStore.selectEvent eventId s)))
        <-> In id (EventsStore.selectedEventIds s))
  /\ EventsStore.currentPage (EventsStore.selectEvent eventId s)
     = EventsStore.currentPage s.
Proof.
  intros Hdistinct.
  assert (Htoggle : forall t,
            (In eventId (EventsStore.selectedEventIds
                           (EventsStore.selectEvent eventId t))
             <-> ~ In eventId (EventsStore.selectedEventIds t))
            /\ (forall id, id <> eventId ->
                  (In id (EventsStore.selectedEventIds
                            (EventsStore.selectEvent eventId t))
                   <-> In id (EventsStore.selectedEventIds t)))).
  { intros t. unfold EventsStore.selectEvent. cbv zeta.
    destruct (EventsStore.includes (EventsStore.selectedEventIds t) eventId)
      eqn:Hsel; cbn [EventsStore.selectAllEvents EventsStore.selectedEventIds].
    - apply includes_spec in Hsel. split.
      + rewrite without_spec. tauto.
      + intros id Hid. rewrite without_spec. tauto.
    - assert (Hout : ~ In eventId (EventsStore.selectedEventIds t)).
      { intros Hin. apply includes_spec in Hin. congruence. }
      split.
      + rewrite in_app_iff. simpl. tauto.
      + intros id Hid. rewrite in_app_iff. simpl. split; [|tauto].
        intros [Hin|[Heq|[]]]; [exact Hin|congruence]. }
  destruct (Htoggle s) as [Hself Hothers].
  split; [exact Hself|]. split; [exact Hothers|].
  destruct (selectEvent_cases eventId s) as (Hcases & _ & _ & Hpage).
  unfold EventsStore.useSelectedCount.
  split.
  { now apply selectEvent_distinct. }
  split.
  { intros Hin. destruct Hcases as [[_ ->]|[Hout _]]; [|contradiction].
    now apply without_one. }
  split.
  { intros Hout. destruct Hcases as [[Hin _]|[_ ->]]; [contradiction|].
    rewrite length_app. simpl. lia. }
  split.
  { intros id. destruct (Htoggle (EventsStore.selectEvent eventId s))
      as [Hself' Hothers'].
    destruct (string_dec id eventId) as [->|Hne].
    - rewrite Hself', Hself.
      destruct (in_dec string_dec eventId (EventsStore.selectedEventIds s));
        tauto.
    - now rewrite Hothers', Hothers. }
  exact Hpage.
Qed.

Lemma act_keeps_tidy (a : Action) (s : EventsStore.EventsState) :
  tidy s -> tidy (act a s).
Proof.
  intros (Htags & Hids & Hstatus & Hsame).
  assert (Hagree : forall t,
            EventsStore.selectedStatus t <> Some "all" ->
            EventFilters.hasActiveFilters t = EventsStore.useHasFilters t).
  { intros t Ht. unfold EventFilters.hasActiveFilters, EventsStore.useHasFilters.
    destruct (EventsStore.selectedStatus t) as [st|]; [|reflexivity].
    destruct (String.eqb_spec st "all") as [->|_]; [congruence|].
    now rewrite andb_true_r. }
  assert (Hmk : forall t,
            NoDup (EventsStore.selectedTags t) ->
            NoDup (EventsStore.selectedEventIds t) ->
            EventsStore.selectedStatus t <> Some "all" ->
            tidy t).
  { intros t H1 H2 H3. repeat split; try assumption. now apply Hagree. }
  destruct a as [query|value|tag|tag| |page|size|field order|eventId| ];
    simpl act.
  - now apply Hmk.
  - apply Hmk; try assumption.
    unfold EventFilters.handleStatusChange. simpl.
    destruct (String.eqb_spec value "all") as [->|Hne]; congruence.
  - unfold EventFilters.handleTagSelect.
    destruct (EventsStore.includes (EventsStore.selectedTags s) tag) eqn:Hsel;
      simpl.
    + now apply Hmk.
    + apply Hmk; try assumption. simpl. apply appended_distinct; [exact Htags|].
      intros Hin. apply includes_spec in Hin. congruence.
  - apply Hmk; try assumption. simpl. now apply without_keeps_distinct.
  - apply Hmk; simpl; try assumption; [constructor|discriminate].
  - now apply Hmk.
  - now apply Hmk.
  - now apply Hmk.
  - destruct (selectEvent_cases eventId s) as (_ & Htags' & Hstatus' & _).
    apply Hmk; [now rewrite Htags'|now apply selectEvent_distinct
               |now rewrite Hstatus'].
  - apply Hmk; simpl; try assumption. constructor.
Qed.


(** X22.  The filter state of the events page.  After any sequence of
    user actions from the initial state, the selected tags and the
    selected ids have no duplicates, the stored status is never "all",
    and the two computations of "has active filters", in the store and
    in the component, agree.  Every action that changes what is listed
    (search, status, tag, page size, sort order, clearing) puts the page
    back to 1 and keeps the selection; selecting a tag that is selected
    already changes nothing.  Clearing the filters leaves none active
    and keeps the page size. *)
Theorem filters_stay_tidy (actions : list Action) :
  tidy (act_all actions EventsStore.initial)
  /\ (forall a s, relists a s ->
        EventsStore.currentPage (act a s) = Int 1
        /\ EventsStore.selectedEventIds (act a s)
           = EventsStore.selectedEventIds s)
  /\ (forall s,
        EventsStore.useHasFilters (act ClearFilters s) = false
        /\ EventsStore.pageSize (act ClearFilters s) = EventsStore.pageSize s)
  /\ (forall tag s,
        In tag (EventsStore.selectedTags (act (SelectTag tag) s))
        /\ ~ In tag (EventsStore.selectedTags (act (RemoveTag tag) s))).
Proof.
  split.
  - assert (Hstart : tidy EventsStore.initial).
    { repeat split; try constructor. discriminate. }
    revert Hstart. generalize EventsStore.initial as s.
    induction actions as [|a actions IH]; intros s Hs; [exact Hs|].
    simpl. apply IH. now apply act_keeps_tidy.
  - split; [|split].
    + intros a s Ha.
      destruct a as [query|value|tag|tag| |page|size|field order|eventId| ];
        simpl in Ha; try contradiction; try (split; reflexivity).
      simpl. unfold EventFilters.handleTagSelect.
      destruct (EventsStore.includes (EventsStore.selectedTags s) tag) eqn:Hsel;
        [|split; reflexivity].
      apply includes_spec in Hsel. contradiction.
    + intros s. split; reflexivity.
    + intros tag s. split.
      * simpl. unfold EventFilters.handleTagSelect.
        destruct (EventsStore.includes (EventsStore.selectedTags s) tag)
          eqn:Hsel; simpl.
        -- now apply includes_spec.
        -- rewrite in_app_iff. simpl. tauto.
      * simpl. rewrite without_spec. tauto.
Qed.

Lemma selectEvent_toggles_witness :
  EventsStore.useSelectedCount
    (EventsStore.selectEvent "e1"
       (EventsStore.selectAllEvents ["e1"; "e2"] EventsStore.initial))
  = 1%nat.
Proof.
  destruct (selectEvent_toggles "e1"
              (EventsStore.selectAllEvents ["e1"; "e2"] EventsStore.initial))
    as (_ & _ & _ & Hdown & _).
  - repeat constructor; simpl; intuition discriminate.
  - apply eq_add_S. rewrite Hdown; [reflexivity|now left].
Defined.

Lemma filters_stay_tidy_witness :
  tidy (act_all [ChangeStatus "all"; SelectTag "workshop"; SelectTag "workshop";
                 ToggleEvent "e1"; GoToPage (Int 3); TypeSearch "conf"]
          EventsStore.initial).
Proof.
  apply (filters_stay_tidy
           [ChangeStatus "all"; SelectTag "workshop"; SelectTag "workshop";
            ToggleEvent "e1"; GoToPage (Int 3); TypeSearch "conf"]).
Defined.

(* ================================================================== *)
(** * Defaults of the listing *)
(* ================================================================== *)





(* ================================================================== *)
(** * Numbers in a query string *)
(* ================================================================== *)





(* ================================================================== *)
(** * Routes and the read state of notifications *)
(* ================================================================== *)

Lemma keeps_reading {A} (P : Db -> Prop) (m : M A) :
  (forall db, fst (m db) = db) -> keeps P m.
Proof.
  intros Hread db db' r HP Hrun. specialize (Hread db).
  rewrite Hrun in Hread. simpl in Hread. now subst.
Qed.

Lemma keeps_assertExists {A} (P : Db -> Prop) (entityName : string)
    (entity : option A) :
  keeps P (assertExists entityName entity).
Proof. destruct entity; [apply keeps_ret|apply keeps_throw]. Qed.

(** The service methods keep what the statements of the repositories
    keep, when that holds of the notifications they insert, which are
    unread. *)
Section Services.

Variable P : Db -> Prop.
Hypothesis update_P : forall id data, keeps P (EventRepository.update id data).
Hypothesis insert_P : forall env data, keeps P (EventRepository.create env data).
Hypothesis delete_P : forall id, keeps P (EventRepository.delete id).
Hypothesis notify_P : forall env eventId title message isRead,
  isRead = None \/ isRead = Some 0 ->
  keeps P (NotificationRepository.create env
             (NewNotification.mk None eventId title message isRead None)).

Lemma service_update_keeps (env : Env) (id : uuid) (changes : Changes.t) :
  keeps P (EventService.update env id changes).
Proof.
  unfold EventService.update.
  apply keeps_bind; [apply keeps_ret|intros _].
  apply keeps_bind.
  { destruct (EventService.carries_date changes); [|apply keeps_ret].
    apply keeps_bind; [now apply keeps_reading|intros existing].
    apply keeps_bind; [apply keeps_assertExists|intros e].
    apply keeps_reading. intros db.
    destruct (EventService.validateEventDates _ _ db) as [db' r] eqn:Hrun.
    now apply validateEventDates_db in Hrun. }
  intros _. cbv zeta.
  apply keeps_bind; [apply update_P|intros updated].
  apply keeps_bind; [apply keeps_assertExists|intros e].
  apply keeps_bind; [|intros; apply keeps_ret].
  destruct (EventService.significant changes); [|apply keeps_ret].
  apply keeps_bind; [apply notify_P; now left|intros; apply keeps_ret].
Qed.


Lemma service_archive_keeps (env : Env) (id : uuid) :
  keeps P (EventService.archive env id).
Proof.
  unfold EventService.archive.
  apply keeps_bind; [now apply keeps_reading|intros event].
  apply keeps_bind; [apply keeps_assertExists|intros e].
  apply keeps_bind;
    [destruct (status_eqb _ _); [apply keeps_throw|apply keeps_ret]|intros _].
  apply keeps_bind; [apply update_P|intros updated].
  apply keeps_bind; [apply notify_P; now left|intros; apply keeps_ret].
Qed.



End Services.




(* ================================================================== *)
(** * The calls of the client *)
(* ================================================================== *)

Lemma listing_keys (a b c d e : option string) (last : string) :
  last = "tags" \/ last = "tag" ->
  let query := (Api.param "page" a ++ Api.param "pageSize" b
                ++ Api.param "q" c ++ Api.param "status" d
                ++ Api.param last e)%list in
  lookup "page" query = a
  /\ lookup "pageSize" query = b
  /\ lookup "q" query = c
  /\ lookup "status" query = d
  /\ lookup "tag" query = (if String.eqb last "tag" then e else None)
  /\ lookup "permanent" query = None.
Proof.
  intros [-> | ->]; destruct a, b, c, d, e; repeat split.
Qed.

Lemma no_permanent (call : Api.Call) :
  client_call call -> lookup "permanent" (Api.query call) = None.
Proof.
  intros [params|id|eventData|id eventData|id|id]; try reflexivity;
    unfold Api.getEvents, Api.createEvent; cbn [Api.query];
    match goal with
    | |- lookup _ (Api.param _ ?a ++ Api.param _ ?b ++ Api.param _ ?c
                   ++ Api.param _ ?d ++ Api.param ?last ?e)%list = _ =>
        apply (listing_keys a b c d e last); tauto
    end.
Qed.

Lemma deleteEvent_by_default (eventId : uuid) (env : Env) (db : Db) :
  OpenAPIServiceHandlers.deleteEvent eventId None env db
  = match EventService.archive env eventId db with
    | (db1, Ok _) => (db1, Ok 204)
    | (db1, Throw x) => (db1, Throw x)
    end.
Proof.
  unfold OpenAPIServiceHandlers.deleteEvent.
  cbn [OpenAPIServiceHandlers.is_string_true]. unfold bind.
  now destruct (EventService.archive env eventId db) as [db1 [o|x]].
Qed.

(** X25.  Deleting from the client archives.  The call of the
    client's [deleteEvent] carries no query, so the handler takes the
    archive path: for an existing event that is not archived the reply
    is 204, the event is still there, archived, with all notifications
    kept, and deleting it again is refused with "Event is already
    archived".  No call of the client carries [permanent]: whatever
    delete request one of them makes is an [archive]. *)
Theorem client_delete_only_archives (env env' env2 : Env) (id : uuid)
    (db : Db) (e : Event.t) :
  find_event db id = Some e ->
  Event.status e <> archived ->
  fresh_notification_id env db ->
  exists db',
    received env env' (Api.deleteEvent id) = Some (DeleteEvent env id None)
    /\ OpenAPIServiceHandlers.deleteEvent id None env db = (db', Ok 204)
    /\ serve (DeleteEvent env id None) db = db'
    /\ find_event db' id = Some (with_status archived (now env) e)
    /\ (forall n, In n (notifications db) -> In n (notifications db'))
    /\ OpenAPIServiceHandlers.deleteEvent id None env2 db'
       = (db', Throw (Error "Event is already archived"))
    /\ forall call envx envy eventId permanent,
         client_call call ->
         received env env' call = Some (DeleteEvent envx eventId permanent) ->
         permanent = None
         /\ OpenAPIServiceHandlers.deleteEvent eventId permanent envy db
            = match EventService.archive envy eventId db with
              | (db1, Ok _) => (db1, Ok 204)
              | (db1, Throw x) => (db1, Throw x)
              end.
Proof.
  intros Hfind Hlive Hfresh.
  assert (Hrun : OpenAPIServiceHandlers.deleteEvent id None env db
                 = (mkDb (rewrite_events (with_status archived (now env)) id db)
                         (notifications db
                          ++ [lifecycle_notification env id "Event Archived"
                                ("Event " ++ dquote ++ Event.name e ++ dquote
                                 ++ " has been archived")])
                         (S (S (writes db))),
                    Ok 204)).
  { rewrite deleteEvent_by_default.
    now rewrite (archive_live env id db e Hfind Hlive Hfresh). }
  eexists. split; [reflexivity|]. split; [exact Hrun|].
  split; [unfold serve; now rewrite Hrun|].
  assert (Hafter : find_event
                     (mkDb (rewrite_events (with_status archived (now env)) id db)
                        (notifications db
                         ++ [lifecycle_notification env id "Event Archived"
                               ("Event " ++ dquote ++ Event.name e ++ dquote
                                ++ " has been archived")])
                        (S (S (writes db)))) id
                   = Some (with_status archived (now env) e))
    by now apply find_rewritten_same.
  split; [exact Hafter|].
  split; [intros n Hn; cbn [notifications]; apply in_or_app; now left|].
  split.
  { rewrite deleteEvent_by_default.
    now rewrite (archive_refused env2 id _ _ Hafter eq_refl). }
  intros call envx envy eventId permanent Hcall Hreceived.
  assert (Hnone : permanent = None).
  { pose proof (no_permanent call Hcall) as Hno. unfold received in Hreceived.
    destruct (Paths.operations _ _) as [[]|]; try discriminate;
      destruct (Api.eventId call); try discriminate;
      try (destruct (Api.body call); discriminate).
    rewrite Hno in Hreceived. now injection Hreceived as _ _ <-. }
  split; [exact Hnone|]. subst permanent. apply deleteEvent_by_default.
Qed.

Lemma client_delete_only_archives_witness :
  exists db',
    OpenAPIServiceHandlers.deleteEvent "e1" None sample_env sample_db
    = (db', Ok 204)
    /\ find_event db' "e1"
       = Some (with_status archived (now sample_env) tech_conference).
Proof.
  destruct (client_delete_only_archives sample_env sample_env sample_env "e1"
              sample_db tech_conference)
    as (db' & _ & Hrun & _ & Hkept & _); try reflexivity; [discriminate|].
  exists db'. now split.
Defined.

Lemma same_size_update (size : nat) (id : uuid) (data : Changes.t) :
  keeps (fun d => List.length (events d) = size) (EventRepository.update id data).
Proof.
  intros d d' r Hsize Hrun. destruct r as [o|x].
  - apply repo_update_ok in Hrun. destruct Hrun as (data' & _ & -> & _).
    cbn [events]. unfold rewrite_events. now rewrite length_map.
  - apply repo_update_throw in Hrun. now subst.
Qed.

Lemma same_size_notify (size : nat) (env : Env) (data : NewNotification.t) :
  keeps (fun d => List.length (events d) = size)
    (NotificationRepository.create env data).
Proof.
  intros d d' r Hsize Hrun. apply notification_insert_events in Hrun.
  now rewrite Hrun.
Qed.

(** X26.  Creating from the client lists.  Whatever [eventData] holds,
    the call of the client's [createEvent] is a GET of [/events]
    without a body, which the server takes for a listing: the database
    is left as it is, and of the data only [q], [status] and the paging
    keys reach the handler.  [paths] has no POST for [/events]; of all
    the calls of the client only [duplicateEvent] can change the number
    of events. *)
Theorem client_create_only_lists (env env' : Env)
    (eventData : Api.EventData.t) (db : Db) :
  exists query,
    received env env' (Api.createEvent eventData) = Some (ListEvents query)
    /\ serve (ListEvents query) db = db
    /\ Api.body (Api.createEvent eventData) = None
    /\ OpenAPIServiceHandlers.q query = given (Api.EventData.q eventData)
    /\ OpenAPIServiceHandlers.status query
       = given (Api.EventData.status eventData)
    /\ Paths.operations "/events" Paths.POST = None
    /\ forall call r,
         client_call call ->
         received env env' call = Some r ->
         List.length (events (serve r db)) = List.length (events db)
         \/ exists id, call = Api.duplicateEvent id.
Proof.
  eexists. split; [reflexivity|].
  split; [unfold serve; apply listEvents_reads|].
  split; [reflexivity|].
  cbn [OpenAPIServiceHandlers.tag OpenAPIServiceHandlers.q
       OpenAPIServiceHandlers.status Api.createEvent Api.query].
  destruct (listing_keys
              (option_map Api.number_text
                 (Api.truthy_number (Api.EventData.page eventData)))
              (option_map Api.number_text
                 (Api.truthy_number (Api.EventData.pageSize eventData)))
              (given (Api.EventData.q eventData))
              (given (Api.EventData.status eventData))
              (given (Api.EventData.tag eventData)) "tag" (or_intror eq_refl))
    as (_ & _ & Hq & Hstatus & _ & _).
  split; [exact Hq|]. split; [exact Hstatus|].
  split; [reflexivity|].
  intros call r Hcall Hr.
  assert (Hfst : forall A (m : M A),
            keeps (fun d => List.length (events d) = List.length (events db)) m ->
            List.length (events (fst (m db))) = List.length (events db)).
  { intros A m Hm. destruct (m db) as [db' o] eqn:Hrun.
    now apply (Hm db db' o). }
  destruct Hcall as [params|id|data|id changes|id|id].
  - left. injection Hr as <-. unfold serve. now rewrite listEvents_reads.
  - left. injection Hr as <-. unfold serve.
    unfold OpenAPIServiceHandlers.getEvent. now rewrite get_run.
  - left. injection Hr as <-. unfold serve. now rewrite listEvents_reads.
  - left. injection Hr as <-. unfold serve.
    unfold OpenAPIServiceHandlers.updateEvent. apply Hfst.
    apply service_update_keeps.
    + intros. apply same_size_update.
    + intros. apply same_size_notify.
  - left. injection Hr as <-. unfold serve.
    rewrite deleteEvent_by_default.
    specialize (Hfst _ (EventService.archive env id)).
    destruct (EventService.archive env id db) as [db1 [o|x]]; apply Hfst;
      (apply service_archive_keeps;
       [intros; apply same_size_update|intros; apply same_size_notify]).
  - right. now exists id.
Qed.

Lemma client_create_only_lists_witness :
  exists query,
    received sample_env sample_env
      (Api.createEvent (Api.EventData.mk None None None (Some "draft") None))
    = Some (ListEvents query)
    /\ serve (ListEvents query) sample_db = sample_db.
Proof.
  destruct (client_create_only_lists sample_env sample_env
              (Api.EventData.mk None None None (Some "draft") None) sample_db)
    as (query & Hreceived & Hsame & _).
  exists query. now split.
Defined.

(* ================================================================== *)
(** * The listing of the events page *)
(* ================================================================== *)





